(** * FIFO lot matching of the tax-calculation route

    A shallow embedding of [calculateGainsLosses]
    (src/app/api/cryptocurrencies/route.ts, lines 1471-1577) and of the
    interfaces [TaxLot] and [GainLossCalculation] it works on.

    Conventions of the embedding.
    - The function is embedded twice.  In the first reading a JavaScript
      [number] is an exact rational ([Qc], canonical fractions with
      Leibniz equality): rounding is not modelled, and [x / 0] is [0]
      whereas JavaScript yields [Infinity] or [NaN]; statements whose
      truth depends on the value of a quotient assume the divisor (a
      lot's [amount]) is not zero.  This reading carries the statements
      that do not depend on how numbers round.  In the second reading
      (module [Double]) a [number] is the IEEE 754 double the program
      computes; it carries the statements on sums, remainders and on
      which lots a disposal consumes.
    - A [Date] is the integer [getTime()] gives: milliseconds, in [Z].
    - Lot objects live in a store ([heap], a list indexed by reference);
      arrays of lots hold references, so the in-place updates
      [lot.amount -= ...] are seen by every holder of the object.
    - The function is [async]: it yields a [Promise], which is resolved
      with a value or rejected with an error. *)

From Stdlib Require Import Floats Uint63.
From Stdlib Require Import QArith Qcanon Qcabs ZArith Lia Lqa.
From stdpp Require Import base numbers list strings sorting gmap.

Local Open Scope Qc_scope.

(** Decimal literals stand for the nearest double, as in JavaScript. *)
Set Warnings "-inexact-float".

(** ** Data model *)

(** The fields of a transaction row that the function reads
    ([transaction.cryptocurrency.symbol] is flattened to [symbol]). *)
Module Transaction.
Record t : Type := mk {
  id : string;
  type : string;
  amount : Qc;
  totalUsd : Qc;
  timestamp : Z;
  symbol : string
}.
End Transaction.

(** interface TaxLot *)
Module TaxLot.
Record t : Type := mk {
  id : string;
  amount : Qc;
  costBasis : Qc;
  acquiredAt : Z;
  isClosed : bool;
  transaction : Transaction.t
}.

(** [lot.amount -= lotAmount; lot.costBasis -= lotCostBasis] *)
Definition consume (lot : t) (lotAmount lotCostBasis : Qc) : t :=
  mk (id lot) (amount lot - lotAmount) (costBasis lot - lotCostBasis)
     (acquiredAt lot) (isClosed lot) (transaction lot).

(** Cost basis per unit, the quotient the loop computes at line 1515. *)
Definition unitCost (lot : t) : Qc := costBasis lot / amount lot.

(** Asset of a lot: [lot.transaction.cryptocurrency.symbol]. *)
Definition asset (lot : t) : string := Transaction.symbol (transaction lot).
End TaxLot.

Inductive Term : Type := short | long.

Global Instance Term_eq_dec : EqDecision Term.
Proof. solve_decision. Defined.

(** One element of [GainLossCalculation.transactions]. *)
Module Detail.
Record t : Type := mk {
  id : string;
  type : string;
  amount : Qc;
  proceeds : Qc;
  costBasis : Qc;
  gainLoss : Qc;
  term : Term;
  asset : string;
  date : Z
}.
End Detail.

(** interface GainLossCalculation *)
Module GainLossCalculation.
Record t : Type := mk {
  shortTermGains : Qc;
  longTermGains : Qc;
  shortTermLosses : Qc;
  longTermLosses : Qc;
  totalGains : Qc;
  totalLosses : Qc;
  netGainLoss : Qc;
  costBasis : Qc;
  proceeds : Qc;
  transactions : list Detail.t
}.

(** The object literal of lines 1477-1488. *)
Definition initial : t := mk 0 0 0 0 0 0 0 0 0 [].
End GainLossCalculation.

(** The errors the specification names.  The source has no [throw]
    statement: none of them is ever constructed by the code below. *)
Inductive Error : Type :=
  | InsufficientLotsError (asset : string) (unmatchedQuantity : Qc)
  | OutOfOrderEventError (asset : string) (eventIndex : nat)
  | InvalidEventError (reason : string).

Inductive Promise (A : Type) : Type :=
  | Resolved (value : A)
  | Rejected (reason : Error).
Arguments Resolved {A} value.
Arguments Rejected {A} reason.

(** ** Machine state *)

(** A default lot, read only through a dangling reference (which a
    JavaScript array of objects never holds). *)
Global Instance TaxLot_inhabited : Inhabited TaxLot.t :=
  populate (TaxLot.mk "" 0 0 0 false (Transaction.mk "" "" 0 0 0 "")).

(** What a run works on: the store of lot objects, the local array
    [availableLots] of references into it, and the [result] object. *)
Record State : Type := mkState {
  heap : list TaxLot.t;
  availableLots : list nat;
  result : GainLossCalculation.t
}.

(** The state of the inner [while] loop: the above and the two locals
    of the SELL branch that the loop assigns. *)
Record SellState : Type := mkSell {
  outer : State;
  remainingAmount : Qc;
  totalCostBasis : Qc
}.

(** ** The operations *)

Definition Math_min (x y : Qc) : Qc := if decide (x ≤ y) then x else y.
Definition Math_abs (x : Qc) : Qc := Qcabs x.

(** [1000 * 60 * 60 * 24] *)
Definition msPerDay : Z := 1000 * 60 * 60 * 24.

(** Lines 1520-1521: [holdingPeriod / (1000 * 60 * 60 * 24)]. *)
Definition daysHeld (disposedAt acquiredAt : Z) : Qc :=
  Qc_of_Z (disposedAt - acquiredAt) / Qc_of_Z msPerDay.

(** Line 1522: [daysHeld > 365]. *)
Definition isLongTerm (disposedAt acquiredAt : Z) : bool :=
  bool_decide (Qc_of_Z 365 < daysHeld disposedAt acquiredAt).

Definition termOf (isLong : bool) : Term := if isLong then long else short.

(** Lines 1527-1541: the gain or loss goes to [totalGains] and one gains
    bucket when positive, to [totalLosses] and one losses bucket
    otherwise. *)
Definition updateTotals (gainLoss : Qc) (isLong : bool)
    (r : GainLossCalculation.t) : GainLossCalculation.t :=
  let '(GainLossCalculation.mk stg ltg stl ltl tg tl net cb pr txs) := r in
  if decide (0 < gainLoss) then
    if isLong
    then GainLossCalculation.mk stg (ltg + gainLoss) stl ltl (tg + gainLoss) tl net cb pr txs
    else GainLossCalculation.mk (stg + gainLoss) ltg stl ltl (tg + gainLoss) tl net cb pr txs
  else
    if isLong
    then GainLossCalculation.mk stg ltg stl (ltl + Math_abs gainLoss) tg (tl + Math_abs gainLoss) net cb pr txs
    else GainLossCalculation.mk stg ltg (stl + Math_abs gainLoss) ltl tg (tl + Math_abs gainLoss) net cb pr txs.

(** Lines 1544-1554: [result.transactions.push({...})]. *)
Definition pushDetail (d : Detail.t)
    (r : GainLossCalculation.t) : GainLossCalculation.t :=
  let '(GainLossCalculation.mk stg ltg stl ltl tg tl net cb pr txs) := r in
  GainLossCalculation.mk stg ltg stl ltl tg tl net cb pr (txs ++ [d]).

(** The record pushed by one iteration for the lot [lot]. *)
Definition detailOf (transaction : Transaction.t) (lot : TaxLot.t)
    (remaining : Qc) : Detail.t :=
  let lotAmount := Math_min remaining (TaxLot.amount lot) in
  let lotCostBasis := (TaxLot.costBasis lot / TaxLot.amount lot) * lotAmount in
  let lotProceeds :=
    (Transaction.totalUsd transaction / Transaction.amount transaction) * lotAmount in
  let gainLoss := lotProceeds - lotCostBasis in
  let isLong := isLongTerm (Transaction.timestamp transaction) (TaxLot.acquiredAt lot) in
  Detail.mk (Transaction.id transaction) (Transaction.type transaction)
    lotAmount lotProceeds lotCostBasis gainLoss (termOf isLong)
    (Transaction.symbol transaction) (Transaction.timestamp transaction).

(** Line 1512: [remainingAmount > 0 && availableLots.length > 0]. *)
Definition sell_cond (s : SellState) : bool :=
  bool_decide (0 < remainingAmount s) &&
  bool_decide (0 < length (availableLots (outer s)))%nat.

(** Lines 1513-1565: one iteration of the loop.  The first branch is
    never taken under [sell_cond]. *)
Definition sell_body (transaction : Transaction.t) (s : SellState) : SellState :=
  match availableLots (outer s) with
  | [] => s
  | ref :: rest =>
      let lot := heap (outer s) !!! ref in
      let d := detailOf transaction lot (remainingAmount s) in
      let lotAmount := Detail.amount d in
      let lotCostBasis := Detail.costBasis d in
      let isLong := isLongTerm (Transaction.timestamp transaction) (TaxLot.acquiredAt lot) in
      let result' := pushDetail d (updateTotals (Detail.gainLoss d) isLong (result (outer s))) in
      let outer' :=
        if decide (lotAmount = TaxLot.amount lot)
        then mkState (heap (outer s)) rest result'
        else mkState (<[ref := TaxLot.consume lot lotAmount lotCostBasis]> (heap (outer s)))
                     (ref :: rest) result' in
      mkSell outer' (remainingAmount s - lotAmount) (totalCostBasis s + lotCostBasis)
  end.

(** [while (cond) body], run for at most [fuel] iterations. *)
Fixpoint while {S : Type} (fuel : nat) (cond : S → bool) (body : S → S) (s : S) : S :=
  match fuel with
  | O => s
  | Datatypes.S fuel' => if cond s then while fuel' cond body (body s) else s
  end.

(** The loop of lines 1512-1566.  One iteration per lot in the queue is
    enough fuel: see [sell_loop_terminates]. *)
Definition sell_loop (transaction : Transaction.t) (s : SellState) : SellState :=
  while (length (availableLots (outer s))) sell_cond (sell_body transaction) s.

(** Lines 1497-1505: the lot a BUY opens, a fresh object. *)
Definition newLot (transaction : Transaction.t) : TaxLot.t :=
  TaxLot.mk ("lot-" +:+ Transaction.id transaction)
    (Transaction.amount transaction) (Transaction.totalUsd transaction)
    (Transaction.timestamp transaction) false transaction.

(** Lines 1568-1569. *)
Definition addSale (totalCostBasis totalProceeds : Qc)
    (r : GainLossCalculation.t) : GainLossCalculation.t :=
  let '(GainLossCalculation.mk stg ltg stl ltl tg tl net cb pr txs) := r in
  GainLossCalculation.mk stg ltg stl ltl tg tl net
    (cb + totalCostBasis) (pr + totalProceeds) txs.

(** Lines 1495-1570: the body of the [for] loop. *)
Definition process (s : State) (transaction : Transaction.t) : State :=
  if decide (Transaction.type transaction = "BUY") then
    mkState (heap s ++ [newLot transaction])
            (availableLots s ++ [length (heap s)])
            (result s)
  else if decide (Transaction.type transaction = "SELL") then
    let totalProceeds := Transaction.totalUsd transaction in
    let s' := sell_loop transaction (mkSell s (Transaction.amount transaction) 0) in
    mkState (heap (outer s')) (availableLots (outer s'))
            (addSale (totalCostBasis s') totalProceeds (result (outer s')))
  else s.

(** Line 1574. *)
Definition setNet (r : GainLossCalculation.t) : GainLossCalculation.t :=
  let '(GainLossCalculation.mk stg ltg stl ltl tg tl net cb pr txs) := r in
  GainLossCalculation.mk stg ltg stl ltl tg tl (tg - tl) cb pr txs.

(** The whole function body, keeping the final store and queue. *)
Definition run (transactions : list Transaction.t) (previousTaxLots : list nat)
    (h : list TaxLot.t) : State :=
  let s := foldl process
             (mkState h previousTaxLots GainLossCalculation.initial)
             transactions in
  mkState (heap s) (availableLots s) (setNet (result s)).

(** [calculateGainsLosses]: the promise it returns and the store it
    leaves.  [yearStart] and [yearEnd] are parameters it never reads. *)
Definition calculateGainsLosses (transactions : list Transaction.t)
    (previousTaxLots : list nat) (yearStart yearEnd : Z)
    (h : list TaxLot.t) : Promise GainLossCalculation.t * list TaxLot.t :=
  let s := run transactions previousTaxLots h in
  (Resolved (result s), heap s).

(** The result object after one iteration on [lot]. *)
Definition stepResult (transaction : Transaction.t) (lot : TaxLot.t)
    (remaining : Qc) (r : GainLossCalculation.t) : GainLossCalculation.t :=
  pushDetail (detailOf transaction lot remaining)
    (updateTotals (Detail.gainLoss (detailOf transaction lot remaining))
       (isLongTerm (Transaction.timestamp transaction) (TaxLot.acquiredAt lot)) r).

(** ** Vocabulary of the statements *)

Definition sumQc (l : list Qc) : Qc := foldr Qcplus 0 l.

(** [n] days, in milliseconds. *)
Definition days (n : Z) : Z := (n * msPerDay)%Z.

(** The lots of the queue are objects of the store with a non-zero
    amount, so that line 1515 divides by a non-zero number.  (A dangling
    reference reads the default lot, whose amount is zero.) *)
Definition lots_nonzero (h : list TaxLot.t) (lots : list nat) : Prop :=
  Forall (λ ref, TaxLot.amount (h !!! ref) ≠ 0) lots.

(** The lots opened by the purchases of a run have a non-zero amount. *)
Definition buys_nonzero (transactions : list Transaction.t) : Prop :=
  Forall (λ tx, Transaction.type tx = "BUY" → Transaction.amount tx ≠ 0) transactions.

(** The references of an array point into the store. *)
Definition lots_valid (h : list TaxLot.t) (lots : list nat) : Prop :=
  Forall (λ ref, (ref < length h)%nat) lots.

(** The lot objects an array of references holds, by value. *)
Definition lotValues (h : list TaxLot.t) (lots : list nat) : list TaxLot.t :=
  (λ ref, h !!! ref) <$> lots.

(** Two lot states are equal-valued: arrays of distinct objects of
    their stores, holding equal lots position by position. *)
Definition same_lots (h1 : list TaxLot.t) (lots1 : list nat)
    (h2 : list TaxLot.t) (lots2 : list nat) : Prop :=
  NoDup lots1 ∧ NoDup lots2 ∧ lots_valid h1 lots1 ∧ lots_valid h2 lots2 ∧
  lotValues h1 lots1 = lotValues h2 lots2.

(** Two states of a run that differ at most in where the lots are kept. *)
Definition same_state (s1 s2 : State) : Prop :=
  result s1 = result s2 ∧
  same_lots (heap s1) (availableLots s1) (heap s2) (availableLots s2).

Definition same_sell_state (s1 s2 : SellState) : Prop :=
  same_state (outer s1) (outer s2) ∧
  remainingAmount s1 = remainingAmount s2 ∧
  totalCostBasis s1 = totalCostBasis s2.

(** ** Concrete inputs *)

Global Instance Transaction_eq_dec : EqDecision Transaction.t.
Proof. solve_decision. Defined.
Global Instance TaxLot_eq_dec : EqDecision TaxLot.t.
Proof. solve_decision. Defined.
Global Instance Detail_eq_dec : EqDecision Detail.t.
Proof. solve_decision. Defined.
Global Instance GainLossCalculation_eq_dec : EqDecision GainLossCalculation.t.
Proof. solve_decision. Defined.
Global Instance State_eq_dec : EqDecision State.
Proof. solve_decision. Defined.
Global Instance SellState_eq_dec : EqDecision SellState.
Proof. solve_decision. Defined.

(** An event of [amount] units for [totalUsd] dollars on day [day]. *)
Definition event (id type : string) (amount totalUsd day : Z) (symbol : string)
    : Transaction.t :=
  Transaction.mk id type (Qc_of_Z amount) (Qc_of_Z totalUsd) (days day) symbol.

(** A lot carried over from an earlier year, bought on day [day]. *)
Definition carried (id : string) (amount costBasis day : Z) (symbol : string)
    : TaxLot.t :=
  TaxLot.mk ("lot-" +:+ id) (Qc_of_Z amount) (Qc_of_Z costBasis) (days day) false
    (event id "BUY" amount costBasis day symbol).

(** The scenario of the specification: buy 2 for $100 on day 0, buy 3
    for $210 on day 10, sell 4 for $800 on day 400. *)
Definition scenario : list Transaction.t :=
  [event "t1" "BUY" 2 100 0 "BTC";
   event "t2" "BUY" 3 210 10 "BTC";
   event "t3" "SELL" 4 800 400 "BTC"].

(** Six units held, ten sold. *)
Definition sixUnits : list TaxLot.t := [carried "t0" 6 60 0 "BTC"].

(** A sale followed by an event with a negative quantity. *)
Definition fiveUnits : list TaxLot.t := [carried "t0" 5 50 0 "BTC"].
Definition sellThree : Transaction.t := event "t1" "SELL" 3 60 10 "BTC".
Definition sellMinusOne : Transaction.t := event "t2" "SELL" (-1) 10 11 "BTC".

(** ** Vocabulary of the further properties *)

Definition buys_positive (transactions : list Transaction.t) : Prop :=
  Forall (λ tx, Transaction.type tx = "BUY" → 0 < Transaction.amount tx) transactions.

(** The detail records of a result, and their amounts. *)
Definition details (s : State) : list Detail.t :=
  GainLossCalculation.transactions (result s).

(** A detail record comes from the SELL event [tx]. *)
Definition detailFrom (tx : Transaction.t) (d : Detail.t) : Prop :=
  Transaction.type tx = "SELL" ∧ 0 < Transaction.amount tx ∧
  Detail.type d = "SELL" ∧
  Detail.id d = Transaction.id tx ∧
  Detail.asset d = Transaction.symbol tx ∧
  Detail.date d = Transaction.timestamp tx ∧
  Detail.proceeds d =
    Transaction.totalUsd tx / Transaction.amount tx * Detail.amount d ∧
  Detail.gainLoss d = Detail.proceeds d - Detail.costBasis d.

(** The acquisition dates of the lots of a queue, in queue order. *)
Definition acquiredDates (h : list TaxLot.t) (lots : list nat) : list Z :=
  (λ ref, TaxLot.acquiredAt (h !!! ref)) <$> lots.

(** The queue is in acquisition order, oldest lot first. *)
Definition acquisitionOrder (h : list TaxLot.t) (lots : list nat) : Prop :=
  StronglySorted Z.le (acquiredDates h lots).

(** The events are in chronological order. *)
Definition chronological (transactions : list Transaction.t) : Prop :=
  StronglySorted Z.le (Transaction.timestamp <$> transactions).

(** The BUY events of a run, in order. *)
Definition purchases (transactions : list Transaction.t) : list Transaction.t :=
  filter (λ tx, Transaction.type tx = "BUY") transactions.

(** Three carried-over lots, bought on days 0, 10 and 20, and events
    of the year after. *)
Definition threeLots : list TaxLot.t :=
  [carried "a" 2 100 0 "BTC"; carried "b" 4 200 10 "BTC"; carried "c" 3 90 20 "BTC"].
Definition threeLotsState : State :=
  mkState threeLots [0%nat; 1%nat; 2%nat] GainLossCalculation.initial.
Definition sellFour : Transaction.t := event "s1" "SELL" 4 800 380 "BTC".
Definition buyOne : Transaction.t := event "b1" "BUY" 1 50 390 "BTC".
Definition transferTwo : Transaction.t := event "x1" "TRANSFER_IN" 2 0 395 "BTC".

(** * The same function on doubles

    [calculateGainsLosses] once more, every [number] now the IEEE 754
    binary64 value the program computes: the kernel's primitive [float],
    rounded to nearest, ties to even, with [NaN], the infinities and the
    two zeros.  [>] is [ltb], [===] is [eqb] ([NaN] differs from itself,
    the zeros are equal), and a [Date] is still its integer of
    milliseconds, turned into a double where the code computes with it.
    What does not depend on how numbers round is stated on the exact
    reading above; what does is stated here. *)

Module Double.

Module Transaction.
Record t : Type := mk {
  id : string;
  type : string;
  amount : float;
  totalUsd : float;
  timestamp : Z;
  symbol : string
}.
End Transaction.

(** interface TaxLot *)
Module TaxLot.
Record t : Type := mk {
  id : string;
  amount : float;
  costBasis : float;
  acquiredAt : Z;
  isClosed : bool;
  transaction : Transaction.t
}.

(** [lot.amount -= lotAmount; lot.costBasis -= lotCostBasis] *)
Definition consume (lot : t) (lotAmount lotCostBasis : float) : t :=
  mk (id lot) (PrimFloat.sub (amount lot) lotAmount)
     (PrimFloat.sub (costBasis lot) lotCostBasis)
     (acquiredAt lot) (isClosed lot) (transaction lot).

(** Asset of a lot: [lot.transaction.cryptocurrency.symbol]. *)
Definition asset (lot : t) : string := Transaction.symbol (transaction lot).
End TaxLot.

(** One element of [GainLossCalculation.transactions]. *)
Module Detail.
Record t : Type := mk {
  id : string;
  type : string;
  amount : float;
  proceeds : float;
  costBasis : float;
  gainLoss : float;
  term : Term;
  asset : string;
  date : Z
}.
End Detail.

(** interface GainLossCalculation *)
Module GainLossCalculation.
Record t : Type := mk {
  shortTermGains : float;
  longTermGains : float;
  shortTermLosses : float;
  longTermLosses : float;
  totalGains : float;
  totalLosses : float;
  netGainLoss : float;
  costBasis : float;
  proceeds : float;
  transactions : list Detail.t
}.

(** The object literal of lines 1477-1488. *)
Definition initial : t :=
  mk PrimFloat.zero PrimFloat.zero PrimFloat.zero PrimFloat.zero PrimFloat.zero
     PrimFloat.zero PrimFloat.zero PrimFloat.zero PrimFloat.zero [].
End GainLossCalculation.

Global Instance TaxLot_inhabited : Inhabited TaxLot.t :=
  populate (TaxLot.mk "" PrimFloat.zero PrimFloat.zero 0 false
              (Transaction.mk "" "" PrimFloat.zero PrimFloat.zero 0 "")).

Record State : Type := mkState {
  heap : list TaxLot.t;
  availableLots : list nat;
  result : GainLossCalculation.t
}.

Record SellState : Type := mkSell {
  outer : State;
  remainingAmount : float;
  totalCostBasis : float
}.

(** [Math.min(x, y)]: [NaN] if either is, else the smaller, the negative
    zero being smaller than the positive one. *)
Definition Math_min (x y : float) : float :=
  if is_nan x || is_nan y then nan
  else if PrimFloat.ltb x y then x
  else if PrimFloat.ltb y x then y
  else if get_sign x then x else y.

Definition Math_abs (x : float) : float := PrimFloat.abs x.

(** [date.getTime()] as a double; exact, a [Date] being an integer of
    at most 8.64e15 in magnitude. *)
Definition getTime (date : Z) : float :=
  match date with
  | Z0 => PrimFloat.zero
  | Zpos _ => PrimFloat.of_uint63 (Uint63.of_Z date)
  | Zneg p => PrimFloat.opp (PrimFloat.of_uint63 (Uint63.of_Z (Zpos p)))
  end.

(** [1000 * 60 * 60 * 24] *)
Definition msPerDay : float :=
  PrimFloat.mul (PrimFloat.mul (PrimFloat.mul 1000 60) 60) 24.

(** Lines 1520-1521. *)
Definition daysHeld (disposedAt acquiredAt : Z) : float :=
  PrimFloat.div (PrimFloat.sub (getTime disposedAt) (getTime acquiredAt)) msPerDay.

(** Line 1522: [daysHeld > 365]. *)
Definition isLongTerm (disposedAt acquiredAt : Z) : bool :=
  PrimFloat.ltb 365 (daysHeld disposedAt acquiredAt).

(** Lines 1527-1541. *)
Definition updateTotals (gainLoss : float) (isLong : bool)
    (r : GainLossCalculation.t) : GainLossCalculation.t :=
  let '(GainLossCalculation.mk stg ltg stl ltl tg tl net cb pr txs) := r in
  if PrimFloat.ltb 0 gainLoss then
    if isLong
    then GainLossCalculation.mk stg (PrimFloat.add ltg gainLoss) stl ltl
           (PrimFloat.add tg gainLoss) tl net cb pr txs
    else GainLossCalculation.mk (PrimFloat.add stg gainLoss) ltg stl ltl
           (PrimFloat.add tg gainLoss) tl net cb pr txs
  else
    if isLong
    then GainLossCalculation.mk stg ltg stl (PrimFloat.add ltl (Math_abs gainLoss)) tg
           (PrimFloat.add tl (Math_abs gainLoss)) net cb pr txs
    else GainLossCalculation.mk stg ltg (PrimFloat.add stl (Math_abs gainLoss)) ltl tg
           (PrimFloat.add tl (Math_abs gainLoss)) net cb pr txs.

(** Lines 1544-1554: [result.transactions.push({...})]. *)
Definition pushDetail (d : Detail.t)
    (r : GainLossCalculation.t) : GainLossCalculation.t :=
  let '(GainLossCalculation.mk stg ltg stl ltl tg tl net cb pr txs) := r in
  GainLossCalculation.mk stg ltg stl ltl tg tl net cb pr (txs ++ [d]).

(** Lines 1514-1522 and 1544-1554: the record one iteration pushes for
    the lot [lot]. *)
Definition detailOf (transaction : Transaction.t) (lot : TaxLot.t)
    (remaining : float) : Detail.t :=
  let lotAmount := Math_min remaining (TaxLot.amount lot) in
  let lotCostBasis :=
    PrimFloat.mul (PrimFloat.div (TaxLot.costBasis lot) (TaxLot.amount lot)) lotAmount in
  let lotProceeds :=
    PrimFloat.mul
      (PrimFloat.div (Transaction.totalUsd transaction) (Transaction.amount transaction))
      lotAmount in
  let gainLoss := PrimFloat.sub lotProceeds lotCostBasis in
  let isLong := isLongTerm (Transaction.timestamp transaction) (TaxLot.acquiredAt lot) in
  Detail.mk (Transaction.id transaction) (Transaction.type transaction)
    lotAmount lotProceeds lotCostBasis gainLoss (termOf isLong)
    (Transaction.symbol transaction) (Transaction.timestamp transaction).

(** Line 1512: [remainingAmount > 0 && availableLots.length > 0]. *)
Definition sell_cond (s : SellState) : bool :=
  PrimFloat.ltb 0 (remainingAmount s) &&
  bool_decide (0 < length (availableLots (outer s)))%nat.

(** Lines 1513-1565: one iteration of the loop.  The first branch is
    never taken under [sell_cond]. *)
Definition sell_body (transaction : Transaction.t) (s : SellState) : SellState :=
  match availableLots (outer s) with
  | [] => s
  | ref :: rest =>
      let lot := heap (outer s) !!! ref in
      let d := detailOf transaction lot (remainingAmount s) in
      let lotAmount := Detail.amount d in
      let lotCostBasis := Detail.costBasis d in
      let isLong := isLongTerm (Transaction.timestamp transaction) (TaxLot.acquiredAt lot) in
      let result' := pushDetail d (updateTotals (Detail.gainLoss d) isLong (result (outer s))) in
      let outer' :=
        if PrimFloat.eqb lotAmount (TaxLot.amount lot)
        then mkState (heap (outer s)) rest result'
        else mkState (<[ref := TaxLot.consume lot lotAmount lotCostBasis]> (heap (outer s)))
                     (ref :: rest) result' in
      mkSell outer' (PrimFloat.sub (remainingAmount s) lotAmount)
        (PrimFloat.add (totalCostBasis s) lotCostBasis)
  end.

(** The loop of lines 1512-1566.  One iteration per lot in the queue is
    enough fuel on doubles too: see [double_loop_exits]. *)
Definition sell_loop (transaction : Transaction.t) (s : SellState) : SellState :=
  while (length (availableLots (outer s))) sell_cond (sell_body transaction) s.

(** Lines 1497-1505: the lot a BUY opens, a fresh object. *)
Definition newLot (transaction : Transaction.t) : TaxLot.t :=
  TaxLot.mk ("lot-" +:+ Transaction.id transaction)
    (Transaction.amount transaction) (Transaction.totalUsd transaction)
    (Transaction.timestamp transaction) false transaction.

(** Lines 1568-1569. *)
Definition addSale (totalCostBasis totalProceeds : float)
    (r : GainLossCalculation.t) : GainLossCalculation.t :=
  let '(GainLossCalculation.mk stg ltg stl ltl tg tl net cb pr txs) := r in
  GainLossCalculation.mk stg ltg stl ltl tg tl net
    (PrimFloat.add cb totalCostBasis) (PrimFloat.add pr totalProceeds) txs.

(** Lines 1495-1570: the body of the [for] loop. *)
Definition process (s : State) (transaction : Transaction.t) : State :=
  if decide (Transaction.type transaction = "BUY") then
    mkState (heap s ++ [newLot transaction])
            (availableLots s ++ [length (heap s)])
            (result s)
  else if decide (Transaction.type transaction = "SELL") then
    let totalProceeds := Transaction.totalUsd transaction in
    let s' := sell_loop transaction
                (mkSell s (Transaction.amount transaction) PrimFloat.zero) in
    mkState (heap (outer s')) (availableLots (outer s'))
            (addSale (totalCostBasis s') totalProceeds (result (outer s')))
  else s.

(** Line 1574. *)
Definition setNet (r : GainLossCalculation.t) : GainLossCalculation.t :=
  let '(GainLossCalculation.mk stg ltg stl ltl tg tl net cb pr txs) := r in
  GainLossCalculation.mk stg ltg stl ltl tg tl (PrimFloat.sub tg tl) cb pr txs.

(** The whole function body, keeping the final store and queue. *)
Definition run (transactions : list Transaction.t) (previousTaxLots : list nat)
    (h : list TaxLot.t) : State :=
  let s := foldl process
             (mkState h previousTaxLots GainLossCalculation.initial)
             transactions in
  mkState (heap s) (availableLots s) (setNet (result s)).

(** [calculateGainsLosses]: the promise it returns and the store it
    leaves.  [yearStart] and [yearEnd] are parameters it never reads. *)
Definition calculateGainsLosses (transactions : list Transaction.t)
    (previousTaxLots : list nat) (yearStart yearEnd : Z)
    (h : list TaxLot.t) : Promise GainLossCalculation.t * list TaxLot.t :=
  let s := run transactions previousTaxLots h in
  (Resolved (result s), heap s).

(** *** Vocabulary of the statements on doubles *)

(** The sum of a list as a loop adds it up: from 0, left to right, each
    addition rounded. *)
Definition sum (l : list float) : float := foldl PrimFloat.add PrimFloat.zero l.

(** The detail records of a state. *)
Definition details (s : State) : list Detail.t :=
  GainLossCalculation.transactions (result s).

(** Lines 1527-1554 for the record [d]: the totals updated, the record
    pushed. *)
Definition record (r : GainLossCalculation.t) (d : Detail.t) : GainLossCalculation.t :=
  pushDetail d (updateTotals (Detail.gainLoss d) (bool_decide (Detail.term d = long)) r).

(** The records the event [tx] adds to those of [s]. *)
Definition newDetails (s : State) (tx : Transaction.t) : list Detail.t :=
  drop (length (details s)) (details (process s tx)).

(** The records of a run from [s], one group per SELL event. *)
Fixpoint saleGroups (s : State) (transactions : list Transaction.t)
    : list (list Detail.t) :=
  match transactions with
  | [] => []
  | tx :: rest =>
      (if decide (Transaction.type tx = "SELL") then [newDetails s tx] else [])
      ++ saleGroups (process s tx) rest
  end.

(** What is left of a disposal when its loop exits. *)
Definition unmatched (s : State) (tx : Transaction.t) : float :=
  remainingAmount
    (sell_loop tx (mkSell s (Transaction.amount tx) PrimFloat.zero)).

(** The (term, sign) classes of a record; a gain is a [gainLoss > 0],
    anything else, [NaN] included, counts as a loss. *)
Definition isGain (d : Detail.t) : Prop := PrimFloat.ltb 0 (Detail.gainLoss d) = true.
Definition inBucket (t : Term) (gain : bool) (d : Detail.t) : Prop :=
  Detail.term d = t ∧ PrimFloat.ltb 0 (Detail.gainLoss d) = gain.

Global Instance isGain_dec d : Decision (isGain d).
Proof. unfold isGain. apply _. Defined.
Global Instance inBucket_dec t gain d : Decision (inBucket t gain d).
Proof. unfold inBucket. apply _. Defined.

(** The totals of a result object are the sums, in the order of the
    records, of the gains (or of the magnitudes of the losses) of their
    class. *)
Definition bucketSum (t : Term) (gain : bool) (f : Detail.t → float)
    (ds : list Detail.t) : float :=
  sum (f <$> filter (inBucket t gain) ds).
Definition totals_in_order (r : GainLossCalculation.t) : Prop :=
  let ds := GainLossCalculation.transactions r in
  GainLossCalculation.shortTermGains r = bucketSum short true Detail.gainLoss ds ∧
  GainLossCalculation.longTermGains r = bucketSum long true Detail.gainLoss ds ∧
  GainLossCalculation.shortTermLosses r =
    bucketSum short false (λ d, Math_abs (Detail.gainLoss d)) ds ∧
  GainLossCalculation.longTermLosses r =
    bucketSum long false (λ d, Math_abs (Detail.gainLoss d)) ds ∧
  GainLossCalculation.totalGains r = sum (Detail.gainLoss <$> filter isGain ds) ∧
  GainLossCalculation.totalLosses r =
    sum ((λ d, Math_abs (Detail.gainLoss d)) <$> filter (λ d, ¬ isGain d) ds).

(** At least three of the four buckets are the same in [r] and [r']. *)
Definition oneBucketAtMost (r r' : GainLossCalculation.t) : Prop :=
  let unchanged (f : GainLossCalculation.t → float) := f r' = f r in
  (unchanged GainLossCalculation.longTermGains ∧
   unchanged GainLossCalculation.shortTermLosses ∧
   unchanged GainLossCalculation.longTermLosses) ∨
  (unchanged GainLossCalculation.shortTermGains ∧
   unchanged GainLossCalculation.shortTermLosses ∧
   unchanged GainLossCalculation.longTermLosses) ∨
  (unchanged GainLossCalculation.shortTermGains ∧
   unchanged GainLossCalculation.longTermGains ∧
   unchanged GainLossCalculation.longTermLosses) ∨
  (unchanged GainLossCalculation.shortTermGains ∧
   unchanged GainLossCalculation.longTermGains ∧
   unchanged GainLossCalculation.shortTermLosses).

(** The record [d] is the whole of the lot [lot]: [lotAmount ===
    lot.amount] at line 1557. *)
Definition wholeLot (transaction : Transaction.t) (lot : TaxLot.t) (d : Detail.t) : Prop :=
  (∃ remaining, d = detailOf transaction lot remaining) ∧
  PrimFloat.eqb (Detail.amount d) (TaxLot.amount lot) = true.

(** The record [d] is a part of the lot [lot]. *)
Definition partOfLot (transaction : Transaction.t) (lot : TaxLot.t) (d : Detail.t) : Prop :=
  (∃ remaining, d = detailOf transaction lot remaining) ∧
  PrimFloat.eqb (Detail.amount d) (TaxLot.amount lot) = false.

(** The fields of a lot that no statement of the function assigns. *)
Definition sameIdentity (lot lot' : TaxLot.t) : Prop :=
  TaxLot.id lot' = TaxLot.id lot ∧
  TaxLot.acquiredAt lot' = TaxLot.acquiredAt lot ∧
  TaxLot.isClosed lot' = TaxLot.isClosed lot ∧
  TaxLot.transaction lot' = TaxLot.transaction lot.

(** An event of [amount] units for [totalUsd] dollars on day [day], and
    a lot carried over from an earlier year. *)
Definition event (id type : string) (amount totalUsd : float) (day : Z) (symbol : string)
    : Transaction.t :=
  Transaction.mk id type amount totalUsd (days day) symbol.
Definition carried (id : string) (amount costBasis : float) (day : Z) (symbol : string)
    : TaxLot.t :=
  TaxLot.mk ("lot-" +:+ id) amount costBasis (days day) false
    (event id "BUY" amount costBasis day symbol).

(** The rational a finite double stands for ([0] for the others). *)
Definition exact (x : float) : Q :=
  match Prim2SF x with
  | S754_finite sign m e =>
      (inject_Z (if sign then Zneg m else Zpos m) * Qpower (2 # 1) e)%Q
  | _ => 0%Q
  end.

(** The sum of a list without rounding. *)
Definition exactSum (l : list float) : Q := foldr Qplus 0%Q (exact <$> l).

(** *** Concrete inputs *)

(** Six units held, ten sold. *)
Definition sixUnits : list TaxLot.t := [carried "t0" 6 60 0 "BTC"].
Definition sellTen : Transaction.t := event "t1" "SELL" 10 1000 30 "BTC".
Definition sixUnitsState : State := mkState sixUnits [0%nat] GainLossCalculation.initial.

(** A BTC lot in the queue when ETH is sold. *)
Definition btcLot : list TaxLot.t := [carried "t0" 5 100 0 "BTC"].
Definition sellEth : Transaction.t := event "t1" "SELL" 3 90 10 "ETH".

(** Lots of 0.1, 0.3 and 0.9 units, of which 1.3 are sold: the
    remainders 1.3 - 0.1 - 0.3 round to 0.8999999999999999. *)
Definition tenths : list TaxLot.t :=
  [carried "a" 0.1 1 0 "BTC"; carried "b" 0.3 3 0 "BTC"; carried "c" 0.9 9 0 "BTC"].
Definition tenthsState : State :=
  mkState tenths [0%nat; 1%nat; 2%nat] GainLossCalculation.initial.
Definition sellTenths : Transaction.t := event "s" "SELL" 1.3 130 10 "BTC".

(** Three purchases and two sales whose cost bases do not add up
    exactly. *)
Definition thirds : list Transaction.t :=
  [event "b1" "BUY" 0.1 10 0 "BTC"; event "b2" "BUY" 0.2 30 1 "BTC";
   event "b3" "BUY" 0.3 10 2 "BTC"; event "s1" "SELL" 0.3 100 3 "BTC";
   event "s2" "SELL" 0.2 100 4 "BTC"].

(** Three purchases and two sales, each sale matched in full, whose
    gains and losses cancel. *)
Definition cancelling : list Transaction.t :=
  [event "b1" "BUY" 0.1 10 0 "BTC"; event "b2" "BUY" 0.1 30 1 "BTC";
   event "b3" "BUY" 0.3 100 2 "BTC"; event "s1" "SELL" 0.3 40 3 "BTC";
   event "s2" "SELL" 0.2 100 4 "BTC"].

End Double.

(** * Portfolio analytics

    [calculatePortfolioAnalytics] (same file, lines 248-397).

    Further conventions.  [assetHoldings] is a JavaScript object used as
    a map from symbol to holding; it is modelled by the list of its
    holdings in insertion order, the order in which [for ... in]
    visits the keys, provided no symbol is an array index (a string of
    digits, which JavaScript visits first).  A symbol that names a member
    of [Object.prototype] finds that member instead of a holding, and
    the [push] on its missing [transactions] throws a [TypeError].
    [Math.random] is the sequence [random] of its successive draws, and
    the [date] of a history point is kept as the [Date] it is printed
    from, in milliseconds; [startDate] and [endDate] are valid dates,
    and a date the loop builds beyond the range of [Date] makes
    [toISOString] throw a [RangeError].  Numbers are exact rationals
    here: only what does not depend on rounding is stated of them. *)

Module PortfolioTx.
(** The fields of a transaction row the analytics read. *)
Record t : Type := mk {
  symbol : string;
  name : string;
  type : string;
  amount : Qc;
  totalUsd : Qc
}.
End PortfolioTx.

Module Holding.
Record t : Type := mk {
  symbol : string;
  name : string;
  amount : Qc;
  totalCost : Qc;
  transactions : list PortfolioTx.t
}.
End Holding.

Module Asset.
(** One element of [assetDistribution]. *)
Record t : Type := mk {
  symbol : string;
  name : string;
  value : Qc;
  percentage : Qc;
  amount : Qc;
  averagePrice : Qc
}.
End Asset.

Module HistoryPoint.
Record t : Type := mk {
  date : Z;
  value : Qc;
  change : Qc;
  changePercentage : Qc
}.
End HistoryPoint.

Module Gainer.
Record t : Type := mk {
  symbol : string;
  name : string;
  gain : Qc;
  gainPercentage : Qc
}.
End Gainer.

Module Loser.
Record t : Type := mk {
  symbol : string;
  name : string;
  loss : Qc;
  lossPercentage : Qc
}.
End Loser.

Module TransactionSummary.
Record t : Type := mk {
  totalTransactions : nat;
  buys : nat;
  sells : nat;
  transfers : nat;
  totalVolume : Qc
}.
End TransactionSummary.

(** interface PortfolioAnalytics *)
Module PortfolioAnalytics.
Record t : Type := mk {
  totalValue : Qc;
  totalGainLoss : Qc;
  totalGainLossPercentage : Qc;
  periodChange : Qc;
  periodChangePercentage : Qc;
  assetDistribution : list Asset.t;
  performanceHistory : list HistoryPoint.t;
  topGainers : list Gainer.t;
  topLosers : list Loser.t;
  transactionSummary : TransactionSummary.t
}.
End PortfolioAnalytics.

(** How an [async] function ends when it can throw. *)
Inductive Thrown : Type := TypeError | RangeError.
Inductive Settled (A : Type) : Type :=
  | Fulfilled (value : A)
  | Threw (error : Thrown).
Arguments Fulfilled {A} value.
Arguments Threw {A} error.

(** The own property names of [Object.prototype]. *)
Definition objectPrototypeNames : list string :=
  ["constructor"; "__defineGetter__"; "__defineSetter__"; "hasOwnProperty";
   "__lookupGetter__"; "__lookupSetter__"; "isPrototypeOf"; "propertyIsEnumerable";
   "toString"; "valueOf"; "__proto__"; "toLocaleString"].

(** [assetHoldings[symbol]], for a symbol that is not one of the above. *)
Definition getHolding (symbol : string) (assetHoldings : list Holding.t)
    : option Holding.t :=
  head (filter (λ h, Holding.symbol h = symbol) assetHoldings).

(** Lines 272-280: the update of the holding found. *)
Definition updateHolding (transaction : PortfolioTx.t) (holding : Holding.t) : Holding.t :=
  let '(Holding.mk symbol name amount totalCost transactions) := holding in
  if decide (PortfolioTx.type transaction = "BUY") then
    Holding.mk symbol name (amount + PortfolioTx.amount transaction)
      (totalCost + PortfolioTx.totalUsd transaction) (transactions ++ [transaction])
  else if decide (PortfolioTx.type transaction = "SELL") then
    Holding.mk symbol name (amount - PortfolioTx.amount transaction)
      (totalCost - PortfolioTx.totalUsd transaction) (transactions ++ [transaction])
  else Holding.mk symbol name amount totalCost (transactions ++ [transaction]).

(** Lines 256-281: one call of the [forEach] callback. *)
Definition addToHoldings (assetHoldings : list Holding.t) (transaction : PortfolioTx.t)
    : list Holding.t :=
  let symbol := PortfolioTx.symbol transaction in
  let assetHoldings' :=
    match getHolding symbol assetHoldings with
    | None => assetHoldings ++ [Holding.mk symbol (PortfolioTx.name transaction) 0 0 []]
    | Some _ => assetHoldings
    end in
  (λ h, if decide (Holding.symbol h = symbol) then updateHolding transaction h else h)
    <$> assetHoldings'.

(** Lines 284-293. *)
Definition mockPrices : list (string * Qc) :=
  [("BTC", Qc_of_Z 45000); ("ETH", Qc_of_Z 3200); ("ADA", Q2Qc (85 # 100));
   ("DOT", Q2Qc (75 # 10)); ("SOL", Qc_of_Z 120); ("MATIC", Q2Qc (95 # 100));
   ("LINK", Q2Qc (155 # 10)); ("UNI", Q2Qc (82 # 10))].

(** [mockPrices[symbol] || 1] *)
Definition currentPriceOf (symbol : string) : Qc :=
  match head (filter (λ p, p.1 = symbol) mockPrices) with
  | Some (_, price) => if decide (price = 0) then 1 else price
  | None => 1
  end.

(** Lines 295-317: totals and unsorted distribution, as the loop leaves
    them. *)
Definition distributionStep (acc : Qc * Qc * list Asset.t) (holding : Holding.t)
    : Qc * Qc * list Asset.t :=
  let '(totalValue, totalCost, assetDistribution) := acc in
  let currentPrice := currentPriceOf (Holding.symbol holding) in
  let currentValue := Holding.amount holding * currentPrice in
  if decide (0 < Holding.amount holding) then
    (totalValue + currentValue, totalCost + Holding.totalCost holding,
     assetDistribution ++
       [Asset.mk (Holding.symbol holding) (Holding.name holding) currentValue 0
          (Holding.amount holding)
          (Holding.totalCost holding / Holding.amount holding)])
  else acc.

(** Lines 320-322. *)
Definition setPercentage (totalValue : Qc) (asset : Asset.t) : Asset.t :=
  let '(Asset.mk symbol name value _ amount averagePrice) := asset in
  Asset.mk symbol name value
    (if decide (0 < totalValue) then value / totalValue * Qc_of_Z 100 else 0)
    amount averagePrice.

(** [Array.prototype.sort] with the comparator [(a, b) => key b - key a]:
    the stable sort by decreasing key. *)
Fixpoint insertDescending {A : Type} (key : A → Qc) (x : A) (l : list A) : list A :=
  match l with
  | [] => [x]
  | y :: l' => if decide (key x < key y) then y :: insertDescending key x l'
               else x :: y :: l'
  end.
Definition sortDescending {A : Type} (key : A → Qc) (l : list A) : list A :=
  foldr (insertDescending key) [] l.

(** [Math.ceil] of a quotient of integers, the divisor positive. *)
Definition ceilDiv (a b : Z) : Z := (- ((- a) / b))%Z.

(** Lines 336-351: the mock history; [random i] is the draw of the
    iteration [i]. *)
Fixpoint historyFrom (random : nat → Qc) (startDate : Z) (i count : nat)
    (runningValue : Qc) : list HistoryPoint.t :=
  match count with
  | O => []
  | Datatypes.S count' =>
      let change := runningValue * (random i * Q2Qc (1 # 10) - Q2Qc (5 # 100)) in
      let runningValue' := runningValue + change in
      HistoryPoint.mk (startDate + Z.of_nat i * 24 * 60 * 60 * 1000)%Z runningValue' change
        (change / (runningValue' - change) * Qc_of_Z 100)
      :: historyFrom random startDate (Datatypes.S i) count' runningValue'
  end.

Definition performanceHistoryOf (random : nat → Qc) (startDate endDate : Z)
    (totalValue : Qc) : list HistoryPoint.t :=
  let days := ceilDiv (endDate - startDate) msPerDay in
  historyFrom random startDate 0 (Z.to_nat (Z.min days 30 + 1))
    (totalValue * Q2Qc (8 # 10)).

(** Lines 354-363 and 365-374. *)
Definition topGainersOf (assetDistribution : list Asset.t) : list Gainer.t :=
  take 5
    (sortDescending Gainer.gain
       ((λ asset,
           Gainer.mk (Asset.symbol asset) (Asset.name asset)
             (Asset.value asset - Asset.averagePrice asset * Asset.amount asset)
             ((Asset.value asset - Asset.averagePrice asset * Asset.amount asset) /
                (Asset.averagePrice asset * Asset.amount asset) * Qc_of_Z 100))
        <$> filter (λ asset, Asset.averagePrice asset * Asset.amount asset < Asset.value asset)
              assetDistribution)).

Definition topLosersOf (assetDistribution : list Asset.t) : list Loser.t :=
  take 5
    (sortDescending Loser.loss
       ((λ asset,
           Loser.mk (Asset.symbol asset) (Asset.name asset)
             (Asset.averagePrice asset * Asset.amount asset - Asset.value asset)
             ((Asset.averagePrice asset * Asset.amount asset - Asset.value asset) /
                (Asset.averagePrice asset * Asset.amount asset) * Qc_of_Z 100))
        <$> filter (λ asset, Asset.value asset < Asset.averagePrice asset * Asset.amount asset)
              assetDistribution)).

(** [haystack.includes(needle)] *)
Fixpoint includes (needle haystack : string) : bool :=
  String.prefix needle haystack ||
  match haystack with
  | EmptyString => false
  | String _ rest => includes needle rest
  end.

(** Lines 377-383. *)
Definition transactionSummaryOf (transactions : list PortfolioTx.t) : TransactionSummary.t :=
  TransactionSummary.mk
    (length transactions)
    (length (filter (λ t, PortfolioTx.type t = "BUY") transactions))
    (length (filter (λ t, PortfolioTx.type t = "SELL") transactions))
    (length (filter (λ t, includes "TRANSFER" (PortfolioTx.type t) = true) transactions))
    (foldl (λ sum t, sum + PortfolioTx.totalUsd t) 0 transactions).

(** The holdings after the [forEach] of lines 256-281. *)
Definition assetHoldingsOf (transactions : list PortfolioTx.t) : list Holding.t :=
  foldl addToHoldings [] transactions.

(** The largest time value of a [Date], 8.64e15 ms: beyond it
    [new Date(...)] is invalid and its [toISOString] throws a
    [RangeError]. *)
Definition maxTime : Z := 8640000000000000.

(** Lines 340-341: the time values of the dates the loop builds. *)
Definition historyTimes (startDate endDate : Z) : list Z :=
  (λ i, startDate + Z.of_nat i * 24 * 60 * 60 * 1000)%Z <$>
    seq 0 (Z.to_nat (Z.min (ceilDiv (endDate - startDate) msPerDay) 30 + 1)).

(** [calculatePortfolioAnalytics] *)
Definition calculatePortfolioAnalytics (random : nat → Qc)
    (transactions : list PortfolioTx.t) (startDate endDate : Z)
    : Settled PortfolioAnalytics.t :=
  if decide (Exists (λ t, PortfolioTx.symbol t ∈ objectPrototypeNames) transactions)
  then Threw TypeError
  else if decide (Exists (λ time, (maxTime < Z.abs time)%Z) (historyTimes startDate endDate))
  then Threw RangeError
  else
    let assetHoldings := assetHoldingsOf transactions in
    let '(totalValue, totalCost, unsorted) :=
      foldl distributionStep (0, 0, []) assetHoldings in
    let assetDistribution :=
      sortDescending Asset.value (setPercentage totalValue <$> unsorted) in
    let totalGainLoss := totalValue - totalCost in
    let totalGainLossPercentage :=
      if decide (0 < totalCost) then totalGainLoss / totalCost * Qc_of_Z 100 else 0 in
    Fulfilled
      (PortfolioAnalytics.mk totalValue totalGainLoss totalGainLossPercentage
         (totalValue * Q2Qc (5 # 100)) (Qc_of_Z 5)
         assetDistribution
         (performanceHistoryOf random startDate endDate totalValue)
         (topGainersOf assetDistribution)
         (topLosersOf assetDistribution)
         (transactionSummaryOf transactions)).

(** No symbol of the transactions names a member of [Object.prototype]
    or is made of digits only, so that the holdings are visited in
    insertion order. *)
Fixpoint allDigits (s : string) : bool :=
  match s with
  | EmptyString => true
  | String c rest =>
      (48 <=? Ascii.nat_of_ascii c)%nat && (Ascii.nat_of_ascii c <=? 57)%nat &&
      allDigits rest
  end.
Definition plainSymbols (transactions : list PortfolioTx.t) : Prop :=
  Forall (λ t, (PortfolioTx.symbol t ∉ objectPrototypeNames) ∧
               allDigits (PortfolioTx.symbol t) = false) transactions.

(** Net units of a symbol: bought less sold. *)
Definition netAmount (symbol : string) (transactions : list PortfolioTx.t) : Qc :=
  sumQc ((λ t, if decide (PortfolioTx.type t = "BUY") then PortfolioTx.amount t
               else if decide (PortfolioTx.type t = "SELL") then - PortfolioTx.amount t
               else 0)
         <$> filter (λ t, PortfolioTx.symbol t = symbol) transactions).

(** Net cost of a symbol: paid less received. *)
Definition netCost (symbol : string) (transactions : list PortfolioTx.t) : Qc :=
  sumQc ((λ t, if decide (PortfolioTx.type t = "BUY") then PortfolioTx.totalUsd t
               else if decide (PortfolioTx.type t = "SELL") then - PortfolioTx.totalUsd t
               else 0)
         <$> filter (λ t, PortfolioTx.symbol t = symbol) transactions).

(** Decreasing order of a key. *)
Definition descending {A : Type} (key : A → Qc) (l : list A) : Prop :=
  StronglySorted (λ a b, key b ≤ key a) l.

(** A few transactions of a portfolio. *)
Definition portfolioTx (symbol type : string) (amount totalUsd : Z) : PortfolioTx.t :=
  PortfolioTx.mk symbol (symbol +:+ " coin") type (Qc_of_Z amount) (Qc_of_Z totalUsd).
Definition portfolio : list PortfolioTx.t :=
  [portfolioTx "BTC" "BUY" 2 60000; portfolioTx "ETH" "BUY" 10 40000;
   portfolioTx "BTC" "SELL" 1 50000; portfolioTx "XYZ" "BUY" 100 50;
   portfolioTx "ETH" "TRANSFER_OUT" 3 0; portfolioTx "DOGE" "SELL" 5 10].
Definition halves : nat → Qc := λ _, Q2Qc (1 # 2).

(** The analytics of [portfolio] over three days. *)
Definition emptyAnalytics : PortfolioAnalytics.t :=
  PortfolioAnalytics.mk 0 0 0 0 0 [] [] [] [] (TransactionSummary.mk 0 0 0 0 0).
Definition portfolioAnalytics : PortfolioAnalytics.t :=
  match calculatePortfolioAnalytics halves portfolio 0 (3 * msPerDay) with
  | Fulfilled a => a
  | Threw _ => emptyAnalytics
  end.

(** * Import of transactions

    [parseCSV] and [mapCSVRowToTransaction] of the import route (same
    file, lines 568-594 and 617-689).

    Further conventions.  The string primitives of the host
    ([parseFloat], [isNaN], [toUpperCase], [toLowerCase], [trim]) are
    left open, gathered in a [Host]; [number] is whatever [parseFloat]
    returns.  A cell of a row is [Some] string, or [None] for
    [undefined]; [platform] is a string, as its type says, so that no
    call throws and the [try] blocks never reach their [catch].  The
    keys read from a row and from a mapping are not members of
    [Object.prototype], which is taken to be as the language defines
    it.  A string is the sequence of the bytes of its UTF-8 form:
    splitting at a comma or at a line feed and removing a quote give
    the same pieces on bytes as on UTF-16 code units. *)

Record Host : Type := {
  number : Type;
  parseFloat : string → number;
  isNaN : number → bool;
  toUpperCase : string → string;
  toLowerCase : string → string;
  trim : string → string
}.

(** interface ParsedTransaction; [description] is never set. *)
Module ParsedTransaction.
Record t (number : Type) : Type := mk {
  date : string;
  type : string;
  asset : string;
  amount : number;
  price : number;
  total : number;
  fee : option number;
  txHash : option string;
  exchange : string
}.
Arguments mk {number}.
Arguments date {number}.
Arguments type {number}.
Arguments asset {number}.
Arguments amount {number}.
Arguments price {number}.
Arguments total {number}.
Arguments fee {number}.
Arguments txHash {number}.
Arguments exchange {number}.
End ParsedTransaction.

(** One entry of [mappings]: the column each field is read from; [None]
    where the object has no such property. *)
Module Mapping.
Record t : Type := mk {
  date : option string;
  type : option string;
  asset : option string;
  amount : option string;
  price : option string;
  total : option string;
  fee : option string;
  txHash : option string
}.
End Mapping.

(** [a || b] on string literals. *)
Definition orLiteral (a b : string) : string := if decide (a = "") then b else a.

(** Lines 620-651. *)
Definition coinbase : Mapping.t :=
  Mapping.mk (Some "timestamp") (Some "type") (Some "asset") (Some "quantity")
    (Some "price") (Some "total") (Some "fees") (Some "transaction_id").
Definition binance : Mapping.t :=
  Mapping.mk (Some "date") (Some "type") (Some "coin") (Some "amount")
    (Some "price") (Some "total") (Some "fee") (Some "tx_id").
Definition generic : Mapping.t :=
  Mapping.mk (Some "date") (Some "type") (Some (orLiteral "asset" "symbol"))
    (Some (orLiteral "amount" "quantity")) (Some "price") (Some "total") (Some "fee")
    (Some (orLiteral "tx_hash" "transaction_id")).

(** A member of [Object.prototype] found in place of a mapping: it has
    none of the eight properties. *)
Definition inherited : Mapping.t :=
  Mapping.mk None None None None None None None None.

(** [mappings[key]] *)
Definition mappings (key : string) : option Mapping.t :=
  if decide (key = "coinbase") then Some coinbase
  else if decide (key = "binance") then Some binance
  else if decide (key = "generic") then Some generic
  else if decide (key ∈ objectPrototypeNames) then Some inherited
  else None.

(** A row: the object [parseCSV] fills, from column name to cell. *)
Definition Row : Type := gmap string (option string).

(** [row[key]], for a key that is not a member of [Object.prototype]
    (the keys [mapRow] reads are none of them: they are the column names
    of lines 620-662); the key [undefined] reads the property named so. *)
Definition cell (row : Row) (key : option string) : option string :=
  row !! default "undefined" key ≫= id.

(** [a || b] on cells: the empty string and [undefined] are falsy. *)
Definition falsy (a : option string) : Prop := a = None ∨ a = Some "".
Definition orCell (a b : option string) : option string :=
  match a with
  | Some s => if decide (s = "") then b else a
  | None => b
  end.

(** The string [parseFloat] is given. *)
Definition toString (a : option string) : string := default "undefined" a.

(** Lines 670-672. *)
Definition normalize (type : string) : string :=
  let normalizedType := type in
  let normalizedType := if decide (normalizedType = "SENT") then "SELL" else normalizedType in
  let normalizedType := if decide (normalizedType = "RECEIVED") then "BUY" else normalizedType in
  if decide (normalizedType = "INCOME") then "BUY" else normalizedType.

(** Lines 655-684: the row read through the mapping chosen; [None] is
    [null]. *)
Definition mapRow (host : Host) (mapping : Mapping.t) (row : Row) (platform : string)
    : option (ParsedTransaction.t (number host)) :=
  let date := orCell (cell row (Mapping.date mapping)) (cell row (Some "date")) in
  let type := orCell (cell row (Mapping.type mapping)) (cell row (Some "type")) in
  let asset :=
    orCell (orCell (cell row (Mapping.asset mapping)) (cell row (Some "asset")))
      (cell row (Some "symbol")) in
  let amount :=
    parseFloat host
      (toString (orCell (orCell (cell row (Mapping.amount mapping)) (cell row (Some "amount")))
                   (cell row (Some "quantity")))) in
  let price :=
    parseFloat host
      (toString (orCell (cell row (Mapping.price mapping)) (cell row (Some "price")))) in
  let total :=
    parseFloat host
      (toString (orCell (cell row (Mapping.total mapping)) (cell row (Some "total")))) in
  let fee :=
    if decide (falsy (orCell (cell row (Mapping.fee mapping)) (cell row (Some "fee"))))
    then None
    else Some (parseFloat host
                 (toString (orCell (cell row (Mapping.fee mapping)) (cell row (Some "fee"))))) in
  let txHash :=
    orCell (orCell (cell row (Mapping.txHash mapping)) (cell row (Some "tx_hash")))
      (cell row (Some "transaction_id")) in
  if decide (falsy date ∨ falsy type ∨ falsy asset) then None
  else if isNaN host amount || isNaN host price || isNaN host total then None
  else
    Some (ParsedTransaction.mk (toString date) (normalize (toUpperCase host (toString type)))
            (toString asset) amount price total fee txHash platform).

(** [mapCSVRowToTransaction]; line 653 chooses the mapping. *)
Definition mapCSVRowToTransaction (host : Host) (row : Row) (platform : string)
    : option (ParsedTransaction.t (number host)) :=
  let mapping := default generic (mappings (toLowerCase host platform)) in
  mapRow host mapping row platform.

(** The characters of ['\n'] and [','], by their codes. *)
Definition newline : Ascii.ascii := Ascii.ascii_of_nat 10.
Definition comma : Ascii.ascii := Ascii.ascii_of_nat 44.

(** [s.split(separator)], the separator one character. *)
Fixpoint split (separator : Ascii.ascii) (s : string) : list string :=
  match s with
  | EmptyString => [""]
  | String c rest =>
      if decide (c = separator) then "" :: split separator rest
      else match split separator rest with
           | piece :: pieces => String c piece :: pieces
           | [] => [String c ""]
           end
  end.

(** [v.replace] with the pattern of line 577, which matches a quote at
    the start and a quote at the end: both are removed. *)
Definition quote : Ascii.ascii := Ascii.ascii_of_nat 34.
Fixpoint dropLastQuote (s : string) : string :=
  match s with
  | EmptyString => EmptyString
  | String c EmptyString => if decide (c = quote) then EmptyString else s
  | String c rest => String c (dropLastQuote rest)
  end.
Definition stripQuotes (s : string) : string :=
  match s with
  | String c rest => if decide (c = quote) then dropLastQuote rest else dropLastQuote s
  | EmptyString => EmptyString
  end.

(** [row[header] = value]; the assignment to [__proto__] of a string or
    of [undefined] sets nothing. *)
Definition setCell (row : Row) (header : string) (value : option string) : Row :=
  if decide (header = "__proto__") then row else <[header := value]> row.

(** Lines 580-582: [headers.forEach((header, index) => ...)]. *)
Fixpoint fillRow (headers : list string) (index : nat) (values : list string) (row : Row)
    : Row :=
  match headers with
  | [] => row
  | header :: headers' =>
      fillRow headers' (Datatypes.S index) values (setCell row header (values !! index))
  end.

(** Line 569: the lines that are not blank. *)
Definition linesOf (host : Host) (csvData : string) : list string :=
  filter (λ line, trim host line ≠ "") (split newline csvData).

(** Lines 577-587: one turn of the loop, on the line [line]. *)
Definition parseLine (host : Host) (headers : list string) (platform : string)
    (line : string) : option (ParsedTransaction.t (number host)) :=
  let values := (λ v, stripQuotes (trim host v)) <$> split comma line in
  mapCSVRowToTransaction host (fillRow headers 0 values ∅) platform.

(** [parseCSV] *)
Definition parseCSV (host : Host) (csvData platform : string)
    : list (ParsedTransaction.t (number host)) :=
  let lines := linesOf host csvData in
  if decide (length lines < 2)%nat then []
  else
    let headers := (λ h, toLowerCase host (trim host h)) <$> split comma (lines !!! 0%nat) in
    omap (parseLine host headers platform) (drop 1 lines).

(** A host for the examples: case mapping and trimming of ASCII, and a
    [parseFloat] that reads a string of decimal digits and gives [NaN]
    ([None]) on anything else. *)
Definition isSpace (c : Ascii.ascii) : bool :=
  let n := Ascii.nat_of_ascii c in (n =? 32)%nat || ((9 <=? n)%nat && (n <=? 13)%nat).
Fixpoint trimStart (s : string) : string :=
  match s with
  | String c rest => if isSpace c then trimStart rest else s
  | EmptyString => EmptyString
  end.
Fixpoint trimEnd (s : string) : string :=
  match s with
  | String c rest =>
      match trimEnd rest with
      | EmptyString => if isSpace c then EmptyString else String c EmptyString
      | rest' => String c rest'
      end
  | EmptyString => EmptyString
  end.
Fixpoint mapString (f : Ascii.ascii → Ascii.ascii) (s : string) : string :=
  match s with
  | String c rest => String (f c) (mapString f rest)
  | EmptyString => EmptyString
  end.
Definition upper (c : Ascii.ascii) : Ascii.ascii :=
  let n := Ascii.nat_of_ascii c in
  if (97 <=? n)%nat && (n <=? 122)%nat then Ascii.ascii_of_nat (n - 32) else c.
Definition lower (c : Ascii.ascii) : Ascii.ascii :=
  let n := Ascii.nat_of_ascii c in
  if (65 <=? n)%nat && (n <=? 90)%nat then Ascii.ascii_of_nat (n + 32) else c.
Fixpoint digitsValue (s : string) (value : N) : N :=
  match s with
  | String c rest => digitsValue rest (10 * value + (Ascii.N_of_ascii c - 48))%N
  | EmptyString => value
  end.
Definition digitsHost : Host :=
  {| number := option N;
     parseFloat := λ s, if allDigits s && negb (String.eqb s "")
                        then Some (digitsValue s 0) else None;
     isNaN := λ n, match n with Some _ => false | None => true end;
     toUpperCase := mapString upper;
     toLowerCase := mapString lower;
     trim := λ s, trimEnd (trimStart s) |}.

(** A file of four lines in the generic columns, one of them not a
    transaction. *)
Definition exampleCsv : string :=
  "Date,Type,Asset,Amount,Price,Total" +:+ String newline "" +:+
  "2024-01-05, received ,BTC,2,30000,60000" +:+ String newline "" +:+
  "not,a,transaction" +:+ String newline "" +:+
  "2024-02-01,Sent,BTC,1,40000,40000".
Definition exampleRow : Row :=
  fillRow ["date"; "type"; "asset"; "amount"; "price"; "total"] 0
    ["2024-02-01"; "Sent"; "BTC"; "1"; "40000"; "40000"] ∅.

(** The last column of a header line that carries the name [key]. *)
Fixpoint lastIndexOf (key : string) (headers : list string) : option nat :=
  match headers with
  | [] => None
  | header :: headers' =>
      match lastIndexOf key headers' with
      | Some index => Some (Datatypes.S index)
      | None => if decide (header = key) then Some 0%nat else None
      end
  end.

(** The columns that only some platform reads first, and the key
    [undefined]. *)
Definition platformColumns : list string :=
  ["timestamp"; "quantity"; "fees"; "transaction_id"; "coin"; "tx_id"; "undefined"].

(** A parsed transaction, its [exchange] apart. *)
Definition withExchange {number : Type} (exchange : string)
    (t : ParsedTransaction.t number) : ParsedTransaction.t number :=
  ParsedTransaction.mk (ParsedTransaction.date t) (ParsedTransaction.type t)
    (ParsedTransaction.asset t) (ParsedTransaction.amount t) (ParsedTransaction.price t)
    (ParsedTransaction.total t) (ParsedTransaction.fee t) (ParsedTransaction.txHash t)
    exchange.

(** ** Basic facts about the operations *)

Lemma Math_min_l (x y : Qc) : x ≤ y → Math_min x y = x.
Proof. intros H. unfold Math_min. by rewrite decide_True. Qed.

Lemma Math_min_r (x y : Qc) : y ≤ x → Math_min x y = y.
Proof.
  intros H. unfold Math_min. destruct (decide (x ≤ y)) as [H'|H']; [|done].
  by apply Qcle_antisym.
Qed.

Lemma Qcminus_diag (x : Qc) : x - x = 0.
Proof. ring. Qed.

Lemma Qcminus_eq_0 (x y : Qc) : x - y = 0 → x = y.
Proof. intros H. rewrite <- (Qcplus_0_l y), <- H. ring. Qed.

Section Loop.
Context {S : Type} (cond : S → bool) (body : S → S).

Lemma while_cond_false fuel s : cond s = false → while fuel cond body s = s.
Proof. intros H. destruct fuel; simpl; [done|]. by rewrite H. Qed.

(** Once the guard fails within the fuel, more fuel changes nothing. *)
Lemma while_more_fuel fuel fuel' s :
  cond (while fuel cond body s) = false → (fuel ≤ fuel')%nat →
  while fuel' cond body s = while fuel cond body s.
Proof.
  revert fuel' s. induction fuel as [|fuel IH]; intros fuel' s Hc Hle; simpl in *.
  - by apply while_cond_false.
  - destruct fuel' as [|fuel']; [lia|]. simpl.
    destruct (cond s) eqn:E; [|done]. apply IH; [done|lia].
Qed.

(** An invariant of the body, kept under the guard, holds on exit. *)
Lemma while_invariant (P : S → Prop) fuel s :
  (∀ s, P s → cond s = true → P (body s)) → P s → P (while fuel cond body s).
Proof.
  intros Hstep. revert s. induction fuel as [|fuel IH]; intros s Hs; simpl; [done|].
  destruct (cond s) eqn:E; [|done]. apply IH. by apply Hstep.
Qed.
End Loop.

Lemma detail_amount transaction lot remaining :
  Detail.amount (detailOf transaction lot remaining) =
  Math_min remaining (TaxLot.amount lot).
Proof. reflexivity. Qed.

Lemma detail_costBasis transaction lot remaining :
  Detail.costBasis (detailOf transaction lot remaining) =
  TaxLot.unitCost lot * Math_min remaining (TaxLot.amount lot).
Proof. reflexivity. Qed.

(** The two ways an iteration can go. *)
Lemma sell_body_shift transaction s ref rest :
  availableLots (outer s) = ref :: rest →
  TaxLot.amount (heap (outer s) !!! ref) ≤ remainingAmount s →
  sell_body transaction s =
    mkSell (mkState (heap (outer s)) rest
              (stepResult transaction (heap (outer s) !!! ref) (remainingAmount s)
                 (result (outer s))))
           (remainingAmount s - TaxLot.amount (heap (outer s) !!! ref))
           (totalCostBasis s +
              TaxLot.unitCost (heap (outer s) !!! ref) * TaxLot.amount (heap (outer s) !!! ref)).
Proof.
  intros Hq Hle. unfold sell_body. rewrite Hq. cbn zeta.
  rewrite detail_costBasis, detail_amount, (Math_min_r _ _ Hle).
  destruct (decide _); [done|congruence].
Qed.

Lemma sell_body_partial transaction s ref rest :
  availableLots (outer s) = ref :: rest →
  remainingAmount s < TaxLot.amount (heap (outer s) !!! ref) →
  sell_body transaction s =
    mkSell (mkState
              (<[ref := TaxLot.consume (heap (outer s) !!! ref) (remainingAmount s)
                          (TaxLot.unitCost (heap (outer s) !!! ref) * remainingAmount s)]>
                 (heap (outer s)))
              (ref :: rest)
              (stepResult transaction (heap (outer s) !!! ref) (remainingAmount s)
                 (result (outer s))))
           0
           (totalCostBasis s + TaxLot.unitCost (heap (outer s) !!! ref) * remainingAmount s).
Proof.
  intros Hq Hlt. unfold sell_body. rewrite Hq. cbn zeta.
  rewrite detail_costBasis, detail_amount, (Math_min_l _ _ (Qclt_le_weak _ _ Hlt)).
  destruct (decide _) as [E|_]; [by apply Qclt_not_eq in Hlt|].
  by rewrite Qcminus_diag.
Qed.

Lemma sell_cond_true s :
  sell_cond s = true ↔
  0 < remainingAmount s ∧ ∃ ref rest, availableLots (outer s) = ref :: rest.
Proof.
  unfold sell_cond. rewrite andb_true_iff, !bool_decide_eq_true.
  split; intros [H1 H2]; (split; [done|]).
  - destruct (availableLots (outer s)) as [|ref rest]; simpl in *; [lia|eauto].
  - destruct H2 as (ref & rest & ->). simpl. lia.
Qed.

Lemma sell_cond_no_remaining s : remainingAmount s = 0 → sell_cond s = false.
Proof.
  intros H. unfold sell_cond. rewrite H.
  rewrite bool_decide_eq_false_2; [done|]. intros H'. by apply Qclt_not_eq in H'.
Qed.

Lemma sell_cond_no_lots s : availableLots (outer s) = [] → sell_cond s = false.
Proof.
  intros H. unfold sell_cond. rewrite H. apply andb_false_r.
Qed.

(** What one iteration does to the queue and to the remaining amount. *)
Lemma sell_body_cases transaction s :
  sell_cond s = true →
  (length (availableLots (outer (sell_body transaction s))) <
     length (availableLots (outer s)))%nat ∨
  (availableLots (outer (sell_body transaction s)) = availableLots (outer s) ∧
   remainingAmount (sell_body transaction s) = 0).
Proof.
  intros (Hpos & ref & rest & Hq)%sell_cond_true.
  destruct (Qclt_le_dec (remainingAmount s) (TaxLot.amount (heap (outer s) !!! ref)))
    as [Hlt|Hle].
  - right. rewrite (sell_body_partial _ _ _ _ Hq Hlt). by rewrite Hq.
  - left. rewrite (sell_body_shift _ _ _ _ Hq Hle), Hq. simpl. lia.
Qed.

Lemma sell_loop_exits_within transaction fuel s :
  (length (availableLots (outer s)) ≤ fuel)%nat →
  sell_cond (while fuel sell_cond (sell_body transaction) s) = false.
Proof.
  revert s. induction fuel as [|fuel IH]; intros s Hlen; simpl.
  - apply sell_cond_no_lots. destruct (availableLots (outer s)); [done|simpl in *; lia].
  - destruct (sell_cond s) eqn:E; [|done].
    destruct (sell_body_cases transaction s E) as [Hshort|[_ Hzero]].
    + apply IH. lia.
    + rewrite while_cond_false; by apply sell_cond_no_remaining.
Qed.

Lemma sell_body_result transaction s ref rest :
  availableLots (outer s) = ref :: rest →
  result (outer (sell_body transaction s)) =
  stepResult transaction (heap (outer s) !!! ref) (remainingAmount s) (result (outer s)).
Proof.
  intros Hq. unfold sell_body. rewrite Hq. cbn zeta. by destruct (decide _).
Qed.

Lemma transactions_pushDetail d r :
  GainLossCalculation.transactions (pushDetail d r) =
  GainLossCalculation.transactions r ++ [d].
Proof. by destruct r. Qed.

Lemma transactions_updateTotals g b r :
  GainLossCalculation.transactions (updateTotals g b r) =
  GainLossCalculation.transactions r.
Proof. destruct r. unfold updateTotals. by destruct (decide _), b. Qed.

Lemma transactions_stepResult transaction lot remaining r :
  GainLossCalculation.transactions (stepResult transaction lot remaining r) =
  GainLossCalculation.transactions r ++ [detailOf transaction lot remaining].
Proof. unfold stepResult. by rewrite transactions_pushDetail, transactions_updateTotals. Qed.

(** ** Holding period *)

Lemma msPerDay_pos : 0 < Qc_of_Z msPerDay.
Proof. rewrite <- Z2Qc_inj_0. by apply Z2Qc_inj_lt. Qed.

Lemma isLongTerm_spec disposedAt acquiredAt :
  isLongTerm disposedAt acquiredAt = true ↔ (days 365 < disposedAt - acquiredAt)%Z.
Proof.
  unfold isLongTerm, daysHeld, days. rewrite bool_decide_eq_true.
  rewrite (Qcmult_lt_mono_pos_r _ _ _ msPerDay_pos).
  replace (Qc_of_Z (disposedAt - acquiredAt) / Qc_of_Z msPerDay * Qc_of_Z msPerDay)
    with (Qc_of_Z (disposedAt - acquiredAt)).
  - by rewrite <- Z2Qc_inj_mul, <- Z2Qc_inj_lt.
  - field. intros E. pose proof msPerDay_pos as H. rewrite E in H.
    by apply Qclt_not_eq in H.
Qed.

Lemma term_long_iff (b : bool) : termOf b = long ↔ b = true.
Proof. by destruct b. Qed.

(** C3.  The detail record an iteration pushes for the head lot is
    marked [long] exactly when the disposal's timestamp exceeds the lot's
    acquisition timestamp by strictly more than 365 days (of 86 400 000
    ms); a lot sold exactly 365 days after its acquisition is [short],
    and one sold 366 days after is [long]. *)
Theorem holding_period_strict transaction s ref rest :
  availableLots (outer s) = ref :: rest →
  (∃ d, GainLossCalculation.transactions (result (outer (sell_body transaction s))) =
          GainLossCalculation.transactions (result (outer s)) ++ [d] ∧
        (Detail.term d = long ↔
           (days 365 < Transaction.timestamp transaction -
                         TaxLot.acquiredAt (heap (outer s) !!! ref))%Z) ∧
        (Detail.term d = short ↔
           (Transaction.timestamp transaction -
              TaxLot.acquiredAt (heap (outer s) !!! ref) ≤ days 365)%Z)) ∧
  (∀ T : Z, termOf (isLongTerm (T + days 365) T) = short) ∧
  (∀ T : Z, termOf (isLongTerm (T + days 366) T) = long).
Proof.
  intros Hq. split; [|split].
  - eexists. split.
    + rewrite (sell_body_result _ _ _ _ Hq). apply transactions_stepResult.
    + cbn [detailOf Detail.term]. rewrite term_long_iff, <- isLongTerm_spec.
      split; [done|]. destruct (isLongTerm _ _) eqn:E; simpl.
      * apply isLongTerm_spec in E. split; [done|lia].
      * apply not_true_iff_false in E. rewrite isLongTerm_spec in E.
        split; [lia|done].
  - intros T. destruct (isLongTerm (T + days 365) T) eqn:E; [|done].
    apply isLongTerm_spec in E. lia.
  - intros T. apply term_long_iff, isLongTerm_spec. unfold days, msPerDay. lia.
Qed.

(** ** Termination of the matching loop *)

(** C10.  Under the loop guard, an iteration either removes the head of
    [availableLots] or leaves the queue as it is and takes a positive
    quantity (all that remained) off [remainingAmount]; hence the guard
    fails after at most one iteration per lot of the queue, the loop's
    final state does not depend on any larger bound on the number of
    iterations, and the calculation yields a resolved promise on every
    input. *)
Theorem sell_loop_terminates transaction :
  (∀ s, sell_cond s = true →
     (∃ ref, availableLots (outer s) =
               ref :: availableLots (outer (sell_body transaction s))) ∨
     (availableLots (outer (sell_body transaction s)) = availableLots (outer s) ∧
      0 < remainingAmount s - remainingAmount (sell_body transaction s) ∧
      remainingAmount (sell_body transaction s) < remainingAmount s)) ∧
  (∀ s, sell_cond (sell_loop transaction s) = false) ∧
  (∀ s fuel, (length (availableLots (outer s)) ≤ fuel)%nat →
     while fuel sell_cond (sell_body transaction) s = sell_loop transaction s) ∧
  (∀ transactions previousTaxLots yearStart yearEnd h,
     ∃ r h', calculateGainsLosses transactions previousTaxLots yearStart yearEnd h =
             (Resolved r, h')).
Proof.
  split; [|split; [|split]].
  - intros s Hc. pose proof Hc as (Hpos & ref & rest & Hq)%sell_cond_true.
    destruct (Qclt_le_dec (remainingAmount s) (TaxLot.amount (heap (outer s) !!! ref)))
      as [Hlt|Hle].
    + right. rewrite (sell_body_partial _ _ _ _ Hq Hlt), Hq. simpl.
      replace (remainingAmount s - 0) with (remainingAmount s) by ring. done.
    + left. exists ref. by rewrite (sell_body_shift _ _ _ _ Hq Hle), Hq.
  - intros s. by apply sell_loop_exits_within.
  - intros s fuel Hle. apply while_more_fuel; [|done].
    by apply sell_loop_exits_within.
  - intros. by eexists _, _.
Qed.

(** ** Sums and the fields an iteration assigns *)

Lemma sumQc_app (l1 l2 : list Qc) : sumQc (l1 ++ l2) = sumQc l1 + sumQc l2.
Proof.
  induction l1 as [|x l1 IH]; simpl.
  - by rewrite Qcplus_0_l.
  - rewrite IH. apply Qcplus_assoc.
Qed.

(** The SELL branch, spelled out. *)
Lemma process_sell s transaction :
  Transaction.type transaction = "SELL" →
  process s transaction =
    let s' := sell_loop transaction (mkSell s (Transaction.amount transaction) 0) in
    mkState (heap (outer s')) (availableLots (outer s'))
      (addSale (totalCostBasis s') (Transaction.totalUsd transaction) (result (outer s'))).
Proof. intros H. unfold process. rewrite H. by rewrite decide_False, decide_True. Qed.

Lemma process_buy s transaction :
  Transaction.type transaction = "BUY" →
  process s transaction =
    mkState (heap s ++ [newLot transaction]) (availableLots s ++ [length (heap s)]) (result s).
Proof. intros H. unfold process. by rewrite decide_True. Qed.

(** Case analysis on the type of an event. *)
Lemma process_cases (P : State → Prop) s transaction :
  (Transaction.type transaction = "BUY" →
     P (mkState (heap s ++ [newLot transaction])
                (availableLots s ++ [length (heap s)]) (result s))) →
  (Transaction.type transaction = "SELL" →
     let s' := sell_loop transaction (mkSell s (Transaction.amount transaction) 0) in
     P (mkState (heap (outer s')) (availableLots (outer s'))
          (addSale (totalCostBasis s') (Transaction.totalUsd transaction)
             (result (outer s'))))) →
  (Transaction.type transaction ≠ "BUY" → Transaction.type transaction ≠ "SELL" → P s) →
  P (process s transaction).
Proof.
  intros Hb Hs Ho. unfold process.
  destruct (decide _) as [E|E1]; [by apply Hb|].
  destruct (decide _) as [E|E2]; [by apply Hs|by apply Ho].
Qed.

Lemma sell_loop_invariant (P : SellState → Prop) transaction s :
  (∀ s ref rest, P s → 0 < remainingAmount s →
     availableLots (outer s) = ref :: rest → P (sell_body transaction s)) →
  P s → P (sell_loop transaction s).
Proof.
  intros Hstep. apply while_invariant.
  intros s0 HP (Hpos & ref & rest & Hq)%sell_cond_true. eauto.
Qed.

Lemma addSale_fields tcb tp r :
  GainLossCalculation.costBasis (addSale tcb tp r) = GainLossCalculation.costBasis r + tcb ∧
  GainLossCalculation.proceeds (addSale tcb tp r) = GainLossCalculation.proceeds r + tp ∧
  GainLossCalculation.transactions (addSale tcb tp r) = GainLossCalculation.transactions r.
Proof. by destruct r. Qed.

Lemma setNet_fields r :
  GainLossCalculation.netGainLoss (setNet r) =
    GainLossCalculation.totalGains r - GainLossCalculation.totalLosses r ∧
  GainLossCalculation.costBasis (setNet r) = GainLossCalculation.costBasis r ∧
  GainLossCalculation.proceeds (setNet r) = GainLossCalculation.proceeds r ∧
  GainLossCalculation.transactions (setNet r) = GainLossCalculation.transactions r.
Proof. by destruct r. Qed.

(** ** Invariants of the store and the queue *)

Section HeapInvariant.
(** A property of the store and the queue that survives the removal of
    the head, the partial consumption of the head, and the opening of
    a lot by an acceptable purchase, survives a whole run. *)
Variable I : list TaxLot.t → list nat → Prop.
Variable okBuy : Transaction.t → Prop.
Hypothesis I_shift : ∀ h ref rest, I h (ref :: rest) → I h rest.
Hypothesis I_partial : ∀ h ref rest m,
  I h (ref :: rest) → 0 < m → m < TaxLot.amount (h !!! ref) →
  I (<[ref := TaxLot.consume (h !!! ref) m (TaxLot.unitCost (h !!! ref) * m)]> h)
    (ref :: rest).
Hypothesis I_buy : ∀ h q tx,
  I h q → okBuy tx → I (h ++ [newLot tx]) (q ++ [length h]).

Lemma sell_loop_heap_inv transaction s :
  I (heap (outer s)) (availableLots (outer s)) →
  I (heap (outer (sell_loop transaction s)))
    (availableLots (outer (sell_loop transaction s))).
Proof.
  apply (sell_loop_invariant
           (λ s, I (heap (outer s)) (availableLots (outer s)))).
  intros s0 ref rest IH Hpos Hq. rewrite Hq in IH.
  destruct (Qclt_le_dec (remainingAmount s0) (TaxLot.amount (heap (outer s0) !!! ref)))
    as [Hlt|Hle].
  - rewrite (sell_body_partial _ _ _ _ Hq Hlt). cbn [outer heap availableLots].
    by apply I_partial.
  - rewrite (sell_body_shift _ _ _ _ Hq Hle). cbn [outer heap availableLots].
    by apply I_shift with ref.
Qed.

Lemma process_heap_inv s transaction :
  (Transaction.type transaction = "BUY" → okBuy transaction) →
  I (heap s) (availableLots s) →
  I (heap (process s transaction)) (availableLots (process s transaction)).
Proof.
  intros Hbuy Hs. apply process_cases.
  - intros E. cbn [heap availableLots]. by apply I_buy, Hbuy.
  - intros _ s'. cbn [heap availableLots]. by apply sell_loop_heap_inv.
  - done.
Qed.

Lemma run_heap_inv transactions s :
  Forall (λ tx, Transaction.type tx = "BUY" → okBuy tx) transactions →
  I (heap s) (availableLots s) →
  I (heap (foldl process s transactions))
    (availableLots (foldl process s transactions)).
Proof.
  revert s. induction transactions as [|tx txs IH]; intros s Hall Hs; simpl; [done|].
  apply Forall_cons in Hall as [Htx Hall].
  by apply IH, process_heap_inv.
Qed.
End HeapInvariant.

Lemma nonzero_valid (h : list TaxLot.t) ref :
  TaxLot.amount (h !!! ref) ≠ 0 → (ref < length h)%nat.
Proof.
  intros Hnz. destruct (decide (ref < length h)%nat) as [|Hge]; [done|].
  exfalso. apply Hnz. rewrite list_lookup_total_alt.
  rewrite lookup_ge_None_2 by lia. reflexivity.
Qed.

Lemma lookup_total_snoc (h : list TaxLot.t) lot : (h ++ [lot]) !!! length h = lot.
Proof. by apply list_lookup_total_middle. Qed.

(** Partial consumption at the lot's own unit cost keeps the unit cost. *)
Lemma unitCost_consume lot m :
  TaxLot.amount lot ≠ 0 → m ≠ TaxLot.amount lot →
  TaxLot.unitCost (TaxLot.consume lot m (TaxLot.unitCost lot * m)) = TaxLot.unitCost lot.
Proof.
  intros Ha Hm. unfold TaxLot.unitCost, TaxLot.consume.
  cbn [TaxLot.amount TaxLot.costBasis]. field. split; [done|].
  intros E. apply Hm. symmetry. by apply Qcminus_eq_0.
Qed.

Lemma lots_nonzero_shift h ref rest : lots_nonzero h (ref :: rest) → lots_nonzero h rest.
Proof. unfold lots_nonzero. by intros [_ ?]%Forall_cons. Qed.

Lemma lots_nonzero_partial h ref rest m :
  lots_nonzero h (ref :: rest) → 0 < m → m < TaxLot.amount (h !!! ref) →
  lots_nonzero
    (<[ref := TaxLot.consume (h !!! ref) m (TaxLot.unitCost (h !!! ref) * m)]> h)
    (ref :: rest).
Proof.
  unfold lots_nonzero. intros Hall _ Hlt. eapply Forall_impl; [exact Hall|].
  intros ref' Hnz. cbn beta in *. rewrite list_lookup_total_insert.
  destruct (decide _) as [[-> _]|_]; [|done].
  cbn [TaxLot.consume TaxLot.amount]. intros E. apply Qcminus_eq_0 in E.
  rewrite E in Hlt. by apply Qclt_not_eq in Hlt.
Qed.

Lemma lots_nonzero_buy h q tx :
  lots_nonzero h q → Transaction.amount tx ≠ 0 →
  lots_nonzero (h ++ [newLot tx]) (q ++ [length h]).
Proof.
  unfold lots_nonzero. intros Hall Hnz. apply Forall_app. split.
  - eapply Forall_impl; [exact Hall|]. intros ref Href. cbn beta in *.
    rewrite lookup_total_app_l; [done|]. by apply nonzero_valid.
  - apply Forall_singleton. by rewrite lookup_total_snoc.
Qed.

Lemma lots_nonzero_run transactions s :
  buys_nonzero transactions →
  lots_nonzero (heap s) (availableLots s) →
  lots_nonzero (heap (foldl process s transactions))
    (availableLots (foldl process s transactions)).
Proof.
  apply (run_heap_inv lots_nonzero (λ tx, Transaction.amount tx ≠ 0)).
  - apply lots_nonzero_shift.
  - apply lots_nonzero_partial.
  - apply lots_nonzero_buy.
Qed.

(** ** Unit cost of a lot *)

Lemma unitCost_run transactions s :
  buys_nonzero transactions →
  lots_nonzero (heap s) (availableLots s) →
  (length (heap s) ≤ length (heap (foldl process s transactions)))%nat ∧
  ∀ ref, (ref < length (heap s))%nat →
    TaxLot.unitCost (heap (foldl process s transactions) !!! ref) =
    TaxLot.unitCost (heap s !!! ref).
Proof.
  intros Hbuys Hnz.
  pose (I := λ (h : list TaxLot.t) (q : list nat),
    lots_nonzero h q ∧ (length (heap s) ≤ length h)%nat ∧
    ∀ ref, (ref < length (heap s))%nat →
      TaxLot.unitCost (h !!! ref) = TaxLot.unitCost (heap s !!! ref)).
  cut (I (heap (foldl process s transactions))
         (availableLots (foldl process s transactions))).
  { intros (_ & ? & ?). done. }
  apply (run_heap_inv I (λ tx, Transaction.amount tx ≠ 0)); [| | |done|done].
  - intros h ref rest (H1 & H2 & H3). split; [|done]. by apply lots_nonzero_shift in H1.
  - intros h ref rest m (H1 & H2 & H3) Hpos Hlt. split; [|split].
    + by apply lots_nonzero_partial.
    + by rewrite length_insert.
    + intros ref' Href'. rewrite list_lookup_total_insert.
      destruct (decide _) as [[-> _]|_]; [|by apply H3].
      rewrite unitCost_consume; [by apply H3| |by apply Qclt_not_eq].
      by apply Forall_cons in H1 as [? _].
  - intros h q tx (H1 & H2 & H3) Hnz'. split; [|split].
    + by apply lots_nonzero_buy.
    + rewrite length_app. lia.
    + intros ref Href. rewrite lookup_total_app_l by lia. by apply H3.
Qed.

(** C9.  At any point of a run where the queued lots have non-zero
    amounts, whatever events follow, every lot object of the store keeps
    the quotient [costBasis / amount] it has at that point; a partial
    consumption, which takes [m] units and [m] times the unit cost off
    the lot, leaves that quotient as it was, and the lot a BUY opens
    starts at [totalUsd / amount]; so a portion later matched against the
    lot is costed at the same unit cost. *)
Theorem unit_cost_fixed s transactions ref :
  lots_nonzero (heap s) (availableLots s) →
  buys_nonzero transactions →
  (ref < length (heap s))%nat →
  let lot := heap s !!! ref in
  let lot' := heap (foldl process s transactions) !!! ref in
  TaxLot.costBasis lot' / TaxLot.amount lot' = TaxLot.costBasis lot / TaxLot.amount lot ∧
  (∀ m, TaxLot.amount lot ≠ 0 → m ≠ TaxLot.amount lot →
     let part := TaxLot.consume lot m (TaxLot.costBasis lot / TaxLot.amount lot * m) in
     TaxLot.costBasis part / TaxLot.amount part =
     TaxLot.costBasis lot / TaxLot.amount lot) ∧
  (∀ tx, TaxLot.costBasis (newLot tx) / TaxLot.amount (newLot tx) =
         Transaction.totalUsd tx / Transaction.amount tx) ∧
  (∀ tx remaining,
     Detail.costBasis (detailOf tx lot' remaining) =
     TaxLot.costBasis lot / TaxLot.amount lot * Detail.amount (detailOf tx lot' remaining)).
Proof.
  intros Hnz Hbuys Href lot lot'.
  destruct (unitCost_run transactions s Hbuys Hnz) as [_ Hu].
  specialize (Hu ref Href). fold lot lot' in Hu. unfold TaxLot.unitCost in Hu.
  split; [done|split; [|split]].
  - intros m Ha Hm. apply (unitCost_consume lot m Ha Hm).
  - done.
  - intros tx remaining. rewrite detail_costBasis, detail_amount.
    unfold TaxLot.unitCost. by rewrite Hu.
Qed.

(** ** Events the specification calls malformed *)

Lemma sell_loop_nonpositive transaction s :
  remainingAmount s ≤ 0 → sell_loop transaction s = s.
Proof.
  intros Hle. apply while_cond_false. unfold sell_cond.
  rewrite bool_decide_eq_false_2; [done|]. by apply Qcle_not_lt.
Qed.

(** C8, as the code has it.  No event is validated and none is rejected.
    A SELL of a non-positive amount matches nothing: it leaves the store
    and the queue as they are, pushes no detail record and adds its
    [totalUsd], whatever its sign, to the proceeds.  A BUY opens a lot
    with whatever amount and cost it carries.  The run goes on, and the
    promise is resolved, on every input. *)
Theorem malformed_events_processed s transaction
    transactions previousTaxLots yearStart yearEnd h :
  (Transaction.type transaction = "SELL" → Transaction.amount transaction ≤ 0 →
     process s transaction =
       mkState (heap s) (availableLots s)
         (addSale 0 (Transaction.totalUsd transaction) (result s))) ∧
  (Transaction.type transaction = "BUY" →
     process s transaction =
       mkState (heap s ++ [newLot transaction])
         (availableLots s ++ [length (heap s)]) (result s)) ∧
  (∃ r h', calculateGainsLosses transactions previousTaxLots yearStart yearEnd h =
           (Resolved r, h')).
Proof.
  split; [|split].
  - intros Hsell Hle. rewrite (process_sell _ _ Hsell). cbn zeta.
    by rewrite sell_loop_nonpositive.
  - apply process_buy.
  - by eexists _, _.
Qed.

(** ** Determinism *)

Section LoopRelation.
Context {S : Type} (cond : S → bool) (body : S → S) (R : S → S → Prop).
Hypothesis R_cond : ∀ s1 s2, R s1 s2 → cond s1 = cond s2.
Hypothesis R_body : ∀ s1 s2, R s1 s2 → cond s1 = true → R (body s1) (body s2).

(** Two runs of a loop from related states stay related. *)
Lemma while_related fuel s1 s2 :
  R s1 s2 → R (while fuel cond body s1) (while fuel cond body s2).
Proof.
  revert s1 s2. induction fuel as [|fuel IH]; intros s1 s2 HR; simpl; [done|].
  rewrite <- (R_cond _ _ HR). destruct (cond s1) eqn:E; [|done].
  by apply IH, R_body.
Qed.
End LoopRelation.

Lemma lotValues_insert_notin h ref lot lots :
  ref ∉ lots → lotValues (<[ref := lot]> h) lots = lotValues h lots.
Proof.
  intros Hnotin. unfold lotValues. apply list_fmap_ext.
  intros i ref' Hi. apply list_lookup_total_insert_ne.
  intros ->. apply Hnotin. by eapply list_elem_of_lookup_2.
Qed.

Lemma lotValues_app_l h lot lots :
  lots_valid h lots → lotValues (h ++ [lot]) lots = lotValues h lots.
Proof.
  intros Hv. unfold lotValues. apply list_fmap_ext.
  intros i ref Hi. apply lookup_total_app_l.
  eapply Forall_lookup_1 in Hv; [|exact Hi]. done.
Qed.

Lemma same_lots_length h1 q1 h2 q2 : same_lots h1 q1 h2 q2 → length q1 = length q2.
Proof.
  intros (_ & _ & _ & _ & Hv). apply (f_equal length) in Hv.
  unfold lotValues in Hv. by rewrite !length_fmap in Hv.
Qed.

Lemma same_sell_state_cond s1 s2 : same_sell_state s1 s2 → sell_cond s1 = sell_cond s2.
Proof.
  intros ((_ & Hl) & Hr & _). unfold sell_cond.
  by rewrite Hr, (same_lots_length _ _ _ _ Hl).
Qed.

Lemma same_sell_state_body transaction s1 s2 :
  same_sell_state s1 s2 → sell_cond s1 = true →
  same_sell_state (sell_body transaction s1) (sell_body transaction s2).
Proof.
  intros HR Hc. pose proof Hc as Hc2. rewrite (same_sell_state_cond _ _ HR) in Hc2.
  apply sell_cond_true in Hc as (Hpos & r1 & rest1 & Hq1).
  apply sell_cond_true in Hc2 as (_ & r2 & rest2 & Hq2).
  destruct HR as ((Hres & Hnd1 & Hnd2 & Hv1 & Hv2 & Hvals) & Hrem & Htcb).
  rewrite Hq1, Hq2 in *. unfold lotValues in Hvals. cbn [fmap list_fmap] in Hvals.
  injection Hvals as Hlot Hrest.
  apply NoDup_cons in Hnd1 as [Hn1 Hnd1]. apply NoDup_cons in Hnd2 as [Hn2 Hnd2].
  pose proof Hv1 as [Hr1 Hvr1]%Forall_cons. pose proof Hv2 as [Hr2 Hvr2]%Forall_cons.
  destruct (Qclt_le_dec (remainingAmount s1) (TaxLot.amount (heap (outer s1) !!! r1)))
    as [Hlt|Hle].
  - rewrite (sell_body_partial _ _ _ _ Hq1 Hlt).
    rewrite Hlot, Hrem in Hlt. rewrite (sell_body_partial _ _ _ _ Hq2 Hlt).
    rewrite Hlot, Hrem, Hres, Htcb. repeat split; cbn [outer heap availableLots result].
    + by apply NoDup_cons.
    + by apply NoDup_cons.
    + unfold lots_valid. by rewrite length_insert.
    + unfold lots_valid. by rewrite length_insert.
    + unfold lotValues. cbn [fmap list_fmap].
      rewrite !list_lookup_total_insert_eq by done. f_equal.
      fold (lotValues (<[r1 := TaxLot.consume (heap (outer s2) !!! r2) (remainingAmount s2)
              (TaxLot.unitCost (heap (outer s2) !!! r2) * remainingAmount s2)]>
              (heap (outer s1))) rest1).
      fold (lotValues (<[r2 := TaxLot.consume (heap (outer s2) !!! r2) (remainingAmount s2)
              (TaxLot.unitCost (heap (outer s2) !!! r2) * remainingAmount s2)]>
              (heap (outer s2))) rest2).
      by rewrite !lotValues_insert_notin.
  - rewrite (sell_body_shift _ _ _ _ Hq1 Hle).
    rewrite Hlot, Hrem in Hle. rewrite (sell_body_shift _ _ _ _ Hq2 Hle).
    rewrite Hlot, Hrem, Hres, Htcb. by repeat split.
Qed.

Lemma same_state_process transaction s1 s2 :
  same_state s1 s2 → same_state (process s1 transaction) (process s2 transaction).
Proof.
  intros HR. unfold process.
  destruct (decide _) as [_|_]; [|destruct (decide _) as [_|_]; [|done]].
  - destruct HR as (Hres & Hnd1 & Hnd2 & Hv1 & Hv2 & Hvals).
    repeat split; cbn [heap availableLots result]; [done| | | | |].
    + apply NoDup_app. repeat split; [done| |apply NoDup_singleton].
      intros ref Hin ->%list_elem_of_singleton.
      eapply Forall_forall in Hv1; [|exact Hin]. lia.
    + apply NoDup_app. repeat split; [done| |apply NoDup_singleton].
      intros ref Hin ->%list_elem_of_singleton.
      eapply Forall_forall in Hv2; [|exact Hin]. lia.
    + apply Forall_app. split.
      * eapply Forall_impl; [exact Hv1|]. intros ref Href. cbn beta in *.
        rewrite length_app. lia.
      * apply Forall_singleton. rewrite length_app. simpl. lia.
    + apply Forall_app. split.
      * eapply Forall_impl; [exact Hv2|]. intros ref Href. cbn beta in *.
        rewrite length_app. lia.
      * apply Forall_singleton. rewrite length_app. simpl. lia.
    + unfold lotValues. rewrite !fmap_app. cbn [fmap list_fmap].
      rewrite !lookup_total_snoc. f_equal.
      fold (lotValues (heap s1 ++ [newLot transaction]) (availableLots s1)).
      fold (lotValues (heap s2 ++ [newLot transaction]) (availableLots s2)).
      by rewrite !lotValues_app_l.
  - assert (Hloop : same_sell_state
      (sell_loop transaction (mkSell s1 (Transaction.amount transaction) 0))
      (sell_loop transaction (mkSell s2 (Transaction.amount transaction) 0))).
    { unfold sell_loop. cbn [outer].
      destruct HR as (Hres & Hl). rewrite (same_lots_length _ _ _ _ Hl).
      apply (while_related _ _ same_sell_state).
      - apply same_sell_state_cond.
      - apply same_sell_state_body.
      - by repeat split; try apply Hl. }
    destruct Hloop as ((Hres & Hl) & _ & Htcb).
    split; cbn [heap availableLots result]; [|done]. by rewrite Hres, Htcb.
Qed.

Lemma same_state_run transactions s1 s2 :
  same_state s1 s2 →
  same_state (foldl process s1 transactions) (foldl process s2 transactions).
Proof.
  revert s1 s2. induction transactions as [|tx txs IH]; intros s1 s2 HR; simpl; [done|].
  by apply IH, same_state_process.
Qed.

(** C7.  The outcome of a run is a function of the event sequence and
    of the values of the carried-over lots alone.  Two runs over the same
    events, whose lot arrays hold distinct objects with equal values
    position by position, resolve with the same summary, detail records
    included, and leave queues of equal lots; where the objects are kept
    and the two year bounds play no part.  Run again on the same store
    and array, the function returns the same promise and the same
    store. *)
Theorem deterministic transactions lots1 h1 lots2 h2
    yearStart1 yearEnd1 yearStart2 yearEnd2 :
  same_lots h1 lots1 h2 lots2 →
  (calculateGainsLosses transactions lots1 yearStart1 yearEnd1 h1).1 =
    (calculateGainsLosses transactions lots2 yearStart2 yearEnd2 h2).1 ∧
  lotValues (heap (run transactions lots1 h1)) (availableLots (run transactions lots1 h1)) =
    lotValues (heap (run transactions lots2 h2)) (availableLots (run transactions lots2 h2)) ∧
  calculateGainsLosses transactions lots1 yearStart1 yearEnd1 h1 =
    calculateGainsLosses transactions lots1 yearStart2 yearEnd2 h1.
Proof.
  intros Hl.
  pose proof (same_state_run transactions
                (mkState h1 lots1 GainLossCalculation.initial)
                (mkState h2 lots2 GainLossCalculation.initial)
                (conj eq_refl Hl)) as (Hres & _ & _ & _ & _ & Hvals).
  unfold calculateGainsLosses, run. cbn [fst result heap availableLots].
  by rewrite Hres, Hvals.
Qed.

(** Equal values matter: lots are updated in place, so a second run on
    the very objects the first run left behind starts from other
    values and gives another summary. *)
Lemma rerun_on_mutated_store :
  let first := calculateGainsLosses [sellThree] [0%nat] 0 0 fiveUnits in
  let second := calculateGainsLosses [sellThree] [0%nat] 0 0 first.2 in
  first.2 ≠ fiveUnits ∧ second.1 ≠ first.1.
Proof.
  intros first second. split.
  - intros H. apply (f_equal (λ h, this (TaxLot.amount (h !!! 0%nat)))) in H.
    vm_compute in H. discriminate H.
  - intros H.
    assert (H' : (λ p, match p with
                       | Resolved r => this (GainLossCalculation.costBasis r)
                       | Rejected _ => 0%Q
                       end) second.1 =
                 (λ p, match p with
                       | Resolved r => this (GainLossCalculation.costBasis r)
                       | Rejected _ => 0%Q
                       end) first.1) by (by rewrite H).
    vm_compute in H'. discriminate H'.
Qed.

(** ** The scenario of the specification *)

(** C4.  Buying 2 units for $100 on day 0 and 3 units for $210 on day
    10, then selling 4 units for $800 on day 400, yields two detail
    records: 2 units of the first lot (cost basis $100, long) and 2 of
    the second lot's 3 units (cost basis $140, long); the gain
    $800 - $240 = $560 is all in [longTermGains]; the second lot stays
    in the queue with 1 unit and a cost basis of $70. *)
Theorem scenario_result :
  run scenario [] [] =
    mkState
      [ TaxLot.mk "lot-t1" (Qc_of_Z 2) (Qc_of_Z 100) (days 0) false
          (event "t1" "BUY" 2 100 0 "BTC");
        TaxLot.mk "lot-t2" (Qc_of_Z 1) (Qc_of_Z 70) (days 10) false
          (event "t2" "BUY" 3 210 10 "BTC") ]
      [1%nat]
      (GainLossCalculation.mk
         0 (Qc_of_Z 560) 0 0 (Qc_of_Z 560) 0 (Qc_of_Z 560) (Qc_of_Z 240) (Qc_of_Z 800)
         [ Detail.mk "t3" "SELL" (Qc_of_Z 2) (Qc_of_Z 400) (Qc_of_Z 100) (Qc_of_Z 300)
             long "BTC" (days 400);
           Detail.mk "t3" "SELL" (Qc_of_Z 2) (Qc_of_Z 400) (Qc_of_Z 140) (Qc_of_Z 260)
             long "BTC" (days 400) ]) ∧
  (∀ yearStart yearEnd,
     calculateGainsLosses scenario [] yearStart yearEnd [] =
       (Resolved (result (run scenario [] [])), heap (run scenario [] []))).
Proof.
  split; [|done].
  apply (bool_decide_eq_true_1 _). vm_compute. reflexivity.
Qed.

(** ** Inputs on which the specification and the code part ways *)

(** A sale of three units, then an event with quantity -1: the promise
    is resolved, and the lot keeps the mutation of the first sale (2 of
    its 5 units, $20 of its $50). *)
Lemma malformed_event_not_rejected :
  let out := calculateGainsLosses [sellThree; sellMinusOne] [0%nat] 0 0 fiveUnits in
  (∃ r, out.1 = Resolved r) ∧
  TaxLot.amount (out.2 !!! 0%nat) = Qc_of_Z 2 ∧
  TaxLot.costBasis (out.2 !!! 0%nat) = Qc_of_Z 20 ∧
  ¬ ∃ reason, out = (Rejected (InvalidEventError reason), fiveUnits).
Proof.
  intros out.
  split; [by eexists|].
  split; [apply (bool_decide_eq_true_1 _); vm_compute; reflexivity|].
  split; [apply (bool_decide_eq_true_1 _); vm_compute; reflexivity|].
  intros (reason & H). discriminate H.
Qed.

(** ** The theorems at concrete inputs *)

Lemma holding_period_strict_witness :
  let s := mkSell (mkState fiveUnits [0%nat] GainLossCalculation.initial) (Qc_of_Z 3) 0 in
  (∃ d, GainLossCalculation.transactions (result (outer (sell_body sellThree s))) =
          GainLossCalculation.transactions (result (outer s)) ++ [d] ∧
        (Detail.term d = long ↔
           (days 365 < Transaction.timestamp sellThree -
                         TaxLot.acquiredAt (heap (outer s) !!! 0%nat))%Z) ∧
        (Detail.term d = short ↔
           (Transaction.timestamp sellThree -
              TaxLot.acquiredAt (heap (outer s) !!! 0%nat) ≤ days 365)%Z)) ∧
  (∀ T : Z, termOf (isLongTerm (T + days 365) T) = short) ∧
  (∀ T : Z, termOf (isLongTerm (T + days 366) T) = long).
Proof.
  intros s. apply (holding_period_strict sellThree s 0%nat []). reflexivity.
Defined.

Lemma sell_loop_terminates_witness :
  let s := mkSell (mkState fiveUnits [0%nat] GainLossCalculation.initial) (Qc_of_Z 3) 0 in
  sell_cond s = true ∧
  availableLots (outer (sell_body sellThree s)) = availableLots (outer s) ∧
  remainingAmount (sell_body sellThree s) < remainingAmount s ∧
  sell_cond (sell_loop sellThree s) = false ∧
  while 7 sell_cond (sell_body sellThree) s = sell_loop sellThree s.
Proof.
  intros s. destruct (sell_loop_terminates sellThree) as (Hstep & Hexit & Hfuel & _).
  assert (Hc : sell_cond s = true) by (vm_compute; reflexivity).
  split; [exact Hc|].
  destruct (Hstep s Hc) as [[ref Hq]|(Hq & _ & Hlt)].
  - exfalso. vm_compute in Hq. discriminate Hq.
  - split; [exact Hq|]. split; [exact Hlt|]. split; [apply Hexit|].
    apply Hfuel. simpl. lia.
Defined.

Lemma unit_cost_fixed_witness :
  let s := mkState fiveUnits [0%nat] GainLossCalculation.initial in
  let lot := heap s !!! 0%nat in
  let lot' := heap (foldl process s [sellThree; sellMinusOne]) !!! 0%nat in
  TaxLot.amount lot' = Qc_of_Z 2 ∧
  TaxLot.costBasis lot' / TaxLot.amount lot' = TaxLot.costBasis lot / TaxLot.amount lot.
Proof.
  intros s lot lot'. split.
  - apply (bool_decide_eq_true_1 _). vm_compute. reflexivity.
  - refine (proj1 (unit_cost_fixed s [sellThree; sellMinusOne] 0%nat _ _ _)).
    + unfold lots_nonzero. apply (bool_decide_eq_true_1 _). vm_compute. reflexivity.
    + unfold buys_nonzero. apply (bool_decide_eq_true_1 _). vm_compute. reflexivity.
    + simpl. lia.
Defined.

Lemma deterministic_witness :
  (calculateGainsLosses [sellThree] [0%nat] 2024 2025 fiveUnits).1 =
    (calculateGainsLosses [sellThree] [1%nat] 1999 2000 (sixUnits ++ fiveUnits)).1 ∧
  lotValues (heap (run [sellThree] [0%nat] fiveUnits))
      (availableLots (run [sellThree] [0%nat] fiveUnits)) =
    lotValues (heap (run [sellThree] [1%nat] (sixUnits ++ fiveUnits)))
      (availableLots (run [sellThree] [1%nat] (sixUnits ++ fiveUnits))) ∧
  calculateGainsLosses [sellThree] [0%nat] 2024 2025 fiveUnits =
    calculateGainsLosses [sellThree] [0%nat] 1999 2000 fiveUnits.
Proof.
  apply (deterministic [sellThree] [0%nat] fiveUnits [1%nat] (sixUnits ++ fiveUnits)).
  unfold same_lots, lots_valid. repeat split.
  - apply NoDup_singleton.
  - apply NoDup_singleton.
  - apply Forall_singleton. simpl. lia.
  - apply Forall_singleton. simpl. lia.
Defined.

Lemma malformed_events_processed_witness :
  let s := mkState fiveUnits [0%nat] GainLossCalculation.initial in
  process s sellMinusOne =
    mkState (heap s) (availableLots s)
      (addSale 0 (Transaction.totalUsd sellMinusOne) (result s)) ∧
  process s (event "t3" "BUY" (-2) (-7) 12 "BTC") =
    mkState (heap s ++ [newLot (event "t3" "BUY" (-2) (-7) 12 "BTC")])
      (availableLots s ++ [length (heap s)]) (result s).
Proof.
  intros s.
  destruct (malformed_events_processed s sellMinusOne [] [] 0 0 []) as (Hsell & _ & _).
  destruct (malformed_events_processed s (event "t3" "BUY" (-2) (-7) 12 "BTC")
              [] [] 0 0 []) as (_ & Hbuy & _).
  split.
  - apply Hsell; [reflexivity|]. apply (bool_decide_eq_true_1 _). vm_compute. reflexivity.
  - apply Hbuy. reflexivity.
Defined.

(** ** Linear arithmetic on canonical rationals *)

Lemma this_plus (x y : Qc) : (this (x + y) == this x + this y)%Q.
Proof. unfold Qcplus, Q2Qc. simpl. apply Qred_correct. Qed.

Lemma this_opp (x : Qc) : (this (- x) == - this x)%Q.
Proof. unfold Qcopp, Q2Qc. simpl. apply Qred_correct. Qed.

Lemma this_minus (x y : Qc) : (this (x - y) == this x - this y)%Q.
Proof. unfold Qcminus. rewrite this_plus, this_opp. reflexivity. Qed.

Lemma this_mult (x y : Qc) : (this (x * y) == this x * this y)%Q.
Proof. unfold Qcmult, Q2Qc. simpl. apply Qred_correct. Qed.

Lemma Qc_eq_this (x y : Qc) : x = y ↔ (this x == this y)%Q.
Proof. split; [by intros ->|apply Qc_is_canon]. Qed.

(** Moves a goal on [Qc] to [Q], where [lra] decides it. *)
Ltac qc_push H :=
  repeat (rewrite this_minus in H || rewrite this_plus in H ||
          rewrite this_opp in H || rewrite this_mult in H);
  change (this (Q2Qc 0)) with 0%Q in H; change (this (Q2Qc 1)) with 1%Q in H.
Ltac qc_to_q :=
  repeat match goal with
  | H : @eq Qc _ _ |- _ => apply Qc_eq_this in H; qc_push H
  | H : ¬ @eq Qc _ _ |- _ => rewrite Qc_eq_this in H; qc_push H
  | H : Qclt _ _ |- _ => unfold Qclt in H; qc_push H
  | H : Qcle _ _ |- _ => unfold Qcle in H; qc_push H
  | H : ¬ Qclt _ _ |- _ => unfold Qclt in H; qc_push H
  | H : ¬ Qcle _ _ |- _ => unfold Qcle in H; qc_push H
  end;
  try match goal with
  | |- @eq Qc _ _ => apply Qc_eq_this
  | |- ¬ @eq Qc _ _ => rewrite Qc_eq_this
  | |- Qclt _ _ => unfold Qclt
  | |- Qcle _ _ => unfold Qcle
  | |- ¬ Qclt _ _ => unfold Qclt
  | |- ¬ Qcle _ _ => unfold Qcle
  end;
  repeat (rewrite this_minus || rewrite this_plus ||
          rewrite this_opp || rewrite this_mult);
  change (this (Q2Qc 0)) with 0%Q; change (this (Q2Qc 1)) with 1%Q.
Ltac qc_lra := qc_to_q; lra.

(** ** Signs of the totals *)

Lemma updateTotals_nonneg g b r :
  let nonneg := λ r,
    0 ≤ GainLossCalculation.shortTermGains r ∧ 0 ≤ GainLossCalculation.longTermGains r ∧
    0 ≤ GainLossCalculation.shortTermLosses r ∧ 0 ≤ GainLossCalculation.longTermLosses r ∧
    0 ≤ GainLossCalculation.totalGains r ∧ 0 ≤ GainLossCalculation.totalLosses r in
  nonneg r → nonneg (updateTotals g b r).
Proof.
  destruct r as [stg ltg stl ltl tg tl net cb pr txs]. cbn zeta.
  unfold updateTotals. pose proof (Qcabs_nonneg g) as Habs. unfold Math_abs.
  destruct (decide (0 < g)), b; cbn; intros (? & ? & ? & ? & ? & ?);
    repeat split; try done; qc_lra.
Qed.

Lemma result_nonneg_run transactions s :
  let nonneg := λ r,
    0 ≤ GainLossCalculation.shortTermGains r ∧ 0 ≤ GainLossCalculation.longTermGains r ∧
    0 ≤ GainLossCalculation.shortTermLosses r ∧ 0 ≤ GainLossCalculation.longTermLosses r ∧
    0 ≤ GainLossCalculation.totalGains r ∧ 0 ≤ GainLossCalculation.totalLosses r in
  nonneg (result s) → nonneg (result (foldl process s transactions)).
Proof.
  cbn zeta. revert s. induction transactions as [|tx txs IH]; intros s Hs; [done|].
  cbn [foldl]. apply IH. apply process_cases; [done| |done].
  intros _ s'. cbn [result].
  assert (Hloop :
    0 ≤ GainLossCalculation.shortTermGains (result (outer s')) ∧
    0 ≤ GainLossCalculation.longTermGains (result (outer s')) ∧
    0 ≤ GainLossCalculation.shortTermLosses (result (outer s')) ∧
    0 ≤ GainLossCalculation.longTermLosses (result (outer s')) ∧
    0 ≤ GainLossCalculation.totalGains (result (outer s')) ∧
    0 ≤ GainLossCalculation.totalLosses (result (outer s'))).
  { unfold s'. apply (sell_loop_invariant (λ s0,
      0 ≤ GainLossCalculation.shortTermGains (result (outer s0)) ∧
      0 ≤ GainLossCalculation.longTermGains (result (outer s0)) ∧
      0 ≤ GainLossCalculation.shortTermLosses (result (outer s0)) ∧
      0 ≤ GainLossCalculation.longTermLosses (result (outer s0)) ∧
      0 ≤ GainLossCalculation.totalGains (result (outer s0)) ∧
      0 ≤ GainLossCalculation.totalLosses (result (outer s0)))); [|done].
    intros s0 ref rest IH0 _ Hq. rewrite (sell_body_result _ _ _ _ Hq).
    unfold stepResult.
    pose proof (updateTotals_nonneg
      (Detail.gainLoss (detailOf tx (heap (outer s0) !!! ref) (remainingAmount s0)))
      (isLongTerm (Transaction.timestamp tx) (TaxLot.acquiredAt (heap (outer s0) !!! ref)))
      (result (outer s0)) IH0) as H.
    by destruct (updateTotals _ _ _). }
  by destruct (result (outer s')).
Qed.

(** X5.  The four buckets and the two totals of a summary are never
    negative (losses are summed as magnitudes); only [netGainLoss] can
    be. *)
Theorem totals_nonnegative transactions previousTaxLots yearStart yearEnd h :
  lots_nonzero h previousTaxLots →
  buys_nonzero transactions →
  ∃ r h',
    calculateGainsLosses transactions previousTaxLots yearStart yearEnd h =
      (Resolved r, h') ∧
    0 ≤ GainLossCalculation.shortTermGains r ∧ 0 ≤ GainLossCalculation.longTermGains r ∧
    0 ≤ GainLossCalculation.shortTermLosses r ∧ 0 ≤ GainLossCalculation.longTermLosses r ∧
    0 ≤ GainLossCalculation.totalGains r ∧ 0 ≤ GainLossCalculation.totalLosses r.
Proof.
  intros _ _. eexists _, _. split; [reflexivity|]. cbn [run result].
  pose proof (result_nonneg_run transactions
                (mkState h previousTaxLots GainLossCalculation.initial)) as H.
  cbn zeta in H. cbn [result GainLossCalculation.initial] in H.
  destruct (result (foldl process _ transactions)); cbn in *.
  apply H. repeat split; apply Qcle_refl.
Qed.

(** ** Where detail records come from *)

Lemma detailFrom_detailOf transaction lot remaining :
  Transaction.type transaction = "SELL" → 0 < Transaction.amount transaction →
  detailFrom transaction (detailOf transaction lot remaining).
Proof. intros Hsell Hpos. unfold detailFrom, detailOf. cbn. by repeat split. Qed.

Lemma process_details s transaction :
  ∃ later, details (process s transaction) = details s ++ later ∧
           Forall (detailFrom transaction) later.
Proof.
  unfold details. apply process_cases.
  - intros _. exists []. by rewrite app_nil_r.
  - intros Hsell s'. cbn [result].
    destruct (addSale_fields (totalCostBasis s') (Transaction.totalUsd transaction)
                (result (outer s'))) as (_ & _ & ->).
    destruct (decide (0 < Transaction.amount transaction)) as [Hpos|Hneg].
    + unfold s'. apply (sell_loop_invariant (λ s0,
        ∃ later, GainLossCalculation.transactions (result (outer s0)) =
                   GainLossCalculation.transactions (result s) ++ later ∧
                 Forall (detailFrom transaction) later)).
      * intros s0 ref rest (later & Heq & Hall) _ Hq.
        exists (later ++ [detailOf transaction (heap (outer s0) !!! ref) (remainingAmount s0)]).
        rewrite (sell_body_result _ _ _ _ Hq), transactions_stepResult, Heq, app_assoc.
        split; [done|]. apply Forall_app. split; [done|].
        apply Forall_singleton. by apply detailFrom_detailOf.
      * exists []. by rewrite app_nil_r.
    + unfold s'. rewrite sell_loop_nonpositive.
      * exists []. by rewrite app_nil_r.
      * cbn [remainingAmount]. by apply Qcnot_lt_le.
  - intros _ _. exists []. by rewrite app_nil_r.
Qed.

Lemma run_details transactions : ∀ s,
  ∃ later, details (foldl process s transactions) = details s ++ later ∧
           Forall (λ d, ∃ tx, tx ∈ transactions ∧ detailFrom tx d) later.
Proof.
  induction transactions as [|tx txs IH]; intros s; cbn [foldl].
  - exists []. by rewrite app_nil_r.
  - destruct (process_details s tx) as (l1 & E1 & H1).
    destruct (IH (process s tx)) as (l2 & E2 & H2).
    exists (l1 ++ l2). rewrite E2, E1, app_assoc. split; [done|].
    apply Forall_app. split.
    + eapply Forall_impl; [exact H1|]. intros d Hd. exists tx. split; [left|done].
    + eapply Forall_impl; [exact H2|]. intros d (tx' & Hin & Hd).
      exists tx'. split; [by right|done].
Qed.

(** X6.  Detail records come from SELL events of a positive amount, and
    in event order: the records of a run over [earlier ++ later] are the
    records of the run over [earlier] followed by records that each
    carry the id, asset and date of a SELL event of [later], proceeds at
    that event's price per unit and [gainLoss = proceeds - costBasis].
    BUY events and events of other types add no record. *)
Theorem details_follow_sales earlier later previousTaxLots h :
  lots_nonzero h previousTaxLots →
  buys_nonzero (earlier ++ later) →
  ∃ records,
    details (run (earlier ++ later) previousTaxLots h) =
      details (run earlier previousTaxLots h) ++ records ∧
    Forall (λ d, ∃ tx, tx ∈ later ∧ detailFrom tx d) records.
Proof.
  intros _ _. unfold run, details. cbn [result].
  rewrite foldl_app.
  set (s0 := mkState h previousTaxLots GainLossCalculation.initial).
  destruct (run_details later (foldl process s0 earlier)) as (records & E & H).
  exists records. unfold details in E.
  destruct (setNet_fields (result (foldl process (foldl process s0 earlier) later)))
    as (_ & _ & _ & ->).
  destruct (setNet_fields (result (foldl process s0 earlier))) as (_ & _ & _ & ->).
  done.
Qed.

(** ** A run without sales *)

Lemma setNet_initial : setNet GainLossCalculation.initial = GainLossCalculation.initial.
Proof.
  unfold setNet, GainLossCalculation.initial. f_equal; by apply Qc_is_canon.
Qed.

Lemma run_no_sales transactions : ∀ s,
  Forall (λ tx, Transaction.type tx ≠ "SELL") transactions →
  foldl process s transactions =
    mkState (heap s ++ (newLot <$> purchases transactions))
      (availableLots s ++ seq (length (heap s)) (length (purchases transactions)))
      (result s).
Proof.
  unfold purchases.
  induction transactions as [|tx txs IH]; intros s Hall; cbn [foldl].
  - rewrite filter_nil. destruct s. cbn. by rewrite !app_nil_r.
  - apply Forall_cons in Hall as [Htx Hall]. rewrite IH by done.
    rewrite filter_cons. unfold process.
    destruct (decide (Transaction.type tx = "BUY")) as [E|E].
    + cbn [heap availableLots result fmap list_fmap length seq].
      rewrite length_app, <- !app_assoc. cbn [length app].
      by replace (length (heap s) + 1)%nat with (S (length (heap s))) by lia.
    + by rewrite decide_False.
Qed.

(** X8.  A year without SELL events resolves with the initial summary
    (every total zero, no detail record) and alters no lot: each BUY
    opens one lot, in event order, behind the carried-over lots. *)
Theorem no_sales_no_gains transactions previousTaxLots yearStart yearEnd h :
  Forall (λ tx, Transaction.type tx ≠ "SELL") transactions →
  calculateGainsLosses transactions previousTaxLots yearStart yearEnd h =
    (Resolved GainLossCalculation.initial, h ++ (newLot <$> purchases transactions)) ∧
  availableLots (run transactions previousTaxLots h) =
    previousTaxLots ++ seq (length h) (length (purchases transactions)).
Proof.
  intros Hall. unfold calculateGainsLosses, run.
  rewrite (run_no_sales _ _ Hall). cbn [heap availableLots result].
  by rewrite setNet_initial.
Qed.

(** ** Acquisition order *)

Lemma acquiredDates_cons h ref rest :
  acquiredDates h (ref :: rest) = TaxLot.acquiredAt (h !!! ref) :: acquiredDates h rest.
Proof. reflexivity. Qed.

Lemma acquiredDates_consume h ref lot m c lots :
  TaxLot.acquiredAt lot = TaxLot.acquiredAt (h !!! ref) →
  acquiredDates (<[ref := TaxLot.consume lot m c]> h) lots = acquiredDates h lots.
Proof.
  intros Hd. unfold acquiredDates. apply list_fmap_ext. intros i ref' _.
  rewrite list_lookup_total_insert. by destruct (decide _) as [[-> _]|_].
Qed.

Lemma lots_valid_insert h ref lot lots :
  lots_valid h lots → lots_valid (<[ref := lot]> h) lots.
Proof. unfold lots_valid. by rewrite length_insert. Qed.

(** A disposal leaves a suffix of the queue, dates unchanged. *)
Lemma sell_loop_dates transaction s :
  lots_valid (heap (outer s)) (availableLots (outer s)) →
  let s' := sell_loop transaction s in
  lots_valid (heap (outer s')) (availableLots (outer s')) ∧
  ∃ k, acquiredDates (heap (outer s')) (availableLots (outer s')) =
       drop k (acquiredDates (heap (outer s)) (availableLots (outer s))).
Proof.
  intros Hv. cbn zeta.
  apply (sell_loop_heap_inv
    (λ h q, lots_valid h q ∧
            ∃ k, acquiredDates h q =
                 drop k (acquiredDates (heap (outer s)) (availableLots (outer s))))).
  - intros h ref rest [Hv' [k Hk]]. split; [by apply Forall_cons in Hv' as [_ ?]|].
    exists (S k). rewrite acquiredDates_cons in Hk.
    replace (S k) with (k + 1)%nat by lia. rewrite <- drop_drop, <- Hk. reflexivity.
  - intros h ref rest m [Hv' [k Hk]] _ _. split; [by apply lots_valid_insert|].
    exists k. by rewrite acquiredDates_consume.
  - split; [done|]. by exists 0%nat.
Qed.

Lemma StronglySorted_drop (l : list Z) k :
  StronglySorted Z.le l → StronglySorted Z.le (drop k l).
Proof.
  intros H. rewrite <- (take_drop k l) in H. by apply StronglySorted_app_1_r in H.
Qed.

Lemma StronglySorted_take (l : list Z) k :
  StronglySorted Z.le l → StronglySorted Z.le (take k l).
Proof.
  intros H. rewrite <- (take_drop k l) in H. by apply StronglySorted_app_1_l in H.
Qed.

Lemma acquiredDates_buy h q lot :
  lots_valid h q →
  acquiredDates (h ++ [lot]) (q ++ [length h]) = acquiredDates h q ++ [TaxLot.acquiredAt lot].
Proof.
  intros Hv. unfold acquiredDates. rewrite fmap_app. cbn [fmap list_fmap].
  rewrite lookup_total_snoc. f_equal. apply list_fmap_ext. intros i ref Hi.
  rewrite lookup_total_app_l; [done|].
  eapply Forall_lookup_1 in Hv; [|exact Hi]. done.
Qed.

Lemma run_acquisition_order transactions : ∀ s,
  lots_valid (heap s) (availableLots s) →
  acquisitionOrder (heap s) (availableLots s) →
  chronological transactions →
  Forall (λ d, Forall (λ tx, (d ≤ Transaction.timestamp tx)%Z) transactions)
    (acquiredDates (heap s) (availableLots s)) →
  let s' := foldl process s transactions in
  lots_valid (heap s') (availableLots s') ∧ acquisitionOrder (heap s') (availableLots s').
Proof.
  unfold acquisitionOrder, chronological.
  induction transactions as [|tx txs IH]; intros s Hv Hsorted Hchron Hbound; cbn [foldl];
    [done|].
  cbn [fmap list_fmap] in Hchron. apply StronglySorted_cons in Hchron as [Hlater Hchron].
  assert (Hb1 : Forall (λ d, (d ≤ Transaction.timestamp tx)%Z)
                  (acquiredDates (heap s) (availableLots s))).
  { eapply Forall_impl; [exact Hbound|]. by intros d [? _]%Forall_cons. }
  assert (Hb2 : Forall (λ d, Forall (λ tx, (d ≤ Transaction.timestamp tx)%Z) txs)
                  (acquiredDates (heap s) (availableLots s))).
  { eapply Forall_impl; [exact Hbound|]. by intros d [_ ?]%Forall_cons. }
  pose proof (sell_loop_dates tx (mkSell s (Transaction.amount tx) 0) Hv) as Hsell.
  cbn zeta in Hsell. cbn [outer] in Hsell.
  apply IH; [| |done|]; clear IH; apply process_cases; try done.
  - intros _. cbn [heap availableLots]. apply Forall_app. split.
    + eapply Forall_impl; [exact Hv|]. intros ref Href. cbn beta in *.
      rewrite length_app. lia.
    + apply Forall_singleton. rewrite length_app. simpl. lia.
  - intros _ s'. cbn [heap availableLots]. apply Hsell.
  - intros _. cbn [heap availableLots].
    rewrite acquiredDates_buy by done. apply StronglySorted_app_2; [|done|].
    + intros d1 d2 Hd1 ->%list_elem_of_singleton.
      eapply Forall_forall in Hb1; [|exact Hd1]. exact Hb1.
    + repeat constructor.
  - intros _ s'. cbn [heap availableLots]. destruct Hsell as [_ [k Hk]].
    unfold s'. rewrite Hk. by apply StronglySorted_drop.
  - intros _. cbn [heap availableLots].
    rewrite acquiredDates_buy by done. apply Forall_app. split; [done|].
    apply Forall_singleton. cbn [newLot TaxLot.acquiredAt].
    rewrite Forall_fmap in Hlater. exact Hlater.
  - intros _ s'. cbn [heap availableLots]. destruct Hsell as [_ [k Hk]].
    unfold s'. rewrite Hk. by apply Forall_drop.
Qed.

(** X9.  The queue stays in acquisition order: when the carried-over
    lots are queued oldest first and are not newer than any event, and
    the events come in chronological order, the queue a run leaves is
    again sorted by acquisition date. *)
Theorem queue_stays_in_acquisition_order transactions previousTaxLots h :
  lots_valid h previousTaxLots →
  acquisitionOrder h previousTaxLots →
  chronological transactions →
  Forall (λ d, Forall (λ tx, (d ≤ Transaction.timestamp tx)%Z) transactions)
    (acquiredDates h previousTaxLots) →
  let s := run transactions previousTaxLots h in
  acquisitionOrder (heap s) (availableLots s).
Proof.
  intros Hv Hsorted Hchron Hbound s.
  apply (run_acquisition_order transactions
           (mkState h previousTaxLots GainLossCalculation.initial)); done.
Qed.

(** ** Long-term portions come first *)

Lemma isLongTerm_older disposedAt d1 d2 :
  (d1 ≤ d2)%Z → isLongTerm disposedAt d2 = true → isLongTerm disposedAt d1 = true.
Proof. rewrite !isLongTerm_spec. lia. Qed.

Lemma terms_of_sorted_dates disposedAt (l : list Z) :
  StronglySorted Z.le l →
  ∃ a b, (λ d, termOf (isLongTerm disposedAt d)) <$> l =
         replicate a long ++ replicate b short.
Proof.
  induction 1 as [|d l Hsorted [a [b IH]] Hd]; [by exists 0%nat, 0%nat|].
  cbn [fmap list_fmap]. destruct (isLongTerm disposedAt d) eqn:E.
  - exists (S a), b. fold (fmap (M:=list) (λ d, termOf (isLongTerm disposedAt d)) l).
    by rewrite IH.
  - exists 0%nat, (S (length l)). cbn [replicate app termOf]. f_equal.
    clear IH Hsorted. induction l as [|d' l IHl]; [done|].
    apply Forall_cons in Hd as [Hd' Hd]. cbn [fmap list_fmap length replicate].
    destruct (isLongTerm disposedAt d') eqn:E'.
    + by rewrite (isLongTerm_older _ _ _ Hd' E') in E.
    + cbn [termOf]. f_equal. by apply IHl.
Qed.

(** The records a loop pushes are for the lots at the head of the
    queue, in queue order. *)
Lemma sell_loop_terms transaction s :
  ∃ later n,
    GainLossCalculation.transactions (result (outer (sell_loop transaction s))) =
      GainLossCalculation.transactions (result (outer s)) ++ later ∧
    Detail.term <$> later =
      (λ d, termOf (isLongTerm (Transaction.timestamp transaction) d)) <$>
        take n (acquiredDates (heap (outer s)) (availableLots (outer s))).
Proof.
  set (dates0 := acquiredDates (heap (outer s)) (availableLots (outer s))).
  set (f := λ d, termOf (isLongTerm (Transaction.timestamp transaction) d)).
  cut (∃ later n,
    GainLossCalculation.transactions (result (outer (sell_loop transaction s))) =
      GainLossCalculation.transactions (result (outer s)) ++ later ∧
    Detail.term <$> later = f <$> take n dates0 ∧
    (remainingAmount (sell_loop transaction s) = 0 ∨
     acquiredDates (heap (outer (sell_loop transaction s)))
       (availableLots (outer (sell_loop transaction s))) = drop n dates0)).
  { intros (later & n & ? & ? & _). by exists later, n. }
  apply (sell_loop_invariant (λ s',
    ∃ later n,
      GainLossCalculation.transactions (result (outer s')) =
        GainLossCalculation.transactions (result (outer s)) ++ later ∧
      Detail.term <$> later = f <$> take n dates0 ∧
      (remainingAmount s' = 0 ∨
       acquiredDates (heap (outer s')) (availableLots (outer s')) = drop n dates0))).
  - intros s' ref rest (later & n & Hd & Ht & Hstate) Hpos Hq.
    destruct Hstate as [Hzero|Hdates]; [rewrite Hzero in Hpos; by apply Qclt_not_eq in Hpos|].
    rewrite Hq, acquiredDates_cons in Hdates.
    assert (Hn : dates0 !! n = Some (TaxLot.acquiredAt (heap (outer s') !!! ref))).
    { rewrite <- (Nat.add_0_r n), <- lookup_drop, <- Hdates. reflexivity. }
    exists (later ++ [detailOf transaction (heap (outer s') !!! ref) (remainingAmount s')]),
           (S n).
    split; [|split].
    + rewrite (sell_body_result _ _ _ _ Hq), transactions_stepResult, Hd.
      by rewrite app_assoc.
    + rewrite fmap_app, Ht, (take_S_r _ _ _ Hn), fmap_app. reflexivity.
    + destruct (Qclt_le_dec (remainingAmount s')
                  (TaxLot.amount (heap (outer s') !!! ref))) as [Hlt|Hle].
      * left. by rewrite (sell_body_partial _ _ _ _ Hq Hlt).
      * right. rewrite (sell_body_shift _ _ _ _ Hq Hle). cbn [outer heap availableLots].
        rewrite (drop_S _ _ _ Hn) in Hdates. by injection Hdates.
  - exists [], 0%nat. rewrite app_nil_r. split; [done|]. split; [done|].
    right. by rewrite drop_0.
Qed.

(** X10.  Oldest first means long-term first: when the queue is in
    acquisition order, the detail records one disposal pushes are
    long-term records followed by short-term records, never a
    short-term record before a long-term one. *)
Theorem long_term_portions_first s transaction :
  Transaction.type transaction = "SELL" →
  acquisitionOrder (heap s) (availableLots s) →
  ∃ records a b,
    details (process s transaction) = details s ++ records ∧
    Detail.term <$> records = replicate a long ++ replicate b short.
Proof.
  intros Hsell Hsorted. unfold details. rewrite (process_sell _ _ Hsell).
  cbn zeta. cbn [result].
  destruct (addSale_fields
              (totalCostBasis (sell_loop transaction
                                 (mkSell s (Transaction.amount transaction) 0)))
              (Transaction.totalUsd transaction)
              (result (outer (sell_loop transaction
                                (mkSell s (Transaction.amount transaction) 0)))))
    as (_ & _ & ->).
  destruct (sell_loop_terms transaction (mkSell s (Transaction.amount transaction) 0))
    as (later & n & Hd & Ht).
  cbn [outer] in Hd, Ht.
  destruct (terms_of_sorted_dates (Transaction.timestamp transaction)
              (take n (acquiredDates (heap s) (availableLots s)))) as (a & b & Hab).
  { by apply StronglySorted_take. }
  exists later, a, b. split; [done|]. by rewrite Ht.
Qed.

(** ** The further properties at concrete inputs *)

Lemma threeLots_nonzero : lots_nonzero threeLots [0%nat; 1%nat; 2%nat].
Proof. unfold lots_nonzero. apply (bool_decide_eq_true_1 _). vm_compute. reflexivity. Defined.

Lemma year_buys_nonzero : buys_nonzero [sellFour; buyOne; transferTwo].
Proof. unfold buys_nonzero. apply (bool_decide_eq_true_1 _). vm_compute. reflexivity. Defined.

Lemma totals_nonnegative_witness :
  ∃ r h',
    calculateGainsLosses [sellFour; buyOne; transferTwo] [0%nat; 1%nat; 2%nat] 0 0 threeLots =
      (Resolved r, h') ∧
    0 ≤ GainLossCalculation.shortTermGains r ∧ 0 ≤ GainLossCalculation.longTermGains r ∧
    0 ≤ GainLossCalculation.shortTermLosses r ∧ 0 ≤ GainLossCalculation.longTermLosses r ∧
    0 ≤ GainLossCalculation.totalGains r ∧ 0 ≤ GainLossCalculation.totalLosses r.
Proof.
  exact (totals_nonnegative [sellFour; buyOne; transferTwo] [0%nat; 1%nat; 2%nat] 0 0
           threeLots threeLots_nonzero year_buys_nonzero).
Defined.

Lemma details_follow_sales_witness :
  ∃ records,
    details (run ([sellFour; buyOne] ++ [transferTwo; sellFour]) [0%nat; 1%nat; 2%nat] threeLots) =
      details (run [sellFour; buyOne] [0%nat; 1%nat; 2%nat] threeLots) ++ records ∧
    Forall (λ d, ∃ tx, tx ∈ [transferTwo; sellFour] ∧ detailFrom tx d) records.
Proof.
  apply (details_follow_sales [sellFour; buyOne] [transferTwo; sellFour]
           [0%nat; 1%nat; 2%nat] threeLots threeLots_nonzero).
  unfold buys_nonzero. apply (bool_decide_eq_true_1 _). vm_compute. reflexivity.
Defined.

Lemma no_sales_no_gains_witness :
  calculateGainsLosses [buyOne; transferTwo] [0%nat; 1%nat; 2%nat] 0 0 threeLots =
    (Resolved GainLossCalculation.initial,
     threeLots ++ (newLot <$> purchases [buyOne; transferTwo])) ∧
  availableLots (run [buyOne; transferTwo] [0%nat; 1%nat; 2%nat] threeLots) =
    [0%nat; 1%nat; 2%nat] ++ seq (length threeLots) (length (purchases [buyOne; transferTwo])).
Proof.
  apply (no_sales_no_gains [buyOne; transferTwo] [0%nat; 1%nat; 2%nat] 0 0 threeLots).
  repeat constructor; discriminate.
Defined.

Lemma threeLots_in_order : acquisitionOrder threeLots [0%nat; 1%nat; 2%nat].
Proof.
  unfold acquisitionOrder. repeat constructor; vm_compute; discriminate.
Defined.

Lemma queue_stays_in_acquisition_order_witness :
  let s := run [sellFour; buyOne; transferTwo] [0%nat; 1%nat; 2%nat] threeLots in
  acquisitionOrder (heap s) (availableLots s).
Proof.
  apply (queue_stays_in_acquisition_order [sellFour; buyOne; transferTwo]
           [0%nat; 1%nat; 2%nat] threeLots).
  - repeat constructor; simpl; lia.
  - exact threeLots_in_order.
  - unfold chronological. repeat constructor; vm_compute; discriminate.
  - repeat constructor; vm_compute; discriminate.
Defined.

Lemma long_term_portions_first_witness :
  ∃ records a b,
    details (process threeLotsState sellFour) = details threeLotsState ++ records ∧
    Detail.term <$> records = replicate a long ++ replicate b short.
Proof.
  exact (long_term_portions_first threeLotsState sellFour eq_refl threeLots_in_order).
Defined.

(** * Portfolio analytics: properties *)

(** ** The stable sort *)

Lemma insertDescending_Permutation {A : Type} (key : A → Qc) x l :
  insertDescending key x l ≡ₚ x :: l.
Proof.
  induction l as [|y l IH]; [done|]. cbn [insertDescending].
  destruct (decide _); [|done]. rewrite IH. apply Permutation_swap.
Qed.

Lemma sortDescending_Permutation {A : Type} (key : A → Qc) l :
  sortDescending key l ≡ₚ l.
Proof.
  induction l as [|x l IH]; [done|]. unfold sortDescending in *. cbn [foldr].
  by rewrite insertDescending_Permutation, IH.
Qed.

Lemma insertDescending_sorted {A : Type} (key : A → Qc) x l :
  descending key l → descending key (insertDescending key x l).
Proof.
  unfold descending. induction l as [|y l IH]; intros Hs; cbn [insertDescending].
  - repeat constructor.
  - apply StronglySorted_cons in Hs as [Hy Hs]. destruct (decide (key x < key y)) as [Hlt|Hge].
    + apply StronglySorted_cons. split; [|by apply IH].
      rewrite insertDescending_Permutation. apply Forall_cons. split; [|done].
      by apply Qclt_le_weak.
    + apply Qcnot_lt_le in Hge. apply StronglySorted_cons. split.
      * apply Forall_cons. split; [done|]. eapply Forall_impl; [exact Hy|].
        intros z Hz. cbn beta in *. by apply Qcle_trans with (key y).
      * by apply StronglySorted_cons.
Qed.

Lemma sortDescending_sorted {A : Type} (key : A → Qc) l :
  descending key (sortDescending key l).
Proof.
  induction l as [|x l IH]; [constructor|].
  unfold sortDescending in *. cbn [foldr]. by apply insertDescending_sorted.
Qed.

Lemma sumQc_Permutation (l1 l2 : list Qc) : l1 ≡ₚ l2 → sumQc l1 = sumQc l2.
Proof.
  unfold sumQc.
  induction 1 as [|x l1 l2 _ IH|x y l|l1 l2 l3 _ IH1 _ IH2]; cbn [foldr].
  - done.
  - by rewrite IH.
  - ring.
  - by etrans.
Qed.

(** ** Prices and the distribution loop *)

Lemma price_lookup_positive (table : list (string * Qc)) symbol :
  0 < match head (filter (λ p, p.1 = symbol) table) with
      | Some (_, price) => if decide (price = 0) then 1 else price
      | None => 1
      end ∨
  ∃ p, p ∈ table ∧ p.2 < 0.
Proof.
  induction table as [|[k v] table IH]; [by left|].
  rewrite filter_cons. cbn [fst]. destruct (decide (k = symbol)) as [_|_].
  - cbn [head]. destruct (decide (v = 0)) as [_|Hv]; [by left|].
    destruct (Qclt_le_dec 0 v) as [Hpos|Hneg]; [by left|].
    right. exists (k, v). split; [left|]. cbn [snd]. qc_lra.
  - destruct IH as [IH|(p & Hin & Hp)]; [by left|].
    right. exists p. split; [by right|done].
Qed.

Lemma currentPriceOf_positive symbol : 0 < currentPriceOf symbol.
Proof.
  destruct (price_lookup_positive mockPrices symbol) as [H|(p & Hin & Hp)]; [exact H|].
  exfalso. revert p Hin Hp.
  apply (proj1 (Forall_forall (λ p : string * Qc, ¬ p.2 < 0) mockPrices)).
  apply (bool_decide_eq_true_1 _). vm_compute. reflexivity.
Qed.

(** What the loop of lines 299-317 keeps true. *)
Lemma distribution_invariant holdings : ∀ tv tc dist,
  let '(tv', tc', dist') := foldl distributionStep (tv, tc, dist) holdings in
  tv' = tv + sumQc (Asset.value <$> drop (length dist) dist') ∧
  tc' = tc + sumQc ((λ a, Asset.averagePrice a * Asset.amount a) <$>
                      drop (length dist) dist') ∧
  take (length dist) dist' = dist ∧
  Forall (λ a, 0 < Asset.amount a ∧ 0 < Asset.value a ∧ Asset.percentage a = 0 ∧
               Asset.value a = Asset.amount a * currentPriceOf (Asset.symbol a))
    (drop (length dist) dist') ∧
  Asset.symbol <$> drop (length dist) dist' =
    Holding.symbol <$> filter (λ h, 0 < Holding.amount h) holdings ∧
  Forall (λ a, ∃ h, h ∈ holdings ∧ Asset.symbol a = Holding.symbol h ∧
                    Asset.name a = Holding.name h ∧
                    Asset.amount a = Holding.amount h ∧
                    Asset.averagePrice a * Asset.amount a = Holding.totalCost h)
    (drop (length dist) dist').
Proof.
  induction holdings as [|h holdings IH]; intros tv tc dist; cbn [foldl].
  - rewrite drop_all, firstn_all. cbn. repeat split; try ring; constructor.
  - unfold distributionStep at 2. rewrite filter_cons.
    destruct (decide (0 < Holding.amount h)) as [Hpos|Hneg].
    + specialize (IH (tv + Holding.amount h * currentPriceOf (Holding.symbol h))
                     (tc + Holding.totalCost h)
                     (dist ++ [Asset.mk (Holding.symbol h) (Holding.name h)
                                 (Holding.amount h * currentPriceOf (Holding.symbol h)) 0
                                 (Holding.amount h)
                                 (Holding.totalCost h / Holding.amount h)])).
      destruct (foldl distributionStep _ holdings) as [[tv' tc'] dist'].
      destruct IH as (H1 & H2 & H3 & H4 & H5 & H6).
      rewrite length_app in *. cbn [length] in *.
      assert (Hlen : (length dist + 1 ≤ length dist')%nat).
      { apply (f_equal length) in H3. rewrite length_take, length_app in H3.
        cbn [length] in H3. lia. }
      assert (Hsplit : drop (length dist) dist' =
                Asset.mk (Holding.symbol h) (Holding.name h)
                  (Holding.amount h * currentPriceOf (Holding.symbol h)) 0
                  (Holding.amount h) (Holding.totalCost h / Holding.amount h)
                :: drop (length dist + 1) dist').
      { rewrite <- (take_drop (length dist + 1) dist') at 1. rewrite H3.
        by rewrite <- app_assoc, drop_app_length. }
      assert (Htake : take (length dist) dist' = dist).
      { rewrite <- (take_drop (length dist + 1) dist'), H3.
        by rewrite <- app_assoc, take_app_length. }
      rewrite Hsplit. cbn [fmap list_fmap sumQc foldr Asset.value Asset.averagePrice
                           Asset.amount Asset.symbol].
      fold (sumQc (Asset.value <$> drop (length dist + 1) dist')).
      fold (sumQc ((λ a, Asset.averagePrice a * Asset.amount a) <$>
                     drop (length dist + 1) dist')).
      assert (Hnz : Holding.amount h ≠ 0) by (intros E; rewrite E in Hpos; qc_lra).
      repeat split.
      * rewrite H1. ring.
      * rewrite H2. field. done.
      * done.
      * apply Forall_cons. split; [|done]. cbn.
        repeat split; try done. apply Qcmult_pos_pos; [done|apply currentPriceOf_positive].
      * cbn [fmap list_fmap]. by rewrite H5.
      * apply Forall_cons. split.
        -- exists h. cbn. repeat split; [left|]. field. done.
        -- eapply Forall_impl; [exact H6|]. intros a (h' & Hin & Hrest).
           exists h'. split; [by right|done].
    + specialize (IH tv tc dist).
      destruct (foldl distributionStep _ holdings) as [[tv' tc'] dist'].
      destruct IH as (H1 & H2 & H3 & H4 & H5 & H6). repeat split; try done.
      eapply Forall_impl; [exact H6|]. intros a (h' & Hin & Hrest).
      exists h'. split; [by right|done].
Qed.

(** ** The holdings *)

Lemma getHolding_None symbol holdings :
  getHolding symbol holdings = None ↔ symbol ∉ Holding.symbol <$> holdings.
Proof.
  unfold getHolding. induction holdings as [|h holdings IH].
  - split; [intros _; apply not_elem_of_nil|done].
  - rewrite filter_cons. cbn [fmap list_fmap]. rewrite not_elem_of_cons.
    destruct (decide (Holding.symbol h = symbol)) as [E|E]; cbn [head].
    + split; [done|]. intros [Hne _]. by destruct Hne.
    + rewrite IH. split; [by split|by intros [_ ?]].
Qed.

Lemma updateHolding_symbol transaction h :
  Holding.symbol (updateHolding transaction h) = Holding.symbol h.
Proof. destruct h. unfold updateHolding. by repeat destruct (decide _). Qed.

Lemma updateHolding_amount transaction h :
  Holding.amount (updateHolding transaction h) =
    Holding.amount h +
    (if decide (PortfolioTx.type transaction = "BUY") then PortfolioTx.amount transaction
     else if decide (PortfolioTx.type transaction = "SELL")
          then - PortfolioTx.amount transaction else 0) ∧
  Holding.totalCost (updateHolding transaction h) =
    Holding.totalCost h +
    (if decide (PortfolioTx.type transaction = "BUY") then PortfolioTx.totalUsd transaction
     else if decide (PortfolioTx.type transaction = "SELL")
          then - PortfolioTx.totalUsd transaction else 0).
Proof.
  destruct h. unfold updateHolding.
  repeat destruct (decide _); cbn; split; ring.
Qed.

Lemma addToHoldings_symbols holdings transaction :
  Holding.symbol <$> addToHoldings holdings transaction =
  (Holding.symbol <$> holdings) ++
  (if decide (PortfolioTx.symbol transaction ∈ Holding.symbol <$> holdings)
   then [] else [PortfolioTx.symbol transaction]).
Proof.
  unfold addToHoldings. cbn zeta. rewrite <- list_fmap_compose.
  assert (Hsame : ∀ l : list Holding.t,
    (Holding.symbol ∘ (λ h, if decide (Holding.symbol h = PortfolioTx.symbol transaction)
                            then updateHolding transaction h else h)) <$> l =
    Holding.symbol <$> l).
  { intros l. apply list_fmap_ext. intros i h _. cbn.
    destruct (decide _); [apply updateHolding_symbol|done]. }
  rewrite Hsame.
  destruct (getHolding _ holdings) eqn:E.
  - rewrite decide_True; [by rewrite app_nil_r|].
    destruct (decide (PortfolioTx.symbol transaction ∈ Holding.symbol <$> holdings));
      [done|]. apply getHolding_None in n. congruence.
  - apply getHolding_None in E. rewrite decide_False by done.
    by rewrite fmap_app.
Qed.

Lemma net_snoc symbol transactions tx :
  netAmount symbol (transactions ++ [tx]) =
    netAmount symbol transactions +
    (if decide (PortfolioTx.symbol tx = symbol) then
       if decide (PortfolioTx.type tx = "BUY") then PortfolioTx.amount tx
       else if decide (PortfolioTx.type tx = "SELL") then - PortfolioTx.amount tx else 0
     else 0) ∧
  netCost symbol (transactions ++ [tx]) =
    netCost symbol transactions +
    (if decide (PortfolioTx.symbol tx = symbol) then
       if decide (PortfolioTx.type tx = "BUY") then PortfolioTx.totalUsd tx
       else if decide (PortfolioTx.type tx = "SELL") then - PortfolioTx.totalUsd tx else 0
     else 0).
Proof.
  unfold netAmount, netCost. rewrite filter_app, !fmap_app, !sumQc_app.
  rewrite filter_cons, filter_nil.
  destruct (decide (PortfolioTx.symbol tx = symbol)); cbn [fmap list_fmap sumQc foldr];
    split; ring.
Qed.

Lemma net_absent symbol transactions :
  symbol ∉ PortfolioTx.symbol <$> transactions →
  netAmount symbol transactions = 0 ∧ netCost symbol transactions = 0.
Proof.
  intros Hnotin. unfold netAmount, netCost.
  assert (filter (λ t, PortfolioTx.symbol t = symbol) transactions = []) as ->; [|done].
  induction transactions as [|t l IH]; [done|].
  cbn [fmap list_fmap] in Hnotin. apply not_elem_of_cons in Hnotin as [Hne Hnotin].
  rewrite filter_cons, decide_False by done. by apply IH.
Qed.

(** What the [forEach] of lines 256-281 builds: one holding per symbol
    met, in the order of first appearance, holding the net of its BUY
    and SELL transactions. *)
Lemma holdings_invariant transactions :
  let holdings := assetHoldingsOf transactions in
  NoDup (Holding.symbol <$> holdings) ∧
  (∀ symbol, symbol ∈ Holding.symbol <$> holdings ↔
             symbol ∈ PortfolioTx.symbol <$> transactions) ∧
  Forall (λ h, Holding.amount h = netAmount (Holding.symbol h) transactions ∧
               Holding.totalCost h = netCost (Holding.symbol h) transactions) holdings.
Proof.
  unfold assetHoldingsOf.
  induction transactions as [|tx transactions IH] using rev_ind.
  - cbn. split; [constructor|]. split; [done|constructor].
  - rewrite foldl_snoc. cbn zeta in *.
    set (holdings := foldl addToHoldings [] transactions) in *.
    destruct IH as (Hnd & Hdom & Hnet).
    pose proof (addToHoldings_symbols holdings tx) as Hsym.
    split; [|split].
    + rewrite Hsym. destruct (decide _) as [Hin|Hnotin]; [by rewrite app_nil_r|].
      apply NoDup_app. split; [done|]. split; [|apply NoDup_singleton].
      intros x Hx ->%list_elem_of_singleton. done.
    + intros symbol. rewrite Hsym, fmap_app. cbn [fmap list_fmap].
      pose proof (Hdom symbol) as Hs.
      rewrite !elem_of_app, list_elem_of_singleton.
      destruct (decide _) as [Hin|Hnotin].
      * split.
        -- intros [H1|H2]; [left; by apply Hs|by apply elem_of_nil in H2].
        -- intros [H1 | ->]; left; [by apply Hs|done].
      * by rewrite list_elem_of_singleton, Hs.
    + unfold addToHoldings. cbn zeta. apply Forall_fmap.
      assert (Hold : Forall (λ h,
        Holding.amount h = netAmount (Holding.symbol h) transactions ∧
        Holding.totalCost h = netCost (Holding.symbol h) transactions)
        match getHolding (PortfolioTx.symbol tx) holdings with
        | Some _ => holdings
        | None => holdings ++
            [Holding.mk (PortfolioTx.symbol tx) (PortfolioTx.name tx) 0 0 []]
        end).
      { destruct (getHolding _ holdings) eqn:E; [done|].
        apply Forall_app. split; [done|]. apply Forall_singleton.
        cbn [Holding.amount Holding.totalCost Holding.symbol].
        apply getHolding_None in E.
        destruct (net_absent (PortfolioTx.symbol tx) transactions) as [-> ->]; [|done].
        intros Hin. apply E. by apply Hdom. }
      eapply Forall_impl; [exact Hold|]. intros h [Ha Hc]. cbn.
      destruct (net_snoc (Holding.symbol h) transactions tx) as [Na Nc].
      destruct (decide (Holding.symbol h = PortfolioTx.symbol tx)) as [E|E].
      * rewrite updateHolding_symbol.
        destruct (updateHolding_amount tx h) as [-> ->].
        rewrite Na, Nc, Ha, Hc. rewrite !(decide_True (P := PortfolioTx.symbol tx = _)) by done.
        done.
      * rewrite Na, Nc, Ha, Hc.
        rewrite !(decide_False (P := PortfolioTx.symbol tx = _)) by done.
        split; ring.
Qed.

(** ** The analytics record *)

Lemma setPercentage_fields totalValue asset :
  Asset.symbol (setPercentage totalValue asset) = Asset.symbol asset ∧
  Asset.name (setPercentage totalValue asset) = Asset.name asset ∧
  Asset.value (setPercentage totalValue asset) = Asset.value asset ∧
  Asset.amount (setPercentage totalValue asset) = Asset.amount asset ∧
  Asset.averagePrice (setPercentage totalValue asset) = Asset.averagePrice asset ∧
  Asset.percentage (setPercentage totalValue asset) =
    (if decide (0 < totalValue) then Asset.value asset / totalValue * Qc_of_Z 100 else 0).
Proof. by destruct asset. Qed.

Lemma fmap_setPercentage {B : Type} (f : Asset.t → B) totalValue (l : list Asset.t) :
  (∀ asset, f (setPercentage totalValue asset) = f asset) →
  f <$> (setPercentage totalValue <$> l) = f <$> l.
Proof.
  intros Hf. rewrite <- list_fmap_compose. apply list_fmap_ext. intros i x _. apply Hf.
Qed.

(** ** What the distribution lists *)

Lemma NoDup_fmap_filter {A B : Type} (f : A → B) (P : A → Prop)
    `{!∀ x, Decision (P x)} (l : list A) :
  NoDup (f <$> l) → NoDup (f <$> filter P l).
Proof.
  intros Hnd. eapply sublist_NoDup; [exact Hnd|].
  apply fmap_sublist, sublist_filter.
Qed.

Lemma NoDup_fmap_eq {A B : Type} (f : A → B) (l : list A) x y :
  NoDup (f <$> l) → x ∈ l → y ∈ l → f x = f y → x = y.
Proof.
  induction l as [|z l IH]; cbn [fmap list_fmap]; intros Hnd Hx Hy E.
  - by apply elem_of_nil in Hx.
  - apply NoDup_cons in Hnd as [Hz Hnd].
    apply elem_of_cons in Hx as [->|Hx]; apply elem_of_cons in Hy as [->|Hy].
    + done.
    + destruct Hz. rewrite E. by apply list_elem_of_fmap_2.
    + destruct Hz. rewrite <- E. by apply list_elem_of_fmap_2.
    + by apply IH.
Qed.

(** The distribution, read against the transactions. *)
Lemma listing transactions tv tc unsorted :
  foldl distributionStep (0, 0, []) (assetHoldingsOf transactions) = (tv, tc, unsorted) →
  let dist := sortDescending Asset.value (setPercentage tv <$> unsorted) in
  NoDup (Asset.symbol <$> dist) ∧
  (∀ symbol, symbol ∈ Asset.symbol <$> dist ↔
             symbol ∈ PortfolioTx.symbol <$> transactions ∧
             0 < netAmount symbol transactions) ∧
  Forall (λ x, Asset.amount x = netAmount (Asset.symbol x) transactions ∧
               Asset.averagePrice x * Asset.amount x =
                 netCost (Asset.symbol x) transactions ∧
               Asset.value x =
                 netAmount (Asset.symbol x) transactions * currentPriceOf (Asset.symbol x) ∧
               0 < Asset.value x) dist ∧
  tc = sumQc ((λ x, Asset.averagePrice x * Asset.amount x) <$> dist).
Proof.
  intros Hfold dist.
  pose proof (distribution_invariant (assetHoldingsOf transactions) 0 0 []) as Hinv.
  rewrite Hfold in Hinv. cbn [length] in Hinv. rewrite !drop_0 in Hinv.
  destruct Hinv as (_ & Htc & _ & Hall & Hsym & Hfrom). rewrite Qcplus_0_l in Htc.
  destruct (holdings_invariant transactions) as (Hnd & Hdom & Hnet). cbn zeta in *.
  assert (Hperm : dist ≡ₚ setPercentage tv <$> unsorted)
    by apply sortDescending_Permutation.
  assert (Hsymbols : Asset.symbol <$> dist ≡ₚ
            Holding.symbol <$> filter (λ h, 0 < Holding.amount h)
                                 (assetHoldingsOf transactions)).
  { rewrite Hperm, fmap_setPercentage; [by rewrite Hsym|].
    intros x. apply setPercentage_fields. }
  split; [|split; [|split]].
  - rewrite Hsymbols. by apply NoDup_fmap_filter.
  - intros symbol. rewrite Hsymbols, list_elem_of_fmap. split.
    + intros (h & -> & [Hpos Hin]%list_elem_of_filter).
      eapply Forall_forall in Hnet; [|exact Hin]. destruct Hnet as [Ha _].
      split; [|by rewrite <- Ha]. apply Hdom. by apply list_elem_of_fmap_2.
    + intros [Hin Hpos]. apply Hdom, list_elem_of_fmap in Hin as (h & -> & Hin).
      exists h. split; [done|]. apply list_elem_of_filter. split; [|done].
      eapply Forall_forall in Hnet; [|exact Hin]. destruct Hnet as [Ha _].
      by rewrite Ha.
  - rewrite Hperm. apply Forall_fmap, Forall_forall. intros x Hin. cbn.
    destruct (setPercentage_fields tv x) as (-> & _ & -> & -> & -> & _).
    eapply Forall_forall in Hall; [|exact Hin].
    eapply Forall_forall in Hfrom; [|exact Hin].
    destruct Hall as (_ & Hv & _ & Hval).
    destruct Hfrom as (h & Hh & Es & _ & Ea & Ec).
    eapply Forall_forall in Hnet; [|exact Hh]. destruct Hnet as [Ha Hc].
    rewrite Es, <- Ha, <- Hc, <- Ea, <- Es. done.
  - rewrite Htc. apply sumQc_Permutation. rewrite Hperm.
    rewrite fmap_setPercentage; [done|]. intros x.
    by destruct (setPercentage_fields tv x) as (_ & _ & _ & -> & -> & _).
Qed.

(** ** The first entries of a sorted selection *)

Lemma descending_take {A : Type} (key : A → Qc) n (l : list A) :
  descending key l → descending key (take n l).
Proof.
  unfold descending. revert n. induction l as [|x l IH]; intros [|n] Hs; cbn [take];
    try constructor.
  - apply IH. by apply StronglySorted_cons in Hs as [_ Hs].
  - apply StronglySorted_cons in Hs as [Hx _].
    apply Forall_forall. intros y Hy%subseteq_take.
    by eapply Forall_forall in Hx.
Qed.

Lemma take_top {A : Type} (key : A → Qc) n (l : list A) x :
  descending key l → x ∈ l →
  x ∈ take n l ∨ (length (take n l) = n ∧ Forall (λ y, key x ≤ key y) (take n l)).
Proof.
  unfold descending. revert n. induction l as [|y l IH]; intros n Hs Hin.
  - by apply elem_of_nil in Hin.
  - destruct n as [|n]; [right; split; [done|constructor]|]. cbn [take].
    apply StronglySorted_cons in Hs as [Hy Hs].
    apply elem_of_cons in Hin as [->|Hin]; [left; left|].
    destruct (IH n Hs Hin) as [Htake|[Hlen Hall]]; [left; by right|].
    right. split; [cbn [length]; by rewrite Hlen|].
    apply Forall_cons. split; [|done]. by eapply Forall_forall in Hy.
Qed.

Lemma top_from {A B : Type} (key : B → Qc) (f : A → B) (P : A → Prop)
    `{!∀ x, Decision (P x)} n (l : list A) b :
  b ∈ take n (sortDescending key (f <$> filter P l)) → ∃ a, a ∈ l ∧ P a ∧ b = f a.
Proof.
  intros Hin%subseteq_take. rewrite sortDescending_Permutation in Hin.
  apply list_elem_of_fmap in Hin as (a & -> & [Ha Hin]%list_elem_of_filter).
  by exists a.
Qed.

Lemma top_complete {A B : Type} (key : B → Qc) (f : A → B) (P : A → Prop)
    `{!∀ x, Decision (P x)} n (l : list A) a :
  a ∈ l → P a →
  let top := take n (sortDescending key (f <$> filter P l)) in
  f a ∈ top ∨ (length top = n ∧ Forall (λ b, key (f a) ≤ key b) top).
Proof.
  intros Hin Ha. apply take_top; [apply sortDescending_sorted|].
  rewrite sortDescending_Permutation. apply list_elem_of_fmap_2.
  by apply list_elem_of_filter.
Qed.

Lemma top_NoDup {A B C : Type} (key : B → Qc) (f : A → B) (P : A → Prop)
    `{!∀ x, Decision (P x)} (g : B → C) (h : A → C) n (l : list A) :
  (∀ a, g (f a) = h a) → NoDup (h <$> l) →
  NoDup (g <$> take n (sortDescending key (f <$> filter P l))).
Proof.
  intros Hgf Hnd. eapply sublist_NoDup; [|apply fmap_sublist, sublist_take].
  rewrite sortDescending_Permutation, <- list_fmap_compose.
  rewrite (list_fmap_ext (g ∘ f) h (filter P l) (λ _ a _, Hgf a)).
  by apply NoDup_fmap_filter.
Qed.

(** ** The transaction summary *)

Lemma analytics_parts random transactions startDate endDate a :
  calculatePortfolioAnalytics random transactions startDate endDate = Fulfilled a →
  PortfolioAnalytics.performanceHistory a =
    performanceHistoryOf random startDate endDate (PortfolioAnalytics.totalValue a) ∧
  PortfolioAnalytics.transactionSummary a = transactionSummaryOf transactions.
Proof.
  unfold calculatePortfolioAnalytics. destruct (decide _); [done|].
  destruct (decide _); [done|]. cbn zeta.
  destruct (foldl distributionStep _ _) as [[tv tc] dist]. by intros [= <-].
Qed.

Lemma reduce_sum (transactions : list PortfolioTx.t) : ∀ sum,
  foldl (λ sum t, sum + PortfolioTx.totalUsd t) sum transactions =
  sum + sumQc (PortfolioTx.totalUsd <$> transactions).
Proof.
  induction transactions as [|t l IH]; intros sum; cbn [foldl fmap list_fmap sumQc foldr].
  - ring.
  - fold (sumQc (PortfolioTx.totalUsd <$> l)). rewrite IH. ring.
Qed.

(** X15.  The transaction summary partitions the transactions: a
    transaction is counted as a buy (type BUY), as a sell (type SELL), as
    a transfer (type containing TRANSFER) or as none of the three, never
    as two of them, so that the three counts and the uncounted ones add
    up to [totalTransactions], the length of the input; [totalVolume]
    adds the [totalUsd] of every transaction, whatever its type. *)
Theorem summary_partitions_transactions random transactions startDate endDate a :
  calculatePortfolioAnalytics random transactions startDate endDate = Fulfilled a →
  let summary := PortfolioAnalytics.transactionSummary a in
  TransactionSummary.totalTransactions summary = length transactions ∧
  (TransactionSummary.buys summary + TransactionSummary.sells summary +
   TransactionSummary.transfers summary +
   length (filter (λ t, PortfolioTx.type t ≠ "BUY" ∧ PortfolioTx.type t ≠ "SELL" ∧
                        includes "TRANSFER" (PortfolioTx.type t) = false) transactions) =
   TransactionSummary.totalTransactions summary)%nat ∧
  TransactionSummary.totalVolume summary = sumQc (PortfolioTx.totalUsd <$> transactions).
Proof.
  intros [_ ->]%analytics_parts. cbn zeta. unfold transactionSummaryOf.
  cbn [TransactionSummary.totalTransactions TransactionSummary.buys
       TransactionSummary.sells TransactionSummary.transfers
       TransactionSummary.totalVolume].
  split; [done|]. split; [|by rewrite reduce_sum, Qcplus_0_l].
  induction transactions as [|t l IH]; [done|].
  rewrite !filter_cons. cbn [length].
  destruct (decide (PortfolioTx.type t = "BUY")) as [E|Hb].
  { rewrite E. rewrite (decide_False (P := "BUY" = "SELL")) by done.
    rewrite (decide_False (P := includes "TRANSFER" "BUY" = true)) by done.
    rewrite decide_False by (by intros [? _]). cbn [length]. lia. }
  destruct (decide (PortfolioTx.type t = "SELL")) as [E|Hs].
  { rewrite E. rewrite (decide_False (P := includes "TRANSFER" "SELL" = true)) by done.
    rewrite decide_False by (by intros (_ & ? & _)). cbn [length]. lia. }
  destruct (includes "TRANSFER" (PortfolioTx.type t)) eqn:Ht.
  - rewrite decide_True by done. rewrite decide_False by (by intros (_ & _ & ?)).
    cbn [length]. lia.
  - rewrite decide_False by done. rewrite decide_True by done. cbn [length]. lia.
Qed.

(** ** The mock performance history *)

Lemma step_bounds (rv r : Qc) :
  0 < rv → 0 ≤ r → r < 1 →
  let change := rv * (r * Q2Qc (1 # 10) - Q2Qc (5 # 100)) in
  0 < rv + change ∧
  rv * Q2Qc (95 # 100) ≤ rv + change ∧
  rv + change < rv * Q2Qc (105 # 100) ∧
  change / (rv + change - change) * Qc_of_Z 100 = r * Qc_of_Z 10 - Qc_of_Z 5.
Proof.
  intros Hrv Hr0 Hr1 change. subst change.
  assert (Hnz : rv ≠ 0) by (intros E; rewrite E in Hrv; qc_lra).
  assert (Hlow : rv * Q2Qc (95 # 100) ≤ rv + rv * (r * Q2Qc (1 # 10) - Q2Qc (5 # 100))).
  { qc_to_q. change (this (Q2Qc (95 # 100))) with (19 # 20)%Q.
    change (this (Q2Qc (1 # 10))) with (1 # 10)%Q.
    change (this (Q2Qc (5 # 100))) with (1 # 20)%Q. nra. }
  assert (Hhigh : rv + rv * (r * Q2Qc (1 # 10) - Q2Qc (5 # 100)) < rv * Q2Qc (105 # 100)).
  { qc_to_q. change (this (Q2Qc (105 # 100))) with (21 # 20)%Q.
    change (this (Q2Qc (1 # 10))) with (1 # 10)%Q.
    change (this (Q2Qc (5 # 100))) with (1 # 20)%Q. nra. }
  assert (Hpos : 0 < rv * Q2Qc (95 # 100)).
  { apply Qcmult_pos_pos; [done|]. by apply (bool_decide_eq_true_1 _). }
  split; [by eapply Qclt_le_trans|]. split; [done|]. split; [done|].
  assert (E : Q2Qc (1 # 10) * Qc_of_Z 100 = Qc_of_Z 10)
    by by apply (bool_decide_eq_true_1 _).
  assert (E' : Q2Qc (5 # 100) * Qc_of_Z 100 = Qc_of_Z 5)
    by by apply (bool_decide_eq_true_1 _).
  rewrite <- E, <- E'. field.
  intros E''. apply Hnz. rewrite <- E''. ring.
Qed.

Lemma historyFrom_length random startDate count : ∀ i runningValue,
  length (historyFrom random startDate i count runningValue) = count.
Proof.
  induction count as [|count IH]; intros i runningValue; cbn [historyFrom length];
    [done|by rewrite IH].
Qed.

(** What the loop of lines 340-351 keeps true: each point starts from
    the value of the point before it. *)
Lemma historyFrom_spec random startDate count : ∀ i runningValue k p,
  historyFrom random startDate i count runningValue !! k = Some p →
  let before :=
    match k with
    | O => runningValue
    | Datatypes.S k' =>
        from_option HistoryPoint.value 0
          (historyFrom random startDate i count runningValue !! k')
    end in
  HistoryPoint.date p = (startDate + Z.of_nat (i + k) * msPerDay)%Z ∧
  HistoryPoint.value p = before + HistoryPoint.change p ∧
  HistoryPoint.change p = before * (random (i + k)%nat * Q2Qc (1 # 10) - Q2Qc (5 # 100)) ∧
  HistoryPoint.changePercentage p =
    HistoryPoint.change p / (HistoryPoint.value p - HistoryPoint.change p) * Qc_of_Z 100 ∧
  (0 < runningValue → (∀ j, 0 ≤ random j ∧ random j < 1) → 0 < before).
Proof.
  induction count as [|count IH]; intros i runningValue k p; cbn [historyFrom]; [done|].
  destruct k as [|k].
  - intros [= <-]. cbn. rewrite Nat.add_0_r. repeat split; try done.
    unfold msPerDay. lia.
  - rewrite lookup_cons. intros Hp. specialize (IH _ _ _ _ Hp). cbn zeta in IH.
    destruct IH as (Hd & Hv & Hc & Hcp & Hpos).
    replace (i + Datatypes.S k)%nat with (Datatypes.S i + k)%nat by lia.
    assert (Hbefore :
      from_option HistoryPoint.value 0
        ((HistoryPoint.mk (startDate + Z.of_nat i * 24 * 60 * 60 * 1000)
            (runningValue + runningValue * (random i * Q2Qc (1 # 10) - Q2Qc (5 # 100)))
            (runningValue * (random i * Q2Qc (1 # 10) - Q2Qc (5 # 100)))
            (runningValue * (random i * Q2Qc (1 # 10) - Q2Qc (5 # 100)) /
               (runningValue + runningValue * (random i * Q2Qc (1 # 10) - Q2Qc (5 # 100)) -
                runningValue * (random i * Q2Qc (1 # 10) - Q2Qc (5 # 100))) * Qc_of_Z 100)
          :: historyFrom random startDate (Datatypes.S i) count
               (runningValue + runningValue * (random i * Q2Qc (1 # 10) - Q2Qc (5 # 100))))
         !! k) =
      match k with
      | O => runningValue + runningValue * (random i * Q2Qc (1 # 10) - Q2Qc (5 # 100))
      | Datatypes.S k' =>
          from_option HistoryPoint.value 0
            (historyFrom random startDate (Datatypes.S i) count
               (runningValue + runningValue * (random i * Q2Qc (1 # 10) - Q2Qc (5 # 100)))
             !! k')
      end).
    { by destruct k. }
    rewrite Hbefore. repeat split; try done.
    intros Hrv Hrandom. apply Hpos; [|done].
    destruct (Hrandom i) as [H0 H1]. by apply step_bounds.
Qed.

(** ** What a fulfilled call returns *)

Lemma analytics_settled random transactions startDate endDate a :
  calculatePortfolioAnalytics random transactions startDate endDate = Fulfilled a →
  ∃ totalValue totalCost unsorted,
    foldl distributionStep (0, 0, []) (assetHoldingsOf transactions) =
      (totalValue, totalCost, unsorted) ∧
    PortfolioAnalytics.assetDistribution a =
      sortDescending Asset.value (setPercentage totalValue <$> unsorted) ∧
    PortfolioAnalytics.topGainers a = topGainersOf (PortfolioAnalytics.assetDistribution a) ∧
    PortfolioAnalytics.topLosers a = topLosersOf (PortfolioAnalytics.assetDistribution a) ∧
    Forall (λ time, (Z.abs time ≤ maxTime)%Z) (historyTimes startDate endDate).
Proof.
  unfold calculatePortfolioAnalytics. destruct (decide _); [done|].
  destruct (decide _) as [|Hdates]; [done|]. cbn zeta.
  destruct (foldl distributionStep _ _) as [[tv tc] dist]. intros [= <-].
  exists tv, tc, dist. cbn. repeat split; try done.
  apply Forall_forall. intros time Hin.
  destruct (decide (Z.abs time ≤ maxTime)%Z) as [|Hbig]; [done|].
  destruct Hdates. apply Exists_exists. exists time. split; [done|lia].
Qed.

(** X11.  The asset distribution of a fulfilled call lists no symbol
    twice and is in decreasing order of value; every entry carries the
    symbol of some transaction, an amount that is positive, and as value
    that amount times the mock price of the symbol (1 for a symbol
    without a mock price). *)
Theorem distribution_structure random transactions startDate endDate a :
  plainSymbols transactions →
  calculatePortfolioAnalytics random transactions startDate endDate = Fulfilled a →
  let dist := PortfolioAnalytics.assetDistribution a in
  descending Asset.value dist ∧
  NoDup (Asset.symbol <$> dist) ∧
  Forall (λ x, (Asset.symbol x ∈ PortfolioTx.symbol <$> transactions) ∧
               0 < Asset.amount x ∧
               Asset.value x = Asset.amount x * currentPriceOf (Asset.symbol x)) dist.
Proof.
  intros _ (tv & tc & unsorted & Hfold & Hdist & _)%analytics_settled. cbn zeta.
  rewrite Hdist. destruct (listing transactions tv tc unsorted Hfold) as (Hnd & Hdom & Hall & _).
  cbn zeta in *.
  split; [apply sortDescending_sorted|]. split; [done|].
  apply Forall_forall. intros x Hin.
  eapply Forall_forall in Hall; [|exact Hin]. destruct Hall as (Ha & _ & Hv & _).
  destruct (proj1 (Hdom (Asset.symbol x))) as [Hsym Hpos];
    [by apply list_elem_of_fmap_2|].
  split; [done|]. split; [by rewrite Ha|by rewrite Ha].
Qed.

(** X13.  [topGainers] holds at most five entries, in decreasing order
    of gain and no symbol twice; each comes from a listed asset whose
    value exceeds its average price times its amount, and records that
    difference, which is positive.  It is a top five: such an asset is
    among them, or five are listed that each gained at least as much. *)
Theorem top_gainers random transactions startDate endDate a :
  plainSymbols transactions →
  calculatePortfolioAnalytics random transactions startDate endDate = Fulfilled a →
  let dist := PortfolioAnalytics.assetDistribution a in
  let top := PortfolioAnalytics.topGainers a in
  (length top ≤ 5)%nat ∧
  descending Gainer.gain top ∧
  NoDup (Gainer.symbol <$> top) ∧
  Forall (λ g, 0 < Gainer.gain g ∧
               ∃ x, x ∈ dist ∧ Gainer.symbol g = Asset.symbol x ∧
                    Gainer.name g = Asset.name x ∧
                    Asset.averagePrice x * Asset.amount x < Asset.value x ∧
                    Gainer.gain g =
                      Asset.value x - Asset.averagePrice x * Asset.amount x) top ∧
  (∀ x, x ∈ dist → Asset.averagePrice x * Asset.amount x < Asset.value x →
        Asset.symbol x ∈ Gainer.symbol <$> top ∨
        (length top = 5%nat ∧
         Forall (λ g, Asset.value x - Asset.averagePrice x * Asset.amount x ≤
                      Gainer.gain g) top)).
Proof.
  intros _ (tv & tc & unsorted & Hfold & Hdist & -> & _)%analytics_settled. cbn zeta.
  rewrite Hdist. destruct (listing transactions tv tc unsorted Hfold) as (Hnd & _).
  cbn zeta in *.
  set (dist := sortDescending Asset.value (setPercentage tv <$> unsorted)) in *.
  unfold topGainersOf. split; [|split; [|split; [|split]]].
  - rewrite length_take. lia.
  - apply descending_take, sortDescending_sorted.
  - by apply (top_NoDup _ _ _ Gainer.symbol Asset.symbol).
  - apply Forall_forall. intros g (x & Hin & Hgain & ->)%top_from.
    cbn [Gainer.gain Gainer.symbol Gainer.name]. split; [qc_lra|]. by exists x.
  - intros x Hin Hgain.
    match goal with
    | |- context [take 5 (sortDescending ?key (?f <$> filter ?P _))] =>
        destruct (top_complete key f P 5 dist x Hin Hgain) as [Htop|[Hlen Hle]]
    end.
    + left. by apply (list_elem_of_fmap_2 Gainer.symbol) in Htop.
    + right. by split.
Qed.

(** X14.  [topLosers] holds at most five entries, in decreasing order
    of loss and no symbol twice; each comes from a listed asset whose
    value is below its average price times its amount, and records that
    difference, which is positive.  It is a top five, and no symbol is
    both a gainer and a loser. *)
Theorem top_losers random transactions startDate endDate a :
  plainSymbols transactions →
  calculatePortfolioAnalytics random transactions startDate endDate = Fulfilled a →
  let dist := PortfolioAnalytics.assetDistribution a in
  let top := PortfolioAnalytics.topLosers a in
  (length top ≤ 5)%nat ∧
  descending Loser.loss top ∧
  NoDup (Loser.symbol <$> top) ∧
  Forall (λ l, 0 < Loser.loss l ∧
               ∃ x, x ∈ dist ∧ Loser.symbol l = Asset.symbol x ∧
                    Loser.name l = Asset.name x ∧
                    Asset.value x < Asset.averagePrice x * Asset.amount x ∧
                    Loser.loss l =
                      Asset.averagePrice x * Asset.amount x - Asset.value x) top ∧
  (∀ x, x ∈ dist → Asset.value x < Asset.averagePrice x * Asset.amount x →
        Asset.symbol x ∈ Loser.symbol <$> top ∨
        (length top = 5%nat ∧
         Forall (λ l, Asset.averagePrice x * Asset.amount x - Asset.value x ≤
                      Loser.loss l) top)) ∧
  (∀ g l, g ∈ PortfolioAnalytics.topGainers a → l ∈ top →
          Gainer.symbol g ≠ Loser.symbol l).
Proof.
  intros _ (tv & tc & unsorted & Hfold & Hdist & -> & -> & _)%analytics_settled. cbn zeta.
  rewrite Hdist. destruct (listing transactions tv tc unsorted Hfold) as (Hnd & _).
  cbn zeta in *.
  set (dist := sortDescending Asset.value (setPercentage tv <$> unsorted)) in *.
  unfold topLosersOf, topGainersOf. split; [|split; [|split; [|split; [|split]]]].
  - rewrite length_take. lia.
  - apply descending_take, sortDescending_sorted.
  - by apply (top_NoDup _ _ _ Loser.symbol Asset.symbol).
  - apply Forall_forall. intros l (x & Hin & Hloss & ->)%top_from.
    cbn [Loser.loss Loser.symbol Loser.name]. split; [qc_lra|]. by exists x.
  - intros x Hin Hloss.
    match goal with
    | |- context [take 5 (sortDescending ?key (?f <$> filter ?P _))] =>
        destruct (top_complete key f P 5 dist x Hin Hloss) as [Htop|[Hlen Hle]]
    end.
    + left. by apply (list_elem_of_fmap_2 Loser.symbol) in Htop.
    + right. by split.
  - intros g l (x & Hx & Hgain & ->)%top_from (y & Hy & Hloss & ->)%top_from.
    cbn [Gainer.symbol Loser.symbol]. intros E.
    assert (x = y) as -> by by eapply (NoDup_fmap_eq Asset.symbol dist).
    qc_lra.
Qed.

(** X16.  The mock history of a fulfilled call has [min(days, 30) + 1]
    points, [days] being the length of the period in days rounded up: at
    most 31, at least one when the period does not end before it
    starts, none when it ends a day or more before.  The points are one
    day apart from [startDate], within the range of [Date], and each
    starts from the value of the point before it (80% of [totalValue]
    for the first): its value is that value plus its change. *)
Theorem history_dates random transactions startDate endDate a :
  calculatePortfolioAnalytics random transactions startDate endDate = Fulfilled a →
  let history := PortfolioAnalytics.performanceHistory a in
  length history = Z.to_nat (Z.min (ceilDiv (endDate - startDate) msPerDay) 30 + 1) ∧
  (length history ≤ 31)%nat ∧
  ((startDate ≤ endDate)%Z → (1 ≤ length history)%nat) ∧
  ((endDate ≤ startDate - msPerDay)%Z → history = []) ∧
  ∀ i p, history !! i = Some p →
    let before :=
      match i with
      | O => PortfolioAnalytics.totalValue a * Q2Qc (8 # 10)
      | Datatypes.S i' => from_option HistoryPoint.value 0 (history !! i')
      end in
    HistoryPoint.date p = (startDate + Z.of_nat i * msPerDay)%Z ∧
    (Z.abs (HistoryPoint.date p) ≤ maxTime)%Z ∧
    HistoryPoint.value p = before + HistoryPoint.change p.
Proof.
  intros Hcall. destruct (analytics_settled _ _ _ _ _ Hcall) as (_ & _ & _ & _ & _ & _ & _ & Hdates).
  apply analytics_parts in Hcall as [-> _]. cbn zeta. unfold performanceHistoryOf.
  rewrite historyFrom_length.
  assert (Hdays : (startDate ≤ endDate →
                   0 ≤ ceilDiv (endDate - startDate) msPerDay)%Z).
  { intros Hle. unfold ceilDiv.
    assert ((- (endDate - startDate)) / msPerDay ≤ 0)%Z; [|lia].
    apply Z.div_le_upper_bound; [done|lia]. }
  assert (Hnone : (endDate ≤ startDate - msPerDay →
                   ceilDiv (endDate - startDate) msPerDay ≤ -1)%Z).
  { intros Hle. unfold ceilDiv.
    assert (1 ≤ (- (endDate - startDate)) / msPerDay)%Z; [|lia].
    apply Z.div_le_lower_bound; [done|lia]. }
  split; [done|]. split; [lia|]. split; [lia|]. split.
  { intros Hle. specialize (Hnone Hle).
    replace (Z.to_nat _) with 0%nat by lia. done. }
  intros i p Hp.
  assert (Hi : (i < Z.to_nat (Z.min (ceilDiv (endDate - startDate) msPerDay) 30 + 1))%nat).
  { apply lookup_lt_Some in Hp. by rewrite historyFrom_length in Hp. }
  apply historyFrom_spec in Hp. cbn zeta in Hp.
  destruct Hp as (Hd & Hv & _). cbn [Nat.add] in *.
  split; [done|]. split; [|done]. rewrite Hd.
  eapply Forall_forall in Hdates; [unfold msPerDay; exact Hdates|].
  unfold historyTimes. apply list_elem_of_fmap. exists i. split; [lia|].
  apply elem_of_seq. lia.
Qed.

(** ** The analytics at concrete inputs *)

Lemma portfolio_plain : plainSymbols portfolio.
Proof. unfold plainSymbols. apply (bool_decide_eq_true_1 _). vm_compute. reflexivity. Defined.

Lemma portfolio_fulfilled :
  calculatePortfolioAnalytics halves portfolio 0 (3 * msPerDay) =
  Fulfilled portfolioAnalytics.
Proof. vm_compute. reflexivity. Defined.

Lemma summary_partitions_transactions_witness :
  let summary := PortfolioAnalytics.transactionSummary portfolioAnalytics in
  TransactionSummary.totalTransactions summary = length portfolio ∧
  (TransactionSummary.buys summary + TransactionSummary.sells summary +
   TransactionSummary.transfers summary +
   length (filter (λ t, PortfolioTx.type t ≠ "BUY" ∧ PortfolioTx.type t ≠ "SELL" ∧
                        includes "TRANSFER" (PortfolioTx.type t) = false) portfolio) =
   TransactionSummary.totalTransactions summary)%nat ∧
  TransactionSummary.totalVolume summary = sumQc (PortfolioTx.totalUsd <$> portfolio).
Proof.
  exact (summary_partitions_transactions halves portfolio 0 (3 * msPerDay)
           portfolioAnalytics portfolio_fulfilled).
Defined.

Lemma distribution_structure_witness :
  descending Asset.value (PortfolioAnalytics.assetDistribution portfolioAnalytics) ∧
  NoDup (Asset.symbol <$> PortfolioAnalytics.assetDistribution portfolioAnalytics).
Proof.
  destruct (distribution_structure halves portfolio 0 (3 * msPerDay) portfolioAnalytics
              portfolio_plain portfolio_fulfilled) as (Hsorted & Hnd & _).
  split; [exact Hsorted|exact Hnd].
Defined.

Lemma top_gainers_witness :
  (length (PortfolioAnalytics.topGainers portfolioAnalytics) ≤ 5)%nat ∧
  descending Gainer.gain (PortfolioAnalytics.topGainers portfolioAnalytics) ∧
  NoDup (Gainer.symbol <$> PortfolioAnalytics.topGainers portfolioAnalytics).
Proof.
  destruct (top_gainers halves portfolio 0 (3 * msPerDay) portfolioAnalytics
              portfolio_plain portfolio_fulfilled) as (Hlen & Hsorted & Hnd & _).
  split; [exact Hlen|]. split; [exact Hsorted|exact Hnd].
Defined.

Lemma top_losers_witness :
  (length (PortfolioAnalytics.topLosers portfolioAnalytics) ≤ 5)%nat ∧
  ∀ g l, g ∈ PortfolioAnalytics.topGainers portfolioAnalytics →
         l ∈ PortfolioAnalytics.topLosers portfolioAnalytics →
         Gainer.symbol g ≠ Loser.symbol l.
Proof.
  destruct (top_losers halves portfolio 0 (3 * msPerDay) portfolioAnalytics
              portfolio_plain portfolio_fulfilled) as (Hlen & _ & _ & _ & _ & Hdisjoint).
  split; [exact Hlen|exact Hdisjoint].
Defined.

Lemma history_dates_witness :
  length (PortfolioAnalytics.performanceHistory portfolioAnalytics) = 4%nat ∧
  HistoryPoint.date <$> PortfolioAnalytics.performanceHistory portfolioAnalytics =
    [0; msPerDay; 2 * msPerDay; 3 * msPerDay]%Z.
Proof.
  destruct (history_dates halves portfolio 0 (3 * msPerDay) portfolioAnalytics
              portfolio_fulfilled) as (Hlen & _).
  split; [rewrite Hlen; reflexivity|]. vm_compute. reflexivity.
Defined.

(** * Import of transactions: properties *)

(** ** What a parsed transaction has passed *)

Lemma normalize_normal type : normalize type ∉ ["SENT"; "RECEIVED"; "INCOME"].
Proof.
  unfold normalize. cbn zeta. rewrite !not_elem_of_cons.
  repeat destruct (decide _); subst; repeat split; try done; apply not_elem_of_nil.
Qed.

Lemma not_falsy (a : option string) : ¬ falsy a → toString a ≠ "" ∧ a = Some (toString a).
Proof.
  unfold falsy. destruct a as [s|]; cbn; intros Hs.
  - split; [|done]. intros ->. apply Hs. by right.
  - destruct Hs. by left.
Qed.

Lemma mapRow_valid host mapping row platform t :
  mapRow host mapping row platform = Some t →
  ParsedTransaction.date t ≠ "" ∧ ParsedTransaction.asset t ≠ "" ∧
  isNaN host (ParsedTransaction.amount t) = false ∧
  isNaN host (ParsedTransaction.price t) = false ∧
  isNaN host (ParsedTransaction.total t) = false ∧
  (ParsedTransaction.type t ∉ ["SENT"; "RECEIVED"; "INCOME"]) ∧
  ParsedTransaction.exchange t = platform ∧
  (∀ fee, ParsedTransaction.fee t = Some fee → ∃ text, text ≠ "" ∧ fee = parseFloat host text).
Proof.
  unfold mapRow. cbn zeta. destruct (decide (_ ∨ _)) as [|Hok]; [done|].
  destruct (isNaN host _ || _ || _) eqn:Hnan; [done|]. intros [= <-]. cbn.
  apply orb_false_elim in Hnan as [Hnan Ht]. apply orb_false_elim in Hnan as [Ha Hp].
  split; [apply not_falsy; tauto|]. split; [apply not_falsy; tauto|].
  split; [done|]. split; [done|]. split; [done|]. split; [apply normalize_normal|].
  split; [done|]. intros fee. destruct (decide (falsy _)) as [|Hfee]; [done|].
  intros [= <-]. eexists. split; [|reflexivity]. by apply not_falsy.
Qed.

Lemma length_omap_le {A B : Type} (f : A → option B) (l : list A) :
  (length (omap f l) ≤ length l)%nat.
Proof.
  induction l as [|x l IH]; [done|]. cbn [omap list_omap length].
  destruct (f x); cbn [length]; lia.
Qed.

(** X18.  Every transaction [parseCSV] returns has passed the checks of
    the row mapper: its date and asset are non-empty, its amount, price
    and total are numbers ([isNaN] is false of them), its type is none of
    SENT, RECEIVED and INCOME (they are rewritten to SELL, BUY and BUY),
    its exchange is the platform as given, and a fee, if present, was
    parsed from a non-empty cell (it may still be [NaN]).  Rows that fail
    a check are dropped: there are at most as many transactions as
    non-blank lines after the header line, and none for a file of fewer
    than two non-blank lines. *)
Theorem parsed_transactions_are_checked host csvData platform :
  let parsed := parseCSV host csvData platform in
  Forall (λ t, ParsedTransaction.date t ≠ "" ∧ ParsedTransaction.asset t ≠ "" ∧
               isNaN host (ParsedTransaction.amount t) = false ∧
               isNaN host (ParsedTransaction.price t) = false ∧
               isNaN host (ParsedTransaction.total t) = false ∧
               (ParsedTransaction.type t ∉ ["SENT"; "RECEIVED"; "INCOME"]) ∧
               ParsedTransaction.exchange t = platform ∧
               (∀ fee, ParsedTransaction.fee t = Some fee →
                       ∃ text, text ≠ "" ∧ fee = parseFloat host text)) parsed ∧
  (length parsed ≤ length (linesOf host csvData) - 1)%nat ∧
  ((length (linesOf host csvData) < 2)%nat → parsed = []).
Proof.
  cbn zeta. unfold parseCSV. cbn zeta.
  destruct (decide (length (linesOf host csvData) < 2)%nat) as [Hfew|Hmany].
  { split; [constructor|]. split; [cbn; lia|done]. }
  split; [|split; [|lia]].
  - apply Forall_forall. intros t (line & _ & Ht)%list_elem_of_omap.
    unfold parseLine, mapCSVRowToTransaction in Ht. cbn zeta in Ht.
    by eapply mapRow_valid.
  - etrans; [apply length_omap_le|]. by rewrite length_drop.
Qed.

(** ** The platform and the columns *)

Lemma mapping_cases host platform :
  default generic (mappings (toLowerCase host platform)) ∈
    [coinbase; binance; generic; inherited].
Proof.
  unfold mappings. rewrite !elem_of_cons.
  repeat destruct (decide _); cbn [default]; tauto.
Qed.

Lemma orCell_falsy a b : falsy a → orCell a b = b.
Proof. intros [-> | ->]; [done|]. cbn. by rewrite decide_True. Qed.

Lemma orCell_idem a : orCell a a = a.
Proof. destruct a as [s|]; [|done]. cbn. by destruct (decide _); subst. Qed.

Lemma mapRow_generic host mapping row platform :
  mapping ∈ [coinbase; binance; generic; inherited] →
  Forall (λ key, falsy (cell row (Some key))) platformColumns →
  mapRow host mapping row platform = mapRow host generic row platform.
Proof.
  intros Hmapping Hcolumns. unfold platformColumns in Hcolumns.
  repeat (apply Forall_cons in Hcolumns as [? Hcolumns]).
  assert (Hgeneric : generic =
            Mapping.mk (Some "date") (Some "type") (Some "asset") (Some "amount")
              (Some "price") (Some "total") (Some "fee") (Some "tx_hash")) by done.
  rewrite !elem_of_cons in Hmapping.
  destruct Hmapping as [->|[->|[->|[->|[]%elem_of_nil]]]]; [| |done|];
    rewrite Hgeneric; unfold mapRow, coinbase, binance, inherited;
    cbn [Mapping.date Mapping.type Mapping.asset Mapping.amount Mapping.price
         Mapping.total Mapping.fee Mapping.txHash];
    change (cell row None) with (cell row (Some "undefined"));
    repeat match goal with
    | H : falsy ?a |- context [orCell ?a ?b] => rewrite (orCell_falsy a b H)
    end;
    by rewrite !orCell_idem.
Qed.

Lemma mapRow_exchange host mapping row platform platform' :
  mapRow host mapping row platform =
  withExchange platform <$> mapRow host mapping row platform'.
Proof.
  unfold mapRow. cbn zeta. destruct (decide (_ ∨ _)); [done|].
  by destruct (isNaN host _ || _ || _).
Qed.

(** X19.  A row in the generic columns is read alike on every
    platform: when the row has nothing under the names only some mapping
    reads first (timestamp, quantity, fees, transaction_id, coin, tx_id)
    nor under the name undefined, the platform changes the result in its
    [exchange] field only, whether it is coinbase, binance, generic,
    unknown, or the name of a member of [Object.prototype]. *)
Theorem generic_columns_on_any_platform host row platform platform' :
  Forall (λ key, falsy (cell row (Some key))) platformColumns →
  mapCSVRowToTransaction host row platform =
  withExchange platform <$> mapCSVRowToTransaction host row platform'.
Proof.
  intros Hcolumns. unfold mapCSVRowToTransaction. cbn zeta.
  rewrite (mapRow_generic host _ row platform (mapping_cases host platform) Hcolumns).
  rewrite (mapRow_generic host _ row platform' (mapping_cases host platform') Hcolumns).
  apply mapRow_exchange.
Qed.

(** ** How a row is filled *)

Lemma fillRow_lookup values headers : ∀ index row key,
  key ≠ "__proto__" →
  fillRow headers index values row !! key =
    match lastIndexOf key headers with
    | Some i => Some (values !! (index + i)%nat)
    | None => row !! key
    end.
Proof.
  induction headers as [|header headers IH]; intros index row key Hkey;
    cbn [fillRow lastIndexOf]; [done|].
  rewrite IH by done. destruct (lastIndexOf key headers) as [i|].
  - by rewrite Nat.add_succ_r.
  - unfold setCell. destruct (decide (header = key)) as [->|Hne].
    + rewrite decide_False by done. rewrite Nat.add_0_r. apply lookup_insert_eq.
    + destruct (decide (header = "__proto__")); [done|]. by apply lookup_insert_ne.
Qed.

(** X20.  A cell is read from the last column of its name: in the row
    [parseCSV] fills from a header line and the values of a line, the
    cell under a name that is not a member of [Object.prototype] (such
    as constructor, toString or __proto__) is the value at the position
    of the last header of that name, [undefined] when the line is too
    short to have one, even if an earlier column of the same name has a
    value, and when no header has the name. *)
Theorem cell_reads_last_column headers values key :
  key ∉ objectPrototypeNames →
  cell (fillRow headers 0 values ∅) (Some key) =
    match lastIndexOf key headers with
    | Some index => values !! index
    | None => None
    end.
Proof.
  intros Hmember. unfold cell. change (default "undefined" (Some key)) with key.
  assert (Hkey : key ≠ "__proto__").
  { intros ->. apply Hmember. by apply (bool_decide_eq_true_1 _). }
  rewrite fillRow_lookup by done. destruct (lastIndexOf key headers); [done|].
  assert (E : (∅ : Row) !! key = None) by apply lookup_empty.
  by rewrite E.
Qed.

(** ** The import at concrete inputs *)

Lemma exampleRow_generic : Forall (λ key, falsy (cell exampleRow (Some key))) platformColumns.
Proof. apply (bool_decide_eq_true_1 _). vm_compute. reflexivity. Defined.

Lemma parsed_transactions_are_checked_witness :
  Forall (λ t, (ParsedTransaction.type t ∉ ["SENT"; "RECEIVED"; "INCOME"]) ∧
               ParsedTransaction.exchange t = "Kraken")
    (parseCSV digitsHost exampleCsv "Kraken") ∧
  (length (parseCSV digitsHost exampleCsv "Kraken") ≤
   length (linesOf digitsHost exampleCsv) - 1)%nat.
Proof.
  destruct (parsed_transactions_are_checked digitsHost exampleCsv "Kraken")
    as (Hall & Hlen & _).
  split; [|exact Hlen]. eapply Forall_impl; [exact Hall|].
  intros t (_ & _ & _ & _ & _ & Htype & Hexchange & _). by split.
Defined.

Lemma generic_columns_on_any_platform_witness :
  mapCSVRowToTransaction digitsHost exampleRow "Coinbase" =
  withExchange "Coinbase" <$> mapCSVRowToTransaction digitsHost exampleRow "constructor".
Proof.
  exact (generic_columns_on_any_platform digitsHost exampleRow "Coinbase" "constructor"
           exampleRow_generic).
Defined.

Lemma cell_reads_last_column_witness :
  ("date" ∉ objectPrototypeNames) ∧
  cell (fillRow ["date"; "type"; "date"] 0 ["2024-01-05"; "BUY"] ∅) (Some "date") = None.
Proof.
  assert (Hkey : "date" ∉ objectPrototypeNames).
  { apply (bool_decide_eq_true_1 _). vm_compute. reflexivity. }
  split; [exact Hkey|].
  exact (cell_reads_last_column ["date"; "type"; "date"] ["2024-01-05"; "BUY"] "date" Hkey).
Defined.

(** * The function on doubles: properties *)

(** ** Facts on doubles *)

Lemma double_sub_nan (x : float) : Prim2SF (PrimFloat.sub x nan) = S754_nan.
Proof.
  rewrite FloatAxioms.sub_spec. change (Prim2SF nan) with S754_nan.
  unfold SF64sub, SFsub. by destruct (Prim2SF x) as [[]|[]| |[] ? ?].
Qed.

Lemma double_not_above_nan (x y : float) :
  Prim2SF y = S754_nan → PrimFloat.ltb x y = false.
Proof.
  intros E. rewrite FloatAxioms.ltb_spec, E. unfold SFltb, SFcompare.
  by destruct (Prim2SF x).
Qed.

(** [x - x] is [+0], or [NaN] when [x] is not finite: never positive. *)
Lemma double_sub_self (x : float) : PrimFloat.ltb 0 (PrimFloat.sub x x) = false.
Proof.
  rewrite FloatAxioms.ltb_spec, FloatAxioms.sub_spec.
  change (Prim2SF 0) with (S754_zero false).
  unfold SF64sub, SFsub. destruct (Prim2SF x) as [[]|[]| |s m e]; try reflexivity.
  rewrite Z.sub_diag. reflexivity.
Qed.

Lemma double_eqb_self (x : float) : is_nan x = false → PrimFloat.eqb x x = true.
Proof. unfold is_nan. by intros ->%negb_false_iff. Qed.

Lemma Math_min_cases (x y : float) :
  Double.Math_min x y = nan ∨ Double.Math_min x y = x ∨
  (Double.Math_min x y = y ∧ is_nan y = false).
Proof.
  unfold Double.Math_min. destruct (is_nan x); [by left|].
  destruct (is_nan y) eqn:Hy; [by left|]. cbn [orb].
  destruct (PrimFloat.ltb x y); [by right; left|].
  destruct (PrimFloat.ltb y x); [by right; right|].
  destruct (get_sign x); [by right; left|by right; right].
Qed.

(** After a partial match nothing remains to match: the amount taken is
    the remainder itself, or [NaN]. *)
Lemma partial_match_ends (remaining amount : float) :
  PrimFloat.eqb (Double.Math_min remaining amount) amount = false →
  PrimFloat.ltb 0 (PrimFloat.sub remaining (Double.Math_min remaining amount)) = false.
Proof.
  intros Hpart. destruct (Math_min_cases remaining amount) as [E|[E|[E Hnan]]];
    rewrite E in *.
  - apply double_not_above_nan, double_sub_nan.
  - apply double_sub_self.
  - by rewrite double_eqb_self in Hpart.
Qed.

(** ** One iteration, and the shape of a loop run *)

Lemma double_record_detailOf tx lot remaining r :
  Double.pushDetail (Double.detailOf tx lot remaining)
    (Double.updateTotals (Double.Detail.gainLoss (Double.detailOf tx lot remaining))
       (Double.isLongTerm (Double.Transaction.timestamp tx) (Double.TaxLot.acquiredAt lot)) r) =
  Double.record r (Double.detailOf tx lot remaining).
Proof.
  unfold Double.record. do 2 f_equal. unfold Double.detailOf.
  cbn [Double.Detail.term].
  by destruct (Double.isLongTerm (Double.Transaction.timestamp tx)
                 (Double.TaxLot.acquiredAt lot)).
Qed.

Lemma double_body_cons tx h ref rest r remaining tcb :
  Double.sell_body tx (Double.mkSell (Double.mkState h (ref :: rest) r) remaining tcb) =
  let lot := h !!! ref in
  let d := Double.detailOf tx lot remaining in
  Double.mkSell
    (if PrimFloat.eqb (Double.Detail.amount d) (Double.TaxLot.amount lot)
     then Double.mkState h rest (Double.record r d)
     else Double.mkState
            (<[ref := Double.TaxLot.consume lot (Double.Detail.amount d)
                        (Double.Detail.costBasis d)]> h)
            (ref :: rest) (Double.record r d))
    (PrimFloat.sub remaining (Double.Detail.amount d))
    (PrimFloat.add tcb (Double.Detail.costBasis d)).
Proof.
  unfold Double.sell_body. cbn [Double.availableLots Double.outer Double.heap
    Double.result Double.remainingAmount Double.totalCostBasis]. cbn zeta.
  by rewrite double_record_detailOf.
Qed.

Lemma double_cond_no_lots h r remaining tcb :
  Double.sell_cond (Double.mkSell (Double.mkState h [] r) remaining tcb) = false.
Proof. unfold Double.sell_cond. cbn. apply andb_false_r. Qed.

Lemma double_cond_not_positive s :
  PrimFloat.ltb 0 (Double.remainingAmount s) = false → Double.sell_cond s = false.
Proof. unfold Double.sell_cond. by intros ->. Qed.

(** What a run of the loop looks like: [k] lots matched whole, then at
    most one matched in part. *)
Lemma double_loop_shape tx : ∀ n q h r remaining tcb,
  (length q ≤ n)%nat →
  let s' := while n Double.sell_cond (Double.sell_body tx)
              (Double.mkSell (Double.mkState h q r) remaining tcb) in
  ∃ k ds, (k ≤ length q)%nat ∧
    Double.availableLots (Double.outer s') = drop k q ∧
    Double.result (Double.outer s') = foldl Double.record r ds ∧
    Double.totalCostBasis s' = foldl PrimFloat.add tcb (Double.Detail.costBasis <$> ds) ∧
    Double.sell_cond s' = false ∧
    Forall2 (λ ref d, Double.wholeLot tx (h !!! ref) d) (take k q) (take k ds) ∧
    ((Double.heap (Double.outer s') = h ∧ length ds = k) ∨
     (∃ ref d, q !! k = Some ref ∧ ds = take k ds ++ [d] ∧ length ds = Datatypes.S k ∧
        Double.partOfLot tx (h !!! ref) d ∧
        Double.heap (Double.outer s') =
          <[ref := Double.TaxLot.consume (h !!! ref) (Double.Detail.amount d)
                     (Double.Detail.costBasis d)]> h ∧
        PrimFloat.ltb 0 (Double.remainingAmount s') = false)).
Proof.
  induction n as [|n IH]; intros q h r remaining tcb Hlen; cbn zeta.
  - destruct q as [|? ?]; [|cbn in Hlen; lia]. cbn [while].
    exists 0%nat, []. cbn. repeat split; try done.
    + apply double_cond_no_lots.
    + by left.
  - cbn [while].
    destruct (Double.sell_cond (Double.mkSell (Double.mkState h q r) remaining tcb)) eqn:Hcond.
    2:{ exists 0%nat, []. cbn. repeat split; try done; [lia|by left]. }
    destruct q as [|ref rest]; [by rewrite double_cond_no_lots in Hcond|].
    rewrite double_body_cons. cbn zeta.
    set (d := Double.detailOf tx (h !!! ref) remaining).
    destruct (PrimFloat.eqb (Double.Detail.amount d) (Double.TaxLot.amount (h !!! ref)))
      eqn:Hwhole.
    + cbn [length] in Hlen.
      destruct (IH rest h (Double.record r d)
                  (PrimFloat.sub remaining (Double.Detail.amount d))
                  (PrimFloat.add tcb (Double.Detail.costBasis d)) ltac:(lia))
        as (k & ds & Hk & Hq & Hr & Hc & Hexit & Hall & Hheap).
      exists (Datatypes.S k), (d :: ds). cbn [length drop take foldl fmap list_fmap].
      split; [lia|]. split; [done|]. split; [done|]. split; [done|]. split; [done|].
      split.
      * constructor; [|done]. split; [by exists remaining|done].
      * destruct Hheap as [[Hh Hl]|(ref' & d' & Hat & Hds & Hl & Hpart & Hh & Hrem)].
        -- left. split; [done|]. by rewrite Hl.
        -- right. exists ref', d'. cbn [lookup list_lookup]. split; [done|].
           split; [exact (f_equal (cons d) Hds)|]. split; [by rewrite Hl|]. done.
    + assert (Hend : PrimFloat.ltb 0 (PrimFloat.sub remaining (Double.Detail.amount d)) = false)
        by (by apply partial_match_ends).
      rewrite while_cond_false by (by apply double_cond_not_positive).
      exists 0%nat, [d]%list. cbn. split; [lia|]. split; [done|]. split; [done|].
      split; [done|]. split; [by apply double_cond_not_positive|]. split; [constructor|].
      right. exists ref, d. split; [done|]. split; [done|]. split; [done|].
      split; [|done]. split; [by exists remaining|done].
Qed.

(** ** One disposal *)

Lemma double_record_fields r d :
  Double.GainLossCalculation.costBasis (Double.record r d) =
    Double.GainLossCalculation.costBasis r ∧
  Double.GainLossCalculation.proceeds (Double.record r d) =
    Double.GainLossCalculation.proceeds r ∧
  Double.GainLossCalculation.transactions (Double.record r d) =
    Double.GainLossCalculation.transactions r ++ [d].
Proof.
  destruct r. unfold Double.record, Double.updateTotals, Double.pushDetail.
  by destruct (PrimFloat.ltb _ _), (bool_decide _).
Qed.

Lemma double_records_fields ds : ∀ r,
  Double.GainLossCalculation.costBasis (foldl Double.record r ds) =
    Double.GainLossCalculation.costBasis r ∧
  Double.GainLossCalculation.proceeds (foldl Double.record r ds) =
    Double.GainLossCalculation.proceeds r ∧
  Double.GainLossCalculation.transactions (foldl Double.record r ds) =
    Double.GainLossCalculation.transactions r ++ ds.
Proof.
  induction ds as [|d ds IH]; intros r; cbn [foldl].
  - by rewrite app_nil_r.
  - destruct (IH (Double.record r d)) as (-> & -> & ->).
    destruct (double_record_fields r d) as (-> & -> & ->).
    by rewrite <- app_assoc.
Qed.

Lemma double_addSale_fields tcb tp r :
  Double.GainLossCalculation.costBasis (Double.addSale tcb tp r) =
    PrimFloat.add (Double.GainLossCalculation.costBasis r) tcb ∧
  Double.GainLossCalculation.proceeds (Double.addSale tcb tp r) =
    PrimFloat.add (Double.GainLossCalculation.proceeds r) tp ∧
  Double.GainLossCalculation.transactions (Double.addSale tcb tp r) =
    Double.GainLossCalculation.transactions r.
Proof. by destruct r. Qed.

(** A SELL event, from the shape of its loop. *)
Lemma double_process_sell s tx :
  Double.Transaction.type tx = "SELL" →
  ∃ k ds, (k ≤ length (Double.availableLots s))%nat ∧
    Double.availableLots (Double.process s tx) = drop k (Double.availableLots s) ∧
    Double.result (Double.process s tx) =
      Double.addSale (Double.sum (Double.Detail.costBasis <$> ds))
        (Double.Transaction.totalUsd tx) (foldl Double.record (Double.result s) ds) ∧
    Double.newDetails s tx = ds ∧
    (Double.availableLots (Double.process s tx) = [] ∨
     PrimFloat.ltb 0 (Double.unmatched s tx) = false) ∧
    Forall2 (λ ref d, Double.wholeLot tx (Double.heap s !!! ref) d)
      (take k (Double.availableLots s)) (take k ds) ∧
    ((Double.heap (Double.process s tx) = Double.heap s ∧ length ds = k) ∨
     (∃ ref d, Double.availableLots s !! k = Some ref ∧ ds = take k ds ++ [d] ∧
        length ds = Datatypes.S k ∧
        Double.partOfLot tx (Double.heap s !!! ref) d ∧
        Double.heap (Double.process s tx) =
          <[ref := Double.TaxLot.consume (Double.heap s !!! ref) (Double.Detail.amount d)
                     (Double.Detail.costBasis d)]> (Double.heap s) ∧
        PrimFloat.ltb 0 (Double.unmatched s tx) = false)).
Proof.
  intros Hsell. unfold Double.newDetails, Double.unmatched, Double.details, Double.process.
  assert (Hbuy : Double.Transaction.type tx ≠ "BUY") by (by rewrite Hsell).
  rewrite decide_False, decide_True by done. cbn zeta. unfold Double.sell_loop.
  destruct s as [h q r].
  cbn [Double.outer Double.availableLots Double.heap Double.result].
  destruct (double_loop_shape tx (length q) q h r (Double.Transaction.amount tx)
              PrimFloat.zero ltac:(done))
    as (k & ds & Hk & Hq & Hr & Hc & Hexit & Hall & Hheap).
  set (s' := while _ _ _ _) in *.
  exists k, ds. split; [done|]. split; [done|]. split; [by rewrite Hr, Hc|].
  split.
  { destruct (double_addSale_fields (Double.totalCostBasis s')
                (Double.Transaction.totalUsd tx) (Double.result (Double.outer s')))
      as (_ & _ & ->).
    rewrite Hr. destruct (double_records_fields ds r) as (_ & _ & ->).
    by rewrite drop_app_length. }
  split.
  { unfold Double.sell_cond in Hexit. apply andb_false_iff in Hexit as [Hrem|Hempty].
    - by right.
    - left. apply bool_decide_eq_false in Hempty.
      destruct (Double.availableLots (Double.outer s')); [done|]. cbn in Hempty. lia. }
  split; [done|]. done.
Qed.

(** X1.  First in, first out, on doubles.  A disposal takes lots from
    the front of the queue only, in queue order: some number [k] of them
    are matched whole ([lotAmount === lot.amount]), each giving one
    record and leaving the queue with its object unaltered; after them
    at most one more lot, the head of the queue that is left, is matched
    in part: it gives the last record, it alone is altered (amount and
    cost basis reduced by the record's), it stays queued, and nothing
    remains to match after it. *)
Theorem fifo_on_doubles (s : Double.State) (tx : Double.Transaction.t) :
  Double.Transaction.type tx = "SELL" →
  ∃ k, (k ≤ length (Double.availableLots s))%nat ∧
    Double.availableLots (Double.process s tx) = drop k (Double.availableLots s) ∧
    Forall2 (λ ref d, Double.wholeLot tx (Double.heap s !!! ref) d)
      (take k (Double.availableLots s)) (take k (Double.newDetails s tx)) ∧
    ((Double.heap (Double.process s tx) = Double.heap s ∧
      length (Double.newDetails s tx) = k) ∨
     (∃ ref d, Double.availableLots s !! k = Some ref ∧
        Double.newDetails s tx = take k (Double.newDetails s tx) ++ [d] ∧
        Double.partOfLot tx (Double.heap s !!! ref) d ∧
        Double.heap (Double.process s tx) =
          <[ref := Double.TaxLot.consume (Double.heap s !!! ref) (Double.Detail.amount d)
                     (Double.Detail.costBasis d)]> (Double.heap s) ∧
        PrimFloat.ltb 0 (Double.unmatched s tx) = false)).
Proof.
  intros Hsell.
  destruct (double_process_sell s tx Hsell)
    as (k & ds & Hk & Hq & _ & -> & _ & Hall & Hheap).
  exists k. split; [done|]. split; [done|]. split; [done|].
  destruct Hheap as [?|(ref & d & ? & ? & ? & ? & ? & ?)]; [by left|].
  right. by exists ref, d.
Qed.

(** C1, as amended.  A disposal raises no error, whatever the lots
    hold: the promise is resolved and the whole [totalUsd] is added to
    [proceeds].  When the loop ends with a part of the quantity still
    to match ([remainingAmount > 0], as the doubles compute it), the
    queue is empty, every lot that was queued has been matched whole, in
    queue order, and no lot object has been altered; the remainder is
    dropped. *)
Theorem shortfall_is_dropped (s : Double.State) (tx : Double.Transaction.t)
    (yearStart yearEnd : Z) :
  Double.Transaction.type tx = "SELL" →
  (Double.calculateGainsLosses [tx] (Double.availableLots s) yearStart yearEnd
     (Double.heap s)).1 =
    Resolved (Double.result (Double.run [tx] (Double.availableLots s) (Double.heap s))) ∧
  Double.GainLossCalculation.proceeds (Double.result (Double.process s tx)) =
    PrimFloat.add (Double.GainLossCalculation.proceeds (Double.result s))
      (Double.Transaction.totalUsd tx) ∧
  (PrimFloat.ltb 0 (Double.unmatched s tx) = true →
     Double.availableLots (Double.process s tx) = [] ∧
     Double.heap (Double.process s tx) = Double.heap s ∧
     Forall2 (λ ref d, Double.wholeLot tx (Double.heap s !!! ref) d)
       (Double.availableLots s) (Double.newDetails s tx)).
Proof.
  intros Hsell. split; [done|].
  destruct (double_process_sell s tx Hsell)
    as (k & ds & Hk & Hq & Hr & -> & Hexit & Hall & Hheap).
  split.
  { rewrite Hr.
    destruct (double_addSale_fields (Double.sum (Double.Detail.costBasis <$> ds))
                (Double.Transaction.totalUsd tx) (foldl Double.record (Double.result s) ds))
      as (_ & -> & _).
    by destruct (double_records_fields ds (Double.result s)) as (_ & -> & _). }
  intros Hshort.
  destruct Hexit as [Hempty|Hrem]; [|by rewrite Hrem in Hshort].
  destruct Hheap as [[Hh Hl]|(? & ? & _ & _ & _ & _ & _ & Hrem)];
    [|by rewrite Hrem in Hshort].
  split; [done|]. split; [done|].
  assert (k = length (Double.availableLots s)) as E.
  { rewrite Hq in Hempty. apply (f_equal length) in Hempty.
    rewrite length_drop in Hempty. cbn in Hempty. lia. }
  rewrite E in Hall. rewrite firstn_all in Hall.
  rewrite <- E, <- Hl, firstn_all in Hall. done.
Qed.

(** ** The totals of a run *)

Lemma double_sum_snoc l x : Double.sum (l ++ [x]) = PrimFloat.add (Double.sum l) x.
Proof. unfold Double.sum. by rewrite foldl_app. Qed.

Lemma filter_snoc {A : Type} (P : A → Prop) `{!∀ x, Decision (P x)} (l : list A) x :
  filter P (l ++ [x]) = filter P l ++ (if decide (P x) then [x] else []).
Proof. by rewrite filter_app, filter_cons, filter_nil. Qed.

Lemma double_setNet_fields r :
  Double.GainLossCalculation.costBasis (Double.setNet r) =
    Double.GainLossCalculation.costBasis r ∧
  Double.GainLossCalculation.proceeds (Double.setNet r) =
    Double.GainLossCalculation.proceeds r ∧
  Double.GainLossCalculation.transactions (Double.setNet r) =
    Double.GainLossCalculation.transactions r ∧
  Double.GainLossCalculation.netGainLoss (Double.setNet r) =
    PrimFloat.sub (Double.GainLossCalculation.totalGains r)
      (Double.GainLossCalculation.totalLosses r).
Proof. by destruct r. Qed.

Lemma double_process_cases (P : Double.State → Prop) s tx :
  (Double.Transaction.type tx = "BUY" →
   P (Double.mkState (Double.heap s ++ [Double.newLot tx])
        (Double.availableLots s ++ [length (Double.heap s)]) (Double.result s))) →
  (Double.Transaction.type tx = "SELL" → P (Double.process s tx)) →
  (Double.Transaction.type tx ≠ "BUY" → Double.Transaction.type tx ≠ "SELL" → P s) →
  P (Double.process s tx).
Proof.
  intros Hbuy Hsell Hother. unfold Double.process in *.
  destruct (decide (Double.Transaction.type tx = "BUY")) as [E|E]; [by apply Hbuy|].
  destruct (decide (Double.Transaction.type tx = "SELL")) as [E'|E']; [by apply Hsell|].
  by apply Hother.
Qed.

Lemma double_newDetails_other s tx :
  Double.Transaction.type tx ≠ "SELL" →
  Double.result (Double.process s tx) = Double.result s.
Proof.
  intros Hne. unfold Double.process.
  destruct (decide (_ = "BUY")); [done|]. by rewrite decide_False.
Qed.

Lemma double_run_totals txs : ∀ s,
  Double.GainLossCalculation.costBasis (Double.result (foldl Double.process s txs)) =
    foldl PrimFloat.add (Double.GainLossCalculation.costBasis (Double.result s))
      ((λ group, Double.sum (Double.Detail.costBasis <$> group)) <$>
         Double.saleGroups s txs) ∧
  Double.GainLossCalculation.proceeds (Double.result (foldl Double.process s txs)) =
    foldl PrimFloat.add (Double.GainLossCalculation.proceeds (Double.result s))
      (Double.Transaction.totalUsd <$>
         filter (λ tx, Double.Transaction.type tx = "SELL") txs) ∧
  Double.details (foldl Double.process s txs) =
    Double.details s ++ concat (Double.saleGroups s txs).
Proof.
  induction txs as [|tx txs IH]; intros s; cbn [foldl Double.saleGroups].
  - cbn. by rewrite app_nil_r.
  - destruct (IH (Double.process s tx)) as (-> & -> & ->). rewrite filter_cons.
    destruct (decide (Double.Transaction.type tx = "SELL")) as [Hsell|Hother].
    + destruct (double_process_sell s tx Hsell) as (k & ds & _ & _ & Hr & Hnew & _).
      unfold Double.details. rewrite Hr, Hnew.
      destruct (double_addSale_fields (Double.sum (Double.Detail.costBasis <$> ds))
                  (Double.Transaction.totalUsd tx)
                  (foldl Double.record (Double.result s) ds)) as (-> & -> & ->).
      destruct (double_records_fields ds (Double.result s)) as (-> & -> & ->).
      cbn [app fmap list_fmap foldl concat]. by rewrite <- app_assoc.
    + unfold Double.details. by rewrite double_newDetails_other.
Qed.

(** C5, as amended.  The summary's [costBasis] is the sum the code
    computes: the records fall into one group per SELL event, in order;
    the cost bases of a group are added up from 0, and the group sums
    are added up from 0, every addition rounded to a double.  Its
    [proceeds] is the sum, from 0, of [totalUsd] over the SELL events,
    whether matched or not.  (Neither need be the sum over the
    records.) *)
Theorem totals_as_accumulated (transactions : list Double.Transaction.t)
    (previousTaxLots : list nat) (h : list Double.TaxLot.t) :
  let start := Double.mkState h previousTaxLots Double.GainLossCalculation.initial in
  let s := Double.run transactions previousTaxLots h in
  Double.details s = concat (Double.saleGroups start transactions) ∧
  Double.GainLossCalculation.costBasis (Double.result s) =
    Double.sum ((λ group, Double.sum (Double.Detail.costBasis <$> group)) <$>
                  Double.saleGroups start transactions) ∧
  Double.GainLossCalculation.proceeds (Double.result s) =
    Double.sum (Double.Transaction.totalUsd <$>
                  filter (λ tx, Double.Transaction.type tx = "SELL") transactions).
Proof.
  cbn zeta. unfold Double.run, Double.details. cbn zeta. cbn [Double.result].
  destruct (double_setNet_fields
              (Double.result (foldl Double.process
                 (Double.mkState h previousTaxLots Double.GainLossCalculation.initial)
                 transactions))) as (-> & -> & -> & _).
  destruct (double_run_totals transactions
              (Double.mkState h previousTaxLots Double.GainLossCalculation.initial))
    as (Hc & Hp & Hd).
  unfold Double.details in Hd. by rewrite Hc, Hp, Hd.
Qed.

(** ** Routing of gains and losses on doubles *)

Lemma totals_in_order_initial : Double.totals_in_order Double.GainLossCalculation.initial.
Proof. by repeat split. Qed.

Lemma decide_inBucket {A : Type} t gain d (x y : A) :
  (if decide (Double.inBucket t gain d) then x else y) =
  if bool_decide (Double.Detail.term d = t) &&
     Bool.eqb (PrimFloat.ltb 0 (Double.Detail.gainLoss d)) gain
  then x else y.
Proof.
  destruct (decide _) as [[H1 H2]|Hn].
  - by rewrite bool_decide_eq_true_2, H2, eqb_reflx.
  - destruct (bool_decide _) eqn:H1; [|done].
    destruct (Bool.eqb _ _) eqn:H2; [|done].
    destruct Hn. split; [by apply bool_decide_eq_true in H1|by apply eqb_prop].
Qed.

Lemma decide_isGain {A : Type} d (x y : A) :
  (if decide (Double.isGain d) then x else y) =
  if PrimFloat.ltb 0 (Double.Detail.gainLoss d) then x else y.
Proof.
  unfold Double.isGain. destruct (decide _) as [->|Hn]; [done|].
  by destruct (PrimFloat.ltb _ _).
Qed.

Lemma decide_not_isGain {A : Type} d (x y : A) :
  (if decide (¬ Double.isGain d) then x else y) =
  if PrimFloat.ltb 0 (Double.Detail.gainLoss d) then y else x.
Proof.
  unfold Double.isGain. destruct (decide _) as [Hn|Hn].
  - by destruct (PrimFloat.ltb _ _).
  - destruct (PrimFloat.ltb _ _); [done|]. by destruct Hn.
Qed.

Lemma totals_in_order_record r d :
  Double.totals_in_order r → Double.totals_in_order (Double.record r d).
Proof.
  unfold Double.totals_in_order, Double.bucketSum. cbn zeta.
  destruct (double_record_fields r d) as (_ & _ & ->).
  rewrite !filter_snoc, !decide_inBucket, decide_isGain, decide_not_isGain.
  intros (H1 & H2 & H3 & H4 & H5 & H6).
  destruct r as [stg ltg stl ltl tg tl net cb pr txs].
  unfold Double.record, Double.updateTotals, Double.pushDetail.
  cbn [Double.GainLossCalculation.shortTermGains Double.GainLossCalculation.longTermGains
       Double.GainLossCalculation.shortTermLosses Double.GainLossCalculation.longTermLosses
       Double.GainLossCalculation.totalGains Double.GainLossCalculation.totalLosses
       Double.GainLossCalculation.transactions] in *.
  destruct (PrimFloat.ltb 0 (Double.Detail.gainLoss d)), (Double.Detail.term d);
    rewrite ?(bool_decide_eq_true_2 (short = short)), ?(bool_decide_eq_true_2 (long = long)),
      ?(bool_decide_eq_false_2 (short = long)), ?(bool_decide_eq_false_2 (long = short))
      by done;
    cbn [andb Bool.eqb];
    cbn [Double.GainLossCalculation.shortTermGains Double.GainLossCalculation.longTermGains
         Double.GainLossCalculation.shortTermLosses Double.GainLossCalculation.longTermLosses
         Double.GainLossCalculation.totalGains Double.GainLossCalculation.totalLosses
         Double.GainLossCalculation.transactions];
    rewrite ?fmap_app, ?app_nil_r; cbn [fmap list_fmap]; rewrite ?double_sum_snoc.
  all: repeat split; congruence.
Qed.

Lemma totals_in_order_records ds : ∀ r,
  Double.totals_in_order r → Double.totals_in_order (foldl Double.record r ds).
Proof.
  induction ds as [|d ds IH]; intros r Hr; cbn [foldl]; [done|].
  by apply IH, totals_in_order_record.
Qed.

Lemma totals_in_order_addSale tcb tp r :
  Double.totals_in_order r → Double.totals_in_order (Double.addSale tcb tp r).
Proof. by destruct r. Qed.

Lemma totals_in_order_run txs : ∀ s,
  Double.totals_in_order (Double.result s) →
  Double.totals_in_order (Double.result (foldl Double.process s txs)).
Proof.
  induction txs as [|tx txs IH]; intros s Hs; cbn [foldl]; [done|]. apply IH.
  destruct (decide (Double.Transaction.type tx = "SELL")) as [Hsell|Hother].
  - destruct (double_process_sell s tx Hsell) as (k & ds & _ & _ & -> & _).
    by apply totals_in_order_addSale, totals_in_order_records.
  - by rewrite double_newDetails_other.
Qed.

Lemma one_bucket_record r d : Double.oneBucketAtMost r (Double.record r d).
Proof.
  destruct r. unfold Double.oneBucketAtMost, Double.record, Double.updateTotals,
    Double.pushDetail. cbn zeta.
  destruct (PrimFloat.ltb _ _), (bool_decide _); cbn; tauto.
Qed.

(** C6, as amended.  [netGainLoss] is [totalGains - totalLosses], one
    subtraction of doubles.  Every record belongs to exactly one of the
    four (term, sign) classes, a [gainLoss] that is not [> 0] ([NaN]
    included) counting as a loss; recording it changes the bucket of its
    class at most and leaves the three others as they are; each bucket
    is the sum, rounded addition by addition in the order of the
    records, of the gains (or of the magnitudes of the losses) of its
    class, and [totalGains] and [totalLosses] are such sums over the
    gains and over the losses.  ([netGainLoss] need not be the sum of
    [gainLoss] over the records.) *)
Theorem gains_routing_on_doubles (transactions : list Double.Transaction.t)
    (previousTaxLots : list nat) (h : list Double.TaxLot.t) :
  let r := Double.result (Double.run transactions previousTaxLots h) in
  Double.GainLossCalculation.netGainLoss r =
    PrimFloat.sub (Double.GainLossCalculation.totalGains r)
      (Double.GainLossCalculation.totalLosses r) ∧
  Double.totals_in_order r ∧
  (∀ d, ∃ t gain, Double.inBucket t gain d ∧
        ∀ t' gain', Double.inBucket t' gain' d → t' = t ∧ gain' = gain) ∧
  (∀ r0 d, Double.oneBucketAtMost r0 (Double.record r0 d)).
Proof.
  cbn zeta. unfold Double.run. cbn zeta. cbn [Double.result].
  set (r := Double.result (foldl Double.process _ transactions)).
  assert (Hr : Double.totals_in_order r).
  { apply totals_in_order_run. apply totals_in_order_initial. }
  clearbody r. split; [by destruct r|]. split.
  { destruct r. exact Hr. }
  split; [|apply one_bucket_record].
  intros d. exists (Double.Detail.term d), (PrimFloat.ltb 0 (Double.Detail.gainLoss d)).
  split; [done|]. by intros t' gain' [<- <-].
Qed.

(** ** The loop ends, on doubles too *)

(** X2.  The matching loop terminates on doubles, whatever the amounts
    are ([NaN], infinities and negative zeros included): within one
    iteration per queued lot its guard is false, because an iteration
    either removes the head lot or takes what remains ([x - x] is never
    positive); more iterations change nothing. *)
Theorem double_loop_exits (tx : Double.Transaction.t) (s : Double.SellState) (fuel : nat) :
  (length (Double.availableLots (Double.outer s)) ≤ fuel)%nat →
  Double.sell_cond (Double.sell_loop tx s) = false ∧
  while fuel Double.sell_cond (Double.sell_body tx) s = Double.sell_loop tx s.
Proof.
  intros Hfuel. destruct s as [[h q r] remaining tcb]. unfold Double.sell_loop.
  cbn [Double.outer Double.availableLots] in *.
  destruct (double_loop_shape tx (length q) q h r remaining tcb ltac:(done))
    as (k & ds & _ & _ & _ & _ & Hexit & _).
  split; [done|]. by apply while_more_fuel.
Qed.

(** ** What a run never does to a lot, on doubles *)

Lemma sameIdentity_refl lot : Double.sameIdentity lot lot.
Proof. done. Qed.

Lemma sameIdentity_trans lot1 lot2 lot3 :
  Double.sameIdentity lot1 lot2 → Double.sameIdentity lot2 lot3 →
  Double.sameIdentity lot1 lot3.
Proof.
  unfold Double.sameIdentity. intros (-> & -> & -> & ->) (-> & -> & -> & ->). done.
Qed.

Lemma double_process_identity s tx :
  (length (Double.heap s) ≤ length (Double.heap (Double.process s tx)))%nat ∧
  (∀ ref lot, Double.heap s !! ref = Some lot →
     ∃ lot', Double.heap (Double.process s tx) !! ref = Some lot' ∧
             Double.sameIdentity lot lot') ∧
  (∀ ref lot', Double.heap (Double.process s tx) !! ref = Some lot' →
     (length (Double.heap s) ≤ ref)%nat →
     Double.Transaction.type tx = "BUY" ∧ lot' = Double.newLot tx).
Proof.
  apply (double_process_cases
           (λ s', (length (Double.heap s) ≤ length (Double.heap s'))%nat ∧
                  (∀ ref lot, Double.heap s !! ref = Some lot →
                     ∃ lot', Double.heap s' !! ref = Some lot' ∧
                             Double.sameIdentity lot lot') ∧
                  (∀ ref lot', Double.heap s' !! ref = Some lot' →
                     (length (Double.heap s) ≤ ref)%nat →
                     Double.Transaction.type tx = "BUY" ∧ lot' = Double.newLot tx))).
  - intros Hbuy. cbn [Double.heap]. rewrite length_app. cbn [length].
    split; [lia|]. split.
    + intros ref lot Hlot. exists lot. split; [|done]. by apply lookup_app_l_Some.
    + intros ref lot' Hlot' Hge. rewrite lookup_app_r in Hlot' by done.
      apply list_lookup_singleton_Some in Hlot' as [_ <-]. done.
  - intros Hsell. destruct (double_process_sell s tx Hsell)
      as (k & ds & _ & _ & _ & _ & _ & _ & Hheap).
    destruct Hheap as [[-> _]|(ref0 & d & _ & _ & _ & _ & -> & _)].
    + split; [done|]. split; [by eauto using sameIdentity_refl|].
      intros ref lot' Hlot' Hge. apply lookup_lt_Some in Hlot'. lia.
    + rewrite length_insert. split; [done|]. split.
      * intros ref lot Hlot. destruct (decide (ref0 = ref)) as [->|Hne].
        -- eexists. split.
           ++ apply list_lookup_insert_eq. by eapply lookup_lt_Some.
           ++ rewrite (list_lookup_total_correct _ _ _ Hlot). done.
        -- exists lot. by rewrite list_lookup_insert_ne.
      * intros ref lot' Hlot' Hge. apply lookup_lt_Some in Hlot'.
        rewrite length_insert in Hlot'. lia.
  - intros _ _. split; [done|]. split; [by eauto using sameIdentity_refl|].
    intros ref lot' Hlot' Hge. apply lookup_lt_Some in Hlot'. lia.
Qed.

Lemma double_run_identity txs : ∀ s,
  let s' := foldl Double.process s txs in
  (length (Double.heap s) ≤ length (Double.heap s'))%nat ∧
  (∀ ref lot, Double.heap s !! ref = Some lot →
     ∃ lot', Double.heap s' !! ref = Some lot' ∧ Double.sameIdentity lot lot') ∧
  (∀ ref lot', Double.heap s' !! ref = Some lot' →
     (length (Double.heap s) ≤ ref)%nat →
     ∃ tx, tx ∈ txs ∧ Double.Transaction.type tx = "BUY" ∧
           Double.sameIdentity (Double.newLot tx) lot').
Proof.
  induction txs as [|tx txs IH]; intros s; cbn [foldl]; cbn zeta.
  - split; [done|]. split; [by eauto using sameIdentity_refl|].
    intros ref lot' Hlot' Hge. apply lookup_lt_Some in Hlot'. lia.
  - destruct (double_process_identity s tx) as (Hlen & Hold & Hnew).
    destruct (IH (Double.process s tx)) as (Hlen' & Hold' & Hnew'). cbn zeta in *.
    split; [lia|]. split.
    + intros ref lot Hlot. destruct (Hold ref lot Hlot) as (lot1 & H1 & I1).
      destruct (Hold' ref lot1 H1) as (lot2 & H2 & I2).
      exists lot2. split; [done|]. by eapply sameIdentity_trans.
    + intros ref lot' Hlot' Hge.
      destruct (decide (length (Double.heap (Double.process s tx)) ≤ ref)%nat) as [Hbig|Hsmall].
      * destruct (Hnew' ref lot' Hlot' Hbig) as (tx' & Hin & Hbuy & I). exists tx'.
        split; [by right|done].
      * destruct (lookup_lt_is_Some_2 (Double.heap (Double.process s tx)) ref ltac:(lia))
          as [lot1 H1].
        destruct (Hold' ref lot1 H1) as (lot2 & H2 & I2).
        assert (lot2 = lot') as -> by congruence.
        destruct (Hnew ref lot1 H1 Hge) as [Hbuy ->]. exists tx. split; [left|done].
Qed.

(** X4.  What a run never does to a lot, on doubles: it assigns only
    [amount] and [costBasis].  Every lot object of the store keeps its
    [id], [acquiredAt], [isClosed] and [transaction]; the store only
    grows, by lots that carry the fields of a BUY event of the run with
    [isClosed] false.  No lot is ever marked closed, not even one
    matched whole: it only leaves the local queue. *)
Theorem lots_keep_identity (transactions : list Double.Transaction.t)
    (previousTaxLots : list nat) (h : list Double.TaxLot.t) :
  let h' := (Double.calculateGainsLosses transactions previousTaxLots 0 0 h).2 in
  (length h ≤ length h')%nat ∧
  (∀ ref lot, h !! ref = Some lot →
     ∃ lot', h' !! ref = Some lot' ∧ Double.sameIdentity lot lot') ∧
  (∀ ref lot', h' !! ref = Some lot' → (length h ≤ ref)%nat →
     Double.TaxLot.isClosed lot' = false ∧
     ∃ tx, tx ∈ transactions ∧ Double.Transaction.type tx = "BUY" ∧
           Double.sameIdentity (Double.newLot tx) lot').
Proof.
  cbn zeta. unfold Double.calculateGainsLosses, Double.run. cbn zeta. cbn [snd Double.heap].
  destruct (double_run_identity transactions
              (Double.mkState h previousTaxLots Double.GainLossCalculation.initial))
    as (Hlen & Hold & Hnew). cbn zeta in *. cbn [Double.heap] in *.
  split; [done|]. split; [done|].
  intros ref lot' Hlot' Hge. destruct (Hnew ref lot' Hlot' Hge) as (tx & Hin & Hbuy & I).
  split; [|by exists tx]. by destruct I as (_ & _ & -> & _).
Qed.

(** ** Doubles at concrete inputs *)

(** Ten units sold against six: the promise is resolved, with one record
    of six units, the whole $1000 as proceeds and the store untouched;
    the four units left over are recorded nowhere, and no error carries
    them. *)
Lemma shortfall_not_signalled :
  let out := Double.calculateGainsLosses [Double.sellTen] [0%nat] 0 0 Double.sixUnits in
  (∃ r, out.1 = Resolved r ∧
        Double.Detail.amount <$> Double.GainLossCalculation.transactions r = [6%float]%list ∧
        Double.GainLossCalculation.proceeds r = 1000%float) ∧
  out.2 = Double.sixUnits ∧
  Double.unmatched Double.sixUnitsState Double.sellTen = 4%float ∧
  ¬ ∃ reason, out.1 = Rejected reason.
Proof.
  cbn zeta. split; [|split; [|split]].
  - eexists. split; [reflexivity|]. split; vm_compute; reflexivity.
  - vm_compute. reflexivity.
  - vm_compute. reflexivity.
  - intros (reason & H). discriminate H.
Qed.

Lemma shortfall_is_dropped_witness :
  PrimFloat.ltb 0 (Double.unmatched Double.sixUnitsState Double.sellTen) = true ∧
  Double.availableLots (Double.process Double.sixUnitsState Double.sellTen) = [] ∧
  Double.heap (Double.process Double.sixUnitsState Double.sellTen) = Double.sixUnits ∧
  Double.GainLossCalculation.proceeds
    (Double.result (Double.process Double.sixUnitsState Double.sellTen)) =
    PrimFloat.add 0 1000.
Proof.
  assert (Hshort : PrimFloat.ltb 0 (Double.unmatched Double.sixUnitsState Double.sellTen) = true)
    by (vm_compute; reflexivity).
  destruct (shortfall_is_dropped Double.sixUnitsState Double.sellTen 0 0 eq_refl)
    as (_ & Hproceeds & Hdropped).
  destruct (Hdropped Hshort) as (Hqueue & Hheap & _).
  split; [exact Hshort|]. split; [exact Hqueue|]. split; [exact Hheap|exact Hproceeds].
Defined.

(** Rounding can hide a shortfall.  Lots of 0.1, 0.3 and 0.9 hold less
    than the 1.3 sold, as numbers; but 1.3 - 0.1 - 0.3 rounds to
    0.8999999999999999, below 0.9: the third lot is cut to 1.1e-16, stays
    queued, and nothing is left unmatched. *)
Lemma rounding_hides_a_shortfall :
  let s := Double.process Double.tenthsState Double.sellTenths in
  (Double.exactSum (Double.TaxLot.amount <$> Double.tenths) <
   Double.exact (Double.Transaction.amount Double.sellTenths))%Q ∧
  Double.unmatched Double.tenthsState Double.sellTenths = 0%float ∧
  Double.availableLots s = [2%nat]%list ∧
  Double.TaxLot.amount <$> Double.heap s =
    [0.1; 0.3; 1.1102230246251565e-16]%float ∧
  Double.Detail.amount <$> Double.details s = [0.1; 0.3; 0.8999999999999999]%float.
Proof.
  cbn zeta. split; [|repeat split; vm_compute; reflexivity].
  apply Qlt_alt. vm_compute. reflexivity.
Qed.

Lemma fifo_on_doubles_witness :
  ∃ k, k = 2%nat ∧
    Double.availableLots (Double.process Double.tenthsState Double.sellTenths) =
      drop k (Double.availableLots Double.tenthsState) ∧
    Forall2 (λ ref d, Double.wholeLot Double.sellTenths (Double.tenths !!! ref) d)
      (take k (Double.availableLots Double.tenthsState))
      (take k (Double.newDetails Double.tenthsState Double.sellTenths)).
Proof.
  destruct (fifo_on_doubles Double.tenthsState Double.sellTenths eq_refl)
    as (k & Hk & Hq & Hwhole & _).
  exists k. split; [|split; [exact Hq|exact Hwhole]].
  destruct k as [|[|[|k]]]; vm_compute in Hq; try discriminate Hq; [reflexivity|].
  destruct k; discriminate Hq.
Defined.

Lemma double_loop_exits_witness :
  Double.sell_cond
    (Double.sell_loop Double.sellTenths
       (Double.mkSell Double.tenthsState 1.3 0)) = false.
Proof.
  destruct (double_loop_exits Double.sellTenths (Double.mkSell Double.tenthsState 1.3 0) 3
              ltac:(simpl; lia)) as [Hexit _].
  exact Hexit.
Defined.

(** C2, where the code departs from it.  Each disposal should consume
    lots of its own asset only; here a sale of ETH takes three of the
    five units of a BTC lot, the only lot queued, and the record it
    gives says ETH. *)
Lemma other_asset_lot_consumed :
  let s := Double.run [Double.sellEth] [0%nat] Double.btcLot in
  Double.TaxLot.asset (Double.btcLot !!! 0%nat) = "BTC" ∧
  Double.Transaction.symbol Double.sellEth = "ETH" ∧
  Double.TaxLot.amount (Double.btcLot !!! 0%nat) = 5%float ∧
  Double.TaxLot.amount (Double.heap s !!! 0%nat) = 2%float ∧
  Double.TaxLot.costBasis (Double.heap s !!! 0%nat) = 40%float ∧
  Double.Detail.asset <$> Double.details s = ["ETH"]%list ∧
  Double.Detail.amount <$> Double.details s = [3%float]%list.
Proof. cbn zeta. repeat split; vm_compute; reflexivity. Qed.

(** The totals are not the sums over the records.  Ten units sold for
    $1000 against six: [proceeds] is 1000, the records account for 600.
    Three purchases and two sales: [costBasis] is 46.66666666666667, the
    records add up to 46.666666666666664 as doubles, and to neither as
    numbers. *)
Lemma totals_drift_from_portions :
  let r := Double.result (Double.run [Double.sellTen] [0%nat] Double.sixUnits) in
  let r' := Double.result (Double.run Double.thirds [] []) in
  (Double.GainLossCalculation.proceeds r = 1000%float ∧
   Double.sum (Double.Detail.proceeds <$> Double.GainLossCalculation.transactions r) =
     600%float ∧
   (Double.exactSum (Double.Detail.proceeds <$> Double.GainLossCalculation.transactions r) ==
      600)%Q) ∧
  (Double.GainLossCalculation.costBasis r' = 46.66666666666667%float ∧
   Double.sum (Double.Detail.costBasis <$> Double.GainLossCalculation.transactions r') =
     46.666666666666664%float ∧
   ¬ (Double.exact (Double.GainLossCalculation.costBasis r') ==
        Double.exactSum
          (Double.Detail.costBasis <$> Double.GainLossCalculation.transactions r'))%Q).
Proof.
  cbn zeta. split; split; [vm_compute; reflexivity| |vm_compute; reflexivity|].
  - split; [vm_compute; reflexivity|]. apply Qeq_bool_iff. vm_compute. reflexivity.
  - split; [vm_compute; reflexivity|]. intros H%Qeq_bool_iff. vm_compute in H. discriminate H.
Qed.

(** [netGainLoss] is not the sum of [gainLoss] over the records.  Three
    purchases and two sales, each sale matched in full: the four records'
    [gainLoss] add up to 0 as doubles, [netGainLoss] is 7.1e-15, and
    their sum as numbers is a third value. *)
Lemma net_drifts_from_portions :
  let s := Double.run Double.cancelling [] [] in
  let r := Double.result s in
  Double.availableLots s = [] ∧
  Double.GainLossCalculation.netGainLoss r = 7.1054273576010019e-15%float ∧
  Double.sum (Double.Detail.gainLoss <$> Double.GainLossCalculation.transactions r) =
    0%float ∧
  ¬ (Double.exact (Double.GainLossCalculation.netGainLoss r) ==
       Double.exactSum
         (Double.Detail.gainLoss <$> Double.GainLossCalculation.transactions r))%Q.
Proof.
  cbn zeta. split; [vm_compute; reflexivity|]. split; [vm_compute; reflexivity|].
  split; [vm_compute; reflexivity|].
  intros H%Qeq_bool_iff. vm_compute in H. discriminate H.
Qed.
